(** * Continental Calendar: the curation pipeline, embedded and verified

    The scripts of the repository (promote-intake, seed-intake, audit-data,
    the schema migration, the day scaffold), the calendar helpers and the
    decisions of the pages (DateJump, DayPage, Home, the legacy DayPage) are
    embedded as Rocq functions over an explicit model of the two
    directories they read and write.  Conventions:

    - a parsed record is a JavaScript object: an association list of own
      properties in insertion order, the order [JSON.stringify] prints;
    - a file of a directory either fails [JSON.parse] ([Corrupt]) or holds a
      JSON object ([Doc]); a directory is a finite map from file names;
    - a script run is a function from the file system to a [result]: how
      the process ended, the file system afterwards and the log of the
      writes that were issued;
    - a finite JavaScript number is the rational it denotes. *)

From Stdlib Require Import ZArith QArith List String Ascii Bool Lia DecimalString.
From stdpp Require Import gmap strings list fin_maps sorting.

Set Warnings "-register-all".
Close Scope Q_scope.
Open Scope string_scope.
Open Scope Z_scope.

(* ===================================================================== *)
(** ** Built-ins of the language the scripts lean on *)
(* ===================================================================== *)

Module Js.

(** [String(n)] for an integral number. *)
Definition String_of (n : Z) : string := NilZero.string_of_int (Z.to_int n).

Fixpoint repeat_string (n : nat) (s : string) : string :=
  match n with O => "" | S n' => s ++ repeat_string n' s end.

(** [s.padStart(2, "0")]. *)
Definition padStart2 (s : string) : string :=
  repeat_string (2 - String.length s) "0" ++ s.

(** [Number(s)] on a string of ASCII digits (exact below 2^53). *)
Fixpoint digits_value (acc : Z) (s : string) : Z :=
  match s with
  | EmptyString => acc
  | String c rest => digits_value (10 * acc + (Z.of_nat (nat_of_ascii c) - 48)) rest
  end.

Definition Number_of_digits (s : string) : Z := digits_value 0 s.

(** [s.split(sep)] for a one-character separator. *)
Fixpoint split (sep : ascii) (s : string) : list string :=
  match s with
  | EmptyString => [EmptyString]
  | String c rest =>
      if Ascii.eqb c sep then EmptyString :: split sep rest
      else match split sep rest with
           | t :: ts => String c t :: ts
           | [] => [String c EmptyString]
           end
  end.

(** [s.endsWith(suffix)]. *)
Definition endsWith (s suffix : string) : bool :=
  let n := String.length s in
  let m := String.length suffix in
  (m <=? n)%nat && String.eqb (substring (n - m) m s) suffix.

End Js.

(* ===================================================================== *)
(** ** JSON values and JavaScript objects *)
(* ===================================================================== *)

Module Json.

Inductive json : Type :=
| JNull
| JBool (b : bool)
| JNum (q : Q)
| JStr (s : string)
| JArr (items : list json)
| JObj (fields : list (string * json)).

(** An object: own properties, in insertion order, keys pairwise distinct. *)
Abbreviation obj := (list (string * json)).

(** [o[k]] for an own property; [None] is [undefined]. *)
Fixpoint obj_get (o : obj) (k : string) : option json :=
  match o with
  | [] => None
  | (k', v) :: rest => if String.eqb k k' then Some v else obj_get rest k
  end.

(** [Object.prototype.hasOwnProperty.call(o, k)]. *)
Definition hasOwnProperty (o : obj) (k : string) : bool :=
  match obj_get o k with Some _ => true | None => false end.

(** [o[k] = v]: an existing property keeps its place, a new one goes last. *)
Fixpoint obj_set (o : obj) (k : string) (v : json) : obj :=
  match o with
  | [] => [(k, v)]
  | (k', v') :: rest =>
      if String.eqb k k' then (k', v) :: rest else (k', v') :: obj_set rest k v
  end.

(** [delete o[k]]. *)
Fixpoint obj_delete (o : obj) (k : string) : obj :=
  match o with
  | [] => []
  | (k', v') :: rest =>
      if String.eqb k k' then obj_delete rest k else (k', v') :: obj_delete rest k
  end.

(** [Array.isArray(x)], on the result of a property read. *)
Definition isArray (x : option json) : bool :=
  match x with Some (JArr _) => true | _ => false end.

(** [Array.isArray(x) ? x : []]. *)
Definition arrayOr (x : option json) : list json :=
  match x with Some (JArr items) => items | _ => [] end.

(** The sequence held under [k], empty when [k] is missing or no array. *)
Definition entries (o : obj) (k : string) : list json := arrayOr (obj_get o k).

(** [ensureArray(obj, key)], the helper every script repeats. *)
Definition ensureArray (o : obj) (key : string) : obj :=
  if negb (hasOwnProperty o key) || negb (isArray (obj_get o key))
  then obj_set o key (JArr [])
  else o.

(** JavaScript truthiness of a property read. *)
Definition truthy (x : option json) : bool :=
  match x with
  | None | Some JNull => false
  | Some (JBool b) => b
  | Some (JNum q) => negb (Qeq_bool q 0)
  | Some (JStr s) => negb (String.eqb s "")
  | Some (JArr _) | Some (JObj _) => true
  end.

(** [typeof x === "string"]. *)
Definition isString (x : option json) : bool :=
  match x with Some (JStr _) => true | _ => false end.

End Json.

(* ===================================================================== *)
(** ** ProjectCalendar: src/lib/calendar.ts and the NY-mapped variant *)
(* ===================================================================== *)

Module Calendar.
Import Js.

Definition PROJECT_START : string := "1775-07-04".
Definition PROJECT_END : string := "1776-07-04".

Definition pad2 (n : Z) : string := padStart2 (String_of n).

(** What [todayMappedIso] reads of [new Date()]: the local calendar fields. *)
Record Date := {
  getFullYear : Z;
  getMonth : Z;      (* 0 .. 11 *)
  getDate : Z;       (* 1 .. 31 *)
  getHours : Z;
  getMinutes : Z;
  getSeconds : Z
}.

(** [todayMappedIso], with the clock reading [now] made an argument. *)
Definition todayMappedIso (now : Date) : string :=
  let m := getMonth now + 1 in
  let d := getDate now in
  let afterJul4 := (7 <? m) || ((m =? 7) && (4 <=? d)) in
  let year := if afterJul4 then 1775 else 1776 in
  String_of year ++ "-" ++ pad2 m ++ "-" ++ pad2 d.

(** [nyMonthDay]: the month and day parts that [Intl.DateTimeFormat] prints
    with the ["2-digit"] option, for a New York calendar date. *)
Definition nyMonthDay (month day : Z) : string * string := (pad2 month, pad2 day).

(** [publishIsoTodayMapped] of seed-intake and the status tool, with the
    New York calendar date made an argument. *)
Definition publishIsoTodayMapped (nyMonth nyDay : Z) : string :=
  let '(m, d) := nyMonthDay nyMonth nyDay in
  let month := Number_of_digits m in
  let day := Number_of_digits d in
  let afterJul4 := (7 <? month) || ((month =? 7) && (4 <=? day)) in
  let year := if afterJul4 then 1775 else 1776 in
  String_of year ++ "-" ++ m ++ "-" ++ d.

(** [clampToProject]: JavaScript compares strings code unit by code unit. *)
Definition clampToProject (isoDate : string) : string :=
  if String.ltb isoDate PROJECT_START then PROJECT_START
  else if String.ltb PROJECT_END isoDate then PROJECT_END
  else isoDate.

(** The cutover of the mapping, as an order on (month, day) pairs. *)
Definition on_or_after_cutover (m d : Z) : Prop := 7 < m \/ (m = 7 /\ 4 <= d).

(** The label year the calendar assigns to a wall-clock (month, day). *)
Definition label_year (m d : Z) : Z :=
  if (7 <? m) || ((m =? 7) && (4 <=? d)) then 1775 else 1776.

Definition address (year m d : Z) : string :=
  String_of year ++ "-" ++ pad2 m ++ "-" ++ pad2 d.

Definition wallClock (m d : Z) : Date :=
  {| getFullYear := 2026; getMonth := m - 1; getDate := d;
     getHours := 0; getMinutes := 0; getSeconds := 0 |}.

End Calendar.

(* ===================================================================== *)
(** ** The file system the scripts share *)
(* ===================================================================== *)

Module Store.
Import Js Json.

(** What [JSON.parse(fs.readFileSync(p, "utf8"))] makes of a file: it throws
    on the text, or yields the object the text denotes.  A record file is a
    JSON object (spec, section 6); a text that parses to another JSON value
    is outside this model. *)
Inductive file : Type :=
| Corrupt (raw : string)
| Doc (o : obj).

(** A directory: file name to content. *)
Abbreviation dir := (gmap string file).

(** [data/] may be absent ([fs.existsSync(dataDir)] is tested); [intake/] is
    only reached through paths below it, so an absent one reads as empty. *)
Record FS : Type := {
  dataDir : option dir;
  intakeDir : dir
}.

(** How a node process ends. *)
Inductive ending : Type :=
| Returned              (* main ran to its end *)
| Exited (code : Z)     (* process.exit(code) *)
| Threw.                (* an exception escaped main *)

Definition exit_code (e : ending) : Z :=
  match e with Returned => 0 | Exited c => c | Threw => 1 end.

(** [path.basename(f, ext)] for a file name without directory part. *)
Definition basename (f ext : string) : string :=
  if endsWith f ext then substring 0 (String.length f - String.length ext) f else f.

(** [path.basename(path.join(dir, f), ext)], the base name of a file given
    with its directory: a name that is the extension and nothing else is
    kept whole. *)
Definition basenameOfPath (f ext : string) : string :=
  if String.eqb f ext then f else basename f ext.

Definition isJsonName (f : string) : bool := endsWith f ".json".

(** [fs.readdirSync(dir)]: the names, in the order the map enumerates them. *)
Definition readdirSync (d : dir) : list string := (map_to_list d).*1.

Definition str_le (a b : string) : Prop := String.leb a b = true.

#[global] Instance str_le_dec a b : Decision (str_le a b).
Proof. unfold str_le. apply _. Defined.

(** [names.sort()]: code-unit order, which on ASCII names is byte order. *)
Definition sort (names : list string) : list string := merge_sort str_le names.

(** [readdirSync(dataDir).filter((f) => f.endsWith(".json")).sort()]. *)
Definition jsonFiles (d : dir) : list string :=
  sort (List.filter isJsonName (readdirSync d)).

(** [path.join(dataDir, `${iso}.json`)], as a name inside [data/]. *)
Definition dataPath (iso : string) : string := iso ++ ".json".

(** [path.join(intakeDir, `${iso}.rag.json`)], as a name inside [intake/]. *)
Definition intakePath (iso : string) : string := iso ++ ".rag.json".

(** [fs.existsSync] of a file of a directory. *)
Definition existsIn (d : dir) (name : string) : bool :=
  match d !! name with Some _ => true | None => false end.

Definition existsData (fs : FS) (name : string) : bool :=
  match dataDir fs with Some d => existsIn d name | None => false end.

(** [readJson(p)]: [None] when the read or the parse throws. *)
Definition readJson (d : dir) (name : string) : option obj :=
  match d !! name with Some (Doc o) => Some o | _ => None end.

(** [writeJson(p, obj)] into [data/]: the file then parses to [obj]. *)
Definition writeData (fs : FS) (name : string) (o : obj) : option FS :=
  match dataDir fs with
  | Some d => Some {| dataDir := Some (<[name := Doc o]> d); intakeDir := intakeDir fs |}
  | None => None
  end.

End Store.

(* ===================================================================== *)
(** ** PromotionEngine: src/scripts/promote-intake.mjs *)
(* ===================================================================== *)

Module Promote.
Import Js Json Store.

Definition SOLDIERS : string := "soldiers_day".
Definition COMMAND : string := "men_of_command".
Definition CONGRESS : string := "continental_congress_committees".
Definition VOICES : string := "voices_beyond_the_line".

Definition CAPS : list (string * nat) :=
  [(SOLDIERS, 3%nat); (COMMAND, 2%nat); (CONGRESS, 2%nat); (VOICES, 2%nat)].

(** [Object.keys(CAPS)]. *)
Definition KEYS : list string := CAPS.*1.

(** [CAPS[key]]; [None] is [undefined]. *)
Fixpoint lookupCap (caps : list (string * nat)) (key : string) : option nat :=
  match caps with
  | [] => None
  | (k, c) :: rest => if String.eqb key k then Some c else lookupCap rest key
  end.

(** [arr.slice(0, end)]; an [undefined] end keeps the whole array. *)
Definition slice0 {A} (l : list A) (e : option nat) : list A :=
  match e with Some n => firstn n l | None => l end.

(** A JavaScript number; a finite one is the rational it denotes. *)
Inductive number : Type :=
| NaN
| Infinity (negative : bool)
| Finite (q : Q).

(** [Number.isFinite(n)]. *)
Definition isFinite (n : number) : bool :=
  match n with Finite _ => true | _ => false end.

(** [n >= k] for an integer [k]. *)
Definition geZ (n : number) (k : Z) : bool :=
  match n with
  | NaN => false
  | Infinity negative => negb negative
  | Finite q => Qle_bool (inject_Z k) q
  end.

(** [n < k] for an integer [k]. *)
Definition ltZ (n : number) (k : Z) : bool :=
  match n with
  | NaN => false
  | Infinity negative => negative
  | Finite q => negb (Qle_bool (inject_Z k) q)
  end.

(** [n - 1].  The subtraction is exact on doubles from 1 up to 2^53; outside
    that range the rounded and the exact difference lie on the same side of
    0 and of every array length, which is all the callers ask of it. *)
Definition minus1 (n : number) : number :=
  match n with
  | Finite q => Finite (q - 1)%Q
  | _ => n
  end.

(** An array element read [arr[i]] leaves [undefined] where [i] is no index
    of the array.  The value is only ever pushed onto an array that is
    measured with [.length] and printed with [JSON.stringify], which prints
    an [undefined] array element as [null]. *)
Definition undefinedElement : json := JNull.

(** [arr[i]] for a number [i]. *)
Definition element (arr : list json) (i : number) : json :=
  match i with
  | Finite q =>
      if (Qnum q mod Zpos (Qden q) =? 0) && (0 <=? Qnum q)
      then nth (Z.to_nat (Qnum q / Zpos (Qden q))) arr undefinedElement
      else undefinedElement
  | _ => undefinedElement
  end.

(** The loop of [applyPromotion] that fills [picked]. *)
Fixpoint pickLoop (candidates : list json) (indices : list number)
    (picked : list json) : list json :=
  match indices with
  | [] => picked
  | n :: rest =>
      let i := minus1 n in
      if ltZ i 0 || geZ i (Z.of_nat (length candidates))
      then pickLoop candidates rest picked
      else pickLoop candidates rest (picked ++ [element candidates i])%list
  end.

Record promotion : Type := {
  data_after : obj;
  intake_after : obj;
  pickedCount : nat;
  finalCount : nat
}.

(** [applyPromotion({ data, intake, key, indices, overwrite })]; the two
    objects are updated in place, so both come back. *)
Definition applyPromotion (data intake : obj) (key : string)
    (indices : list number) (overwrite : bool) : promotion :=
  let data := ensureArray data key in
  let intake := ensureArray intake key in
  let picked := pickLoop (entries intake key) indices [] in
  let base := if overwrite then [] else entries data key in
  let merged := (base ++ picked)%list in
  let data := obj_set data key (JArr (slice0 merged (lookupCap CAPS key))) in
  {| data_after := data; intake_after := intake;
     pickedCount := length picked; finalCount := length (entries data key) |}.

(** [/^\d{4}-\d{2}-\d{2}$/.test(iso)]. *)
Definition isDigit (c : ascii) : bool :=
  let n := nat_of_ascii c in (48 <=? n)%nat && (n <=? 57)%nat.

Definition isDash (c : ascii) : bool := Ascii.eqb c "-"%char.

Definition isIsoDate (iso : string) : bool :=
  match list_ascii_of_string iso with
  | [y1; y2; y3; y4; s1; m1; m2; s2; d1; d2] =>
      isDigit y1 && isDigit y2 && isDigit y3 && isDigit y4 && isDash s1 &&
      isDigit m1 && isDigit m2 && isDash s2 && isDigit d1 && isDigit d2
  | _ => false
  end.

(** [args.includes(f)]. *)
Definition hasFlag (args : list string) (f : string) : bool :=
  existsb (String.eqb f) args.

(** [getFlagValue(f)]: the argument after the first [f]; [None] is [null]. *)
Fixpoint getFlagValue (args : list string) (f : string) : option string :=
  match args with
  | [] => None
  | a :: rest => if String.eqb a f then hd_error rest else getFlagValue rest f
  end.

(** The body of the loop of [findNextMissing] for one file name: [Some iso]
    when the loop returns there. *)
Definition nextMissingAt (d : dir) (intake : dir) (f : string) : option string :=
  let iso := basename f ".json" in
  if negb (existsIn intake (intakePath iso)) then None
  else match readJson d (dataPath iso) with
       | Some data =>
           if (length (entries data SOLDIERS) =? 0)%nat then Some iso else None
       | None => None          (* catch: parse failures are ignored here *)
       end.

Fixpoint firstSome {A B} (f : A -> option B) (l : list A) : option B :=
  match l with
  | [] => None
  | x :: rest => match f x with Some y => Some y | None => firstSome f rest end
  end.

(** [findNextMissing()]; the outer [None] is the exception of [readdirSync]
    on a missing [data/]. *)
Definition findNextMissing (fs : FS) : option (option string) :=
  match dataDir fs with
  | None => None
  | Some d => Some (firstSome (nextMissingAt d (intakeDir fs)) (jsonFiles d))
  end.

(** The plan that is printed: per category touched, picked and final count. *)
Abbreviation plan := (list (string * (nat * nat))).

(** The ways a run of the script ends. *)
Inductive outcome : Type :=
| Usage                 (* no arguments: usage(), exit 2 *)
| NothingMissing        (* --next-missing found no date: exit 0 *)
| BadDate               (* "date must be YYYY-MM-DD": exit 2 *)
| IntakeNotFound        (* "intake file not found": exit 2 *)
| DataNotFound          (* "data file not found": exit 2 *)
| Uncaught              (* an exception escaped main *)
| Listed                (* --list: exit 0 *)
| NoSelections          (* "no selections provided": exit 2 *)
| EmptySoldiers         (* "would still have soldiers_day.length === 0": exit 1 *)
| DryRun (p : plan)     (* "DRY RUN: No files written.": exit 0 *)
| Wrote (p : plan).     (* "Wrote curated data": main returns *)

Definition ending_of (o : outcome) : ending :=
  match o with
  | Usage | BadDate | IntakeNotFound | DataNotFound | NoSelections => Exited 2
  | NothingMissing | Listed | DryRun _ => Exited 0
  | EmptySoldiers => Exited 1
  | Uncaught => Threw
  | Wrote _ => Returned
  end.

Record result : Type := {
  outcome_of : outcome;
  fs_after : FS;
  writes : list (string * obj)
}.

Definition exitCode (r : result) : Z := exit_code (ending_of (outcome_of r)).

(** A run that has not ended yet carries a value on. *)
Inductive step (A : Type) : Type :=
| Stop (o : outcome)
| Go (a : A).
Arguments Stop {A} o.
Arguments Go {A} a.

Definition bind {A B} (s : step A) (k : A -> step B) : step B :=
  match s with Stop o => Stop o | Go a => k a end.

Notation "x <- s ;; k" := (bind s (fun x => k))
  (at level 100, s at next level, right associativity).

Definition guard (b : bool) (o : outcome) : step unit :=
  if b then Go tt else Stop o.

(** The four index lists of one invocation, in the order they are applied. *)
Record selections : Type := {
  soldiersIdx : list number;
  commandIdx : list number;
  congressIdx : list number;
  voicesIdx : list number
}.

Definition anySelection (s : selections) : bool :=
  negb ((length (soldiersIdx s) =? 0)%nat) || negb ((length (commandIdx s) =? 0)%nat) ||
  negb ((length (congressIdx s) =? 0)%nat) || negb ((length (voicesIdx s) =? 0)%nat).

(** One [if (idx.length) report.push([key, applyPromotion(...)])]. *)
Definition promoteIf (key : string) (indices : list number) (overwrite : bool)
    (st : obj * obj * plan) : obj * obj * plan :=
  let '(data, intake, report) := st in
  if (length indices =? 0)%nat then st
  else
    let p := applyPromotion data intake key indices overwrite in
    (data_after p, intake_after p, (report ++ [(key, (pickedCount p, finalCount p))])%list).

(** The four conditional promotions of [main], in source order. *)
Definition promoteAll (s : selections) (overwrite : bool) (data intake : obj)
    : obj * obj * plan :=
  promoteIf VOICES (voicesIdx s) overwrite
    (promoteIf CONGRESS (congressIdx s) overwrite
      (promoteIf COMMAND (commandIdx s) overwrite
        (promoteIf SOLDIERS (soldiersIdx s) overwrite (data, intake, [])))).

(** [for (const k of Object.keys(CAPS)) ensureArray(o, k)]. *)
Definition normalize (o : obj) : obj := fold_left ensureArray KEYS o.

Section CommandLine.

(** [String.prototype.trim] and the [Number] conversion of a string are
    built-ins of the language; every result below holds whatever they are. *)
Variable trim : string -> string.
Variable Number : string -> number.

(** [parseCsvIndices(s)]; [None] is the [null] of a flag that is absent. *)
Definition parseCsvIndices (s : option string) : list number :=
  match s with
  | None => []
  | Some s =>
      if String.eqb s "" then []
      else
        List.filter (fun n => isFinite n && geZ n 1)
          (List.map Number
            (List.filter (fun x => negb (String.eqb x ""))
              (List.map trim (split ","%char s))))
  end.

Definition parseSelections (args : list string) : selections :=
  {| soldiersIdx := parseCsvIndices (getFlagValue args "--soldiers");
     commandIdx := parseCsvIndices (getFlagValue args "--command");
     congressIdx := parseCsvIndices (getFlagValue args "--congress");
     voicesIdx := parseCsvIndices (getFlagValue args "--voices") |}.

(** The date the run works on: [args[0]], or the result of --next-missing. *)
Definition target (args : list string) (fs : FS) : step string :=
  match args with
  | [] => Stop Usage
  | arg0 :: _ =>
      iso <- (if hasFlag args "--next-missing"
              then match findNextMissing fs with
                   | None => Stop Uncaught
                   | Some None => Stop NothingMissing
                   | Some (Some next) =>
                       if String.eqb next "" then Stop NothingMissing else Go next
                   end
              else Go arg0) ;;
      _ <- guard (isIsoDate iso) BadDate ;;
      Go iso
  end.

(** Up to and including the normalisation of the two objects read. *)
Definition load (args : list string) (fs : FS) : step (string * obj * obj) :=
  iso <- target args fs ;;
  _ <- guard (existsIn (intakeDir fs) (intakePath iso)) IntakeNotFound ;;
  _ <- guard (existsData fs (dataPath iso)) DataNotFound ;;
  match readJson (intakeDir fs) (intakePath iso),
        match dataDir fs with Some d => readJson d (dataPath iso) | None => None end with
  | Some intake, Some data => Go (iso, normalize intake, normalize data)
  | _, _ => Stop Uncaught
  end.

(** [listSection] reads [e.quote] of every candidate it prints; of a [null]
    candidate that is a [TypeError]. *)
Definition listSection (arr : list json) : bool :=
  forallb (fun e => match e with JNull => false | _ => true end) arr.

(** The listing of the four categories: completed, or ended by the
    exception. *)
Definition listAll (intake : obj) : outcome :=
  if forallb (fun k => listSection (entries intake k)) KEYS then Listed else Uncaught.

(** From the parsed selections to the record that would be written. *)
Definition merge (args : list string) (st : string * obj * obj) : step (string * obj * plan) :=
  let '(iso, intake, data) := st in
  _ <- guard (negb (hasFlag args "--list")) (listAll intake) ;;
  let sel := parseSelections args in
  _ <- guard (anySelection sel) NoSelections ;;
  let '(data, _, report) := promoteAll sel (hasFlag args "--overwrite") data intake in
  Go (iso, data, report).

(** The gate, the dry run and the write. *)
Definition finish (args : list string) (fs : FS) (st : string * obj * plan) : result :=
  let '(iso, data, report) := st in
  if (length (entries data SOLDIERS) =? 0)%nat
  then {| outcome_of := EmptySoldiers; fs_after := fs; writes := [] |}
  else if hasFlag args "--dry-run"
  then {| outcome_of := DryRun report; fs_after := fs; writes := [] |}
  else
    let data := obj_set data "date" (JStr iso) in
    match writeData fs (dataPath iso) data with
    | Some fs' =>
        {| outcome_of := Wrote report; fs_after := fs';
           writes := [(dataPath iso, data)] |}
    | None => {| outcome_of := Uncaught; fs_after := fs; writes := [] |}
    end.

Definition main (args : list string) (fs : FS) : result :=
  match (st <- load args fs ;; merge args st) with
  | Stop o => {| outcome_of := o; fs_after := fs; writes := [] |}
  | Go st => finish args fs st
  end.

End CommandLine.

End Promote.

(* ===================================================================== *)
(** ** SchemaMigrator: the migration script (second part of src/app/page.tsx) *)
(* ===================================================================== *)

Module Migrate.
Import Js Json Store.

Definition CONGRESS_OLD : string := "continental_congress".
Definition BATTLES : string := "battles".
Definition LETTERS : string := "letters_and_deeds".

Definition SOLDIERS : string := "soldiers_day".
Definition COMMAND : string := "men_of_command".
Definition CONGRESS : string := "continental_congress_committees".
Definition VOICES : string := "voices_beyond_the_line".

Definition OLD_KEYS : list string := [CONGRESS_OLD; BATTLES; LETTERS].
Definition NEW_KEYS : list string := [SOLDIERS; COMMAND; CONGRESS; VOICES].

(** [if (!Array.isArray(json[k])) json[k] = v]. *)
Definition setUnlessArray (doc : obj) (k : string) (v : list json) : obj :=
  if negb (isArray (obj_get doc k)) then obj_set doc k (JArr v) else doc.

(** [if (hasOwnProperty(doc, k)) delete json[k]]. *)
Definition deleteIfOwn (doc : obj) (k : string) : obj :=
  if hasOwnProperty doc k then obj_delete doc k else doc.

(** The date fix-up at the head of [migrateOne]. *)
Definition ensureDate (base : string) (doc : obj) : obj :=
  if negb (truthy (obj_get doc "date")) || negb (isString (obj_get doc "date"))
  then obj_set doc "date" (JStr base)
  else doc.

Definition alreadyNew (doc : obj) : bool :=
  forallb (fun k => hasOwnProperty doc k) NEW_KEYS &&
  forallb (fun k => negb (hasOwnProperty doc k)) OLD_KEYS.

(** The body of [if (!alreadyNew) { ... }]. *)
Definition mapOldToNew (doc : obj) : obj :=
  let oldLetters := arrayOr (obj_get doc LETTERS) in
  let oldBattles := arrayOr (obj_get doc BATTLES) in
  let oldCongress := arrayOr (obj_get doc CONGRESS_OLD) in
  let doc := setUnlessArray doc SOLDIERS (oldLetters ++ oldBattles)%list in
  let doc := setUnlessArray doc COMMAND [] in
  let doc := setUnlessArray doc CONGRESS oldCongress in
  let doc := setUnlessArray doc VOICES [] in
  fold_left deleteIfOwn OLD_KEYS doc.

(** What [migrateOne] does to the parsed object; the flag is [changed]. *)
Definition migrateObject (base : string) (doc : obj) : obj * bool :=
  let doc := ensureDate base doc in
  let new := alreadyNew doc in
  let doc := if negb new then mapOldToNew doc else doc in
  let doc := fold_left ensureArray NEW_KEYS doc in
  (doc, negb new).

(** The value [migrateOne] returns. *)
Inductive migrated : Type :=
| Failed                  (* { ok: false, reason: "invalid_json" } *)
| Migrated (changed : bool).

(** [migrateOne(filePath)] on a file of [data/]; [None] when
    [fs.readFileSync] throws because the file is not there. *)
Definition migrateOne (d : dir) (f : string) : option (migrated * dir * list (string * obj)) :=
  match d !! f with
  | None => None
  | Some (Corrupt _) => Some (Failed, d, [])
  | Some (Doc doc) =>
      let '(doc, changed) := migrateObject (basenameOfPath f ".json") doc in
      Some (Migrated changed, <[f := Doc doc]> d, [(f, doc)])
  end.

Record tally : Type := { ok : nat; changed : nat; bad : nat }.

Record state : Type := {
  files : dir;
  counts : tally;
  written : list (string * obj)
}.

(** One turn of the loop of [main]. *)
Definition visit (st : state) (f : string) : option state :=
  match migrateOne (files st) f with
  | None => None
  | Some (Failed, d, w) =>
      Some {| files := d;
              counts := {| ok := ok (counts st); changed := changed (counts st);
                           bad := S (bad (counts st)) |};
              written := (written st ++ w)%list |}
  | Some (Migrated c, d, w) =>
      Some {| files := d;
              counts := {| ok := S (ok (counts st));
                           changed := (if c then S (changed (counts st)) else changed (counts st));
                           bad := bad (counts st) |};
              written := (written st ++ w)%list |}
  end.

Fixpoint loop (names : list string) (st : state) : option state :=
  match names with
  | [] => Some st
  | f :: rest => match visit st f with Some st' => loop rest st' | None => None end
  end.

Record result : Type := {
  ending_of : ending;
  fs_after : FS;
  writes : list (string * obj);
  summary : option tally
}.

Definition main (fs : FS) : result :=
  match dataDir fs with
  | None => {| ending_of := Exited 1; fs_after := fs; writes := []; summary := None |}
  | Some d =>
      let names := List.filter isJsonName (readdirSync d) in
      match loop names {| files := d; counts := {| ok := 0; changed := 0; bad := 0 |};
                          written := [] |} with
      | None => {| ending_of := Threw; fs_after := fs; writes := []; summary := None |}
      | Some st =>
          {| ending_of := (if (0 <? bad (counts st))%nat then Exited 2 else Returned);
             fs_after := {| dataDir := Some (files st); intakeDir := intakeDir fs |};
             writes := written st;
             summary := Some (counts st) |}
      end
  end.

End Migrate.

(* ===================================================================== *)
(** ** AuditEngine: src/scripts/audit-data.mjs *)
(* ===================================================================== *)

Module Audit.
Import Js Json Store.

Definition SOLDIERS : string := "soldiers_day".

Definition CAPS : list (string * nat) :=
  [(SOLDIERS, 3%nat); ("men_of_command", 2%nat);
   ("continental_congress_committees", 2%nat); ("voices_beyond_the_line", 2%nat)].

(** The counters and the lists behind the printed lines: each line is kept
    as the values it is formatted from. *)
Record report : Type := {
  parseFailures : nat;
  missingSoldiers : nat;
  overCaps : nat;
  missingKeys : nat;
  missingSoldiersDates : list string;
  overCapLines : list (string * string * nat * nat);
  missingKeysLines : list (string * string);
  parseFailLines : list string
}.

Definition start : report :=
  {| parseFailures := 0; missingSoldiers := 0; overCaps := 0; missingKeys := 0;
     missingSoldiersDates := []; overCapLines := []; missingKeysLines := [];
     parseFailLines := [] |}.

Definition noteParseFailure (iso : string) (r : report) : report :=
  {| parseFailures := S (parseFailures r); missingSoldiers := missingSoldiers r;
     overCaps := overCaps r; missingKeys := missingKeys r;
     missingSoldiersDates := missingSoldiersDates r; overCapLines := overCapLines r;
     missingKeysLines := missingKeysLines r;
     parseFailLines := (parseFailLines r ++ [iso])%list |}.

Definition noteMissingKey (iso key : string) (r : report) : report :=
  {| parseFailures := parseFailures r; missingSoldiers := missingSoldiers r;
     overCaps := overCaps r; missingKeys := S (missingKeys r);
     missingSoldiersDates := missingSoldiersDates r; overCapLines := overCapLines r;
     missingKeysLines := (missingKeysLines r ++ [(iso, key)])%list;
     parseFailLines := parseFailLines r |}.

Definition noteMissingSoldiers (iso : string) (r : report) : report :=
  {| parseFailures := parseFailures r; missingSoldiers := S (missingSoldiers r);
     overCaps := overCaps r; missingKeys := missingKeys r;
     missingSoldiersDates := (missingSoldiersDates r ++ [iso])%list;
     overCapLines := overCapLines r; missingKeysLines := missingKeysLines r;
     parseFailLines := parseFailLines r |}.

Definition noteOverCap (iso key : string) (len cap : nat) (r : report) : report :=
  {| parseFailures := parseFailures r; missingSoldiers := missingSoldiers r;
     overCaps := S (overCaps r); missingKeys := missingKeys r;
     missingSoldiersDates := missingSoldiersDates r;
     overCapLines := (overCapLines r ++ [(iso, key, len, cap)])%list;
     missingKeysLines := missingKeysLines r; parseFailLines := parseFailLines r |}.

(** The first inner loop: required keys exist and are arrays. *)
Definition checkKey (iso : string) (doc : obj) (r : report) (key : string) : report :=
  if negb (hasOwnProperty doc key) || negb (isArray (obj_get doc key))
  then noteMissingKey iso key r
  else r.

(** The last inner loop: no section above its cap. *)
Definition checkCap (iso : string) (doc : obj) (r : report) (kc : string * nat) : report :=
  let '(key, cap) := kc in
  let arr := arrayOr (obj_get doc key) in
  if (cap <? length arr)%nat then noteOverCap iso key (length arr) cap r else r.

(** The body of the loop over the files of [data/]. *)
Definition auditFile (d : dir) (r : report) (f : string) : report :=
  let iso := basename f ".json" in
  match readJson d f with
  | None => noteParseFailure iso r
  | Some doc =>
      let r := fold_left (checkKey iso doc) (CAPS.*1) r in
      let soldiers := arrayOr (obj_get doc SOLDIERS) in
      let r := if (length soldiers =? 0)%nat then noteMissingSoldiers iso r else r in
      fold_left (checkCap iso doc) CAPS r
  end.

Definition violations (r : report) : nat :=
  (parseFailures r + missingKeys r + missingSoldiers r + overCaps r)%nat.

Record result : Type := {
  ending_of : ending;
  fs_after : FS;
  writes : list (string * obj);
  total : nat;
  printed : option report
}.

Definition main (fs : FS) : result :=
  match dataDir fs with
  | None => {| ending_of := Exited 2; fs_after := fs; writes := []; total := 0;
               printed := None |}
  | Some d =>
      let files := jsonFiles d in
      let r := fold_left (auditFile d) files start in
      {| ending_of := Exited (if (violations r =? 0)%nat then 0 else 1);
         fs_after := fs; writes := []; total := length files; printed := Some r |}
  end.

End Audit.

(* ===================================================================== *)
(** ** ScaffoldGenerator: the generate-days script (src/unnamed/part_001) *)
(* ===================================================================== *)

Module Scaffold.
Import Js Json Store.

Definition PROJECT_START : string := "1775-07-04".
Definition PROJECT_END : string := "1776-07-04".

Definition pad2 (n : Z) : string := padStart2 (String_of n).

(** A [Date] at midnight UTC is the number of its day, counted from
    1970-01-01; the script builds no other dates.  [dayFromCivil] and
    [civilFromDay] are the proleptic Gregorian conversions behind
    [Date.UTC] and the [getUTC...] readers (months counted from 1). *)
Definition dayFromCivil (y m d : Z) : Z :=
  let y := if m <=? 2 then y - 1 else y in
  let era := y / 400 in
  let yoe := y - era * 400 in
  let doy := (153 * (if 2 <? m then m - 3 else m + 9) + 2) / 5 + d - 1 in
  let doe := yoe * 365 + yoe / 4 - yoe / 100 + doy in
  era * 146097 + doe - 719468.

Definition civilFromDay (z : Z) : Z * Z * Z :=
  let z := z + 719468 in
  let era := z / 146097 in
  let doe := z - era * 146097 in
  let yoe := (doe - doe / 1460 + doe / 36524 - doe / 146096) / 365 in
  let y := yoe + era * 400 in
  let doy := doe - (365 * yoe + yoe / 4 - yoe / 100) in
  let mp := (5 * doy + 2) / 153 in
  let d := doy - (153 * mp + 2) / 5 + 1 in
  let m := if mp <? 10 then mp + 3 else mp - 9 in
  ((if m <=? 2 then y + 1 else y), m, d).

(** [MakeDay(year, monthIndex, day)], the day behind [Date.UTC] and
    [setUTCDate]: fields out of range carry. *)
Definition DateUTC (year monthIndex day : Z) : Z :=
  dayFromCivil (year + monthIndex / 12) (monthIndex mod 12 + 1) 1 + day - 1.

(** [MakeFullYear] of [Date.UTC]: the years 0 to 99 count from 1900. *)
Definition MakeFullYear (y : Z) : Z :=
  if (0 <=? y) && (y <=? 99) then 1900 + y else y.

Definition getUTCFullYear (dt : Z) : Z := (civilFromDay dt).1.1.
Definition getUTCMonth (dt : Z) : Z := (civilFromDay dt).1.2 - 1.
Definition getUTCDate (dt : Z) : Z := (civilFromDay dt).2.

Definition parseIso (iso : string) : Z :=
  match List.map Number_of_digits (split "-"%char iso) with
  | y :: m :: d :: _ => DateUTC (MakeFullYear y) (m - 1) d
  | _ => 0
  end.

Definition toIso (dt : Z) : string :=
  let y := getUTCFullYear dt in
  let m := pad2 (getUTCMonth dt + 1) in
  let d := pad2 (getUTCDate dt) in
  String_of y ++ "-" ++ m ++ "-" ++ d.

(** [copy.setUTCDate(copy.getUTCDate() + n)] on a copy of [dt]. *)
Definition addDays (dt n : Z) : Z :=
  DateUTC (getUTCFullYear dt) (getUTCMonth dt) (getUTCDate dt + n).

Definition emptyDay (iso : string) : obj :=
  [("date", JStr iso);
   ("continental_congress", JArr []);
   ("battles", JArr []);
   ("letters_and_deeds", JArr [])].

Record state : Type := {
  files : dir;
  created : nat;
  skipped : nat;
  written : list (string * obj)
}.

(** The body of the [for] loop for the date [dt]. *)
Definition visit (st : state) (dt : Z) : state :=
  let iso := toIso dt in
  let filePath := dataPath iso in
  if existsIn (files st) filePath
  then {| files := files st; created := created st; skipped := S (skipped st);
          written := written st |}
  else {| files := <[filePath := Doc (emptyDay iso)]> (files st);
          created := S (created st); skipped := skipped st;
          written := (written st ++ [(filePath, emptyDay iso)])%list |}.

(** [for (let dt = start; dt <= end; dt = addDays(dt, 1))], with a bound on
    the number of turns; [None] when the bound is used up. *)
Fixpoint loop (fuel : nat) (dt last : Z) (st : state) : option state :=
  if dt <=? last then
    match fuel with
    | O => None
    | S fuel' => loop fuel' (addDays dt 1) last (visit st dt)
    end
  else Some st.

(** The dates the loop visits, by the same recursion. *)
Fixpoint visited (fuel : nat) (dt last : Z) : option (list Z) :=
  if dt <=? last then
    match fuel with
    | O => None
    | S fuel' => cons dt <$> visited fuel' (addDays dt 1) last
    end
  else Some [].

Record result : Type := {
  ending_of : ending;
  fs_after : FS;
  writes : list (string * obj);
  createdCount : nat;
  skippedCount : nat
}.

(** The script; [fs.mkdirSync(dataDir, { recursive: true })] makes an absent
    [data/] an empty one.  [fuel] bounds the turns of the loop. *)
Definition run (fuel : nat) (fs : FS) : option result :=
  let d := match dataDir fs with Some d => d | None => ∅ end in
  st ← loop fuel (parseIso PROJECT_START) (parseIso PROJECT_END)
         {| files := d; created := 0; skipped := 0; written := [] |} ;
  Some {| ending_of := Returned;
          fs_after := {| dataDir := Some (files st); intakeDir := intakeDir fs |};
          writes := written st;
          createdCount := created st; skippedCount := skipped st |}.

End Scaffold.

(* ===================================================================== *)
(** ** Sample worlds for the worked examples *)
(* ===================================================================== *)

Module Samples.
Import Js Json Store.

(** The tokens of the examples carry no blanks. *)
Definition trim (s : string) : string := s.

Definition allDigits (s : string) : bool :=
  negb (String.eqb s "") && forallb Promote.isDigit (list_ascii_of_string s).

(** [Number] on the tokens of the examples: a string of digits is its
    value, ["1.5"] is three halves, a word is [NaN]. *)
Definition Number (s : string) : Promote.number :=
  if String.eqb s "1.5" then Promote.Finite (3 # 2)
  else if allDigits s then Promote.Finite (inject_Z (Number_of_digits s))
  else Promote.NaN.

Definition day : string := "1775-07-04".

(** A record as the current schema has it, nothing curated yet. *)
Definition blank : obj :=
  [("date", JStr day); ("soldiers_day", JArr []); ("men_of_command", JArr []);
   ("continental_congress_committees", JArr []); ("voices_beyond_the_line", JArr [])].

(** A candidate pool with two primary candidates and one for command. *)
Definition pool : obj :=
  [("date", JStr day);
   ("soldiers_day", JArr [JStr "muster roll"; JStr "orderly book"]);
   ("men_of_command", JArr [JStr "general orders"]);
   ("continental_congress_committees", JArr []);
   ("voices_beyond_the_line", JArr [])].

(** A record whose primary category holds four entries, one above its cap,
    as the migration of a legacy record with two deeds and two battles
    leaves it. *)
Definition crowded : obj :=
  [("date", JStr day);
   ("soldiers_day", JArr [JStr "deed 1"; JStr "deed 2"; JStr "battle 1"; JStr "battle 2"]);
   ("men_of_command", JArr []);
   ("continental_congress_committees", JArr []);
   ("voices_beyond_the_line", JArr [])].

(** [crowded] after [--command 1] in append mode. *)
Definition crowdedPromoted : obj :=
  [("date", JStr day);
   ("soldiers_day", JArr [JStr "deed 1"; JStr "deed 2"; JStr "battle 1"; JStr "battle 2"]);
   ("men_of_command", JArr [JStr "general orders"]);
   ("continental_congress_committees", JArr []);
   ("voices_beyond_the_line", JArr [])].

(** A record with one primary entry already curated. *)
Definition curated : obj :=
  [("date", JStr day); ("soldiers_day", JArr [JStr "camp diary"]);
   ("men_of_command", JArr []);
   ("continental_congress_committees", JArr []); ("voices_beyond_the_line", JArr [])].

(** A record of the legacy shape. *)
Definition legacyDay : obj :=
  [("date", JStr day);
   ("continental_congress", JArr [JStr "resolve of congress"]);
   ("battles", JArr [JStr "skirmish"]);
   ("letters_and_deeds", JArr [JStr "letter home"; JStr "deed of sale"])].

(** [legacyDay], migrated. *)
Definition legacyDayMigrated : obj :=
  [("date", JStr day);
   ("soldiers_day", JArr [JStr "letter home"; JStr "deed of sale"; JStr "skirmish"]);
   ("men_of_command", JArr []);
   ("continental_congress_committees", JArr [JStr "resolve of congress"]);
   ("voices_beyond_the_line", JArr [])].

(** A record in between: the primary category is there already, and so
    are two legacy categories. *)
Definition halfMigrated : obj :=
  [("date", JStr day);
   ("soldiers_day", JArr [JStr "camp diary"]);
   ("continental_congress", JArr [JStr "resolve of congress"]);
   ("battles", JArr [JStr "skirmish"])].

(** [halfMigrated], migrated. *)
Definition halfMigratedAfter : obj :=
  [("date", JStr day);
   ("soldiers_day", JArr [JStr "camp diary"]);
   ("men_of_command", JArr []);
   ("continental_congress_committees", JArr [JStr "resolve of congress"]);
   ("voices_beyond_the_line", JArr [])].

(** Three days of the store: the second one curated, the others blank. *)
Definition threeDays : FS :=
  {| dataDir := Some (<["1775-07-06.json" := Doc blank]>
                     (<["1775-07-05.json" := Doc curated]>
                        {[ "1775-07-04.json" := Doc blank ]}));
     intakeDir := ∅ |}.

Definition world (rec : obj) : FS :=
  {| dataDir := Some {[ dataPath day := Doc rec ]};
     intakeDir := {[ intakePath day := Doc pool ]} |}.

End Samples.

(* ===================================================================== *)
(** ** The pages: src/lib/calendar.ts, DateJump (src/unnamed/part_000) and
       DayPage (src/unnamed/part_001) *)
(* ===================================================================== *)

Module Pages.
Import Js Json Store Calendar.

(** What [loadDayData] comes back with: [null], the parsed record, or the
    exception of [JSON.parse]. *)
Inductive loaded : Type :=
| NoFile
| ParseError
| Loaded (o : obj).

Definition loadDayData (fs : FS) (isoDate : string) : loaded :=
  let filePath := dataPath isoDate in
  if negb (existsData fs filePath) then NoFile
  else match readJson (default ∅ (dataDir fs)) filePath with
       | Some o => Loaded o
       | None => ParseError
       end.

(** A destructured element [parts[i]] inside a template literal: a missing
    one prints as [undefined]. *)
Definition printed (parts : list string) (i : nat) : string :=
  nth i parts "undefined".

Definition isoToRoute (isoDate : string) : string :=
  let parts := split "-"%char isoDate in
  "/" ++ printed parts 0 ++ "/" ++ printed parts 1 ++ "/" ++ printed parts 2.

(** [ToIntegerOrInfinity] of a finite number: the fraction is cut off. *)
Definition truncate (q : Q) : Z := Z.quot (Qnum q) (Zpos (Qden q)).

(** [TimeClip], in days: a time value lies within 10^8 days of the epoch;
    [None] is the time value [NaN] of an invalid date. *)
Definition TimeClip (day : Z) : option Z :=
  if Z.abs day <=? 100000000 then Some day else None.

(** [Date.UTC(y, m, d)] for numbers, after ECMAScript's [MakeDay]. *)
Definition DateUTC (y m d : Promote.number) : option Z :=
  match y, m, d with
  | Promote.Finite y, Promote.Finite m, Promote.Finite d =>
      TimeClip (Scaffold.DateUTC (Scaffold.MakeFullYear (truncate y)) (truncate m)
                  (truncate d))
  | _, _, _ => None
  end.

(** [dt.setUTCDate(date)] on a valid date. *)
Definition setUTCDate (dt date : Z) : option Z :=
  TimeClip (Scaffold.DateUTC (Scaffold.getUTCFullYear dt) (Scaffold.getUTCMonth dt) date).

(** What the template of [addDays] prints for an invalid date: every
    reader returns [NaN]. *)
Definition invalidDate : string := "NaN-NaN-NaN".

(** The caps the sections of [DayPage] are rendered with. *)
Definition sectionCaps : list (string * nat) :=
  [("soldiers_day", 3%nat); ("men_of_command", 2%nat);
   ("continental_congress_committees", 2%nat); ("voices_beyond_the_line", 2%nat)].

(** [clampEntries(items, cap)]. *)
Definition clampEntries (items : option json) (cap : nat) : list json :=
  if negb (truthy items) || negb (isArray items) then []
  else firstn cap (arrayOr items).

(** [data?.[key] ?? []]: the property, or an empty array when the record
    or the property is missing or [null]. *)
Definition fieldOrEmpty (data : option obj) (key : string) : option json :=
  match data with
  | None => Some (JArr [])
  | Some o =>
      match obj_get o key with
      | None | Some JNull => Some (JArr [])
      | Some v => Some v
      end
  end.

(** The entries [Section] renders for [key]. *)
Definition shown (data : option obj) (key : string) (cap : nat) : list json :=
  clampEntries (fieldOrEmpty data key) cap.

Section Builtins.

Variable trim : string -> string.
Variable Number : string -> Promote.number.

(** [Number] of a destructured element: a missing one is [undefined]. *)
Definition numberAt (parts : list string) (i : nat) : Promote.number :=
  match nth_error parts i with
  | Some s => Number s
  | None => Promote.NaN
  end.

(** [addDays] of calendar.ts; the pages pass [-1] and [+1]. *)
Definition addDays (isoDate : string) (deltaDays : Z) : string :=
  let parts := split "-"%char isoDate in
  let y := numberAt parts 0 in
  let m := numberAt parts 1 in
  let d := numberAt parts 2 in
  match DateUTC y (Promote.minus1 m) d with
  | None => invalidDate
  | Some dt =>
      match setUTCDate dt (Scaffold.getUTCDate dt + deltaDays) with
      | None => invalidDate
      | Some dt' =>
          String_of (Scaffold.getUTCFullYear dt') ++ "-"
          ++ pad2 (Scaffold.getUTCMonth dt' + 1) ++ "-"
          ++ pad2 (Scaffold.getUTCDate dt')
      end
  end.

(** What [go] of DateJump does with the text of the input field. *)
Inductive jump : Type :=
| BadFormat              (* "Use YYYY-MM-DD." *)
| OutOfRange             (* "Out of range. Use {min} to {max}." *)
| Push (route : string). (* router.push(route) *)

Definition go (min max value : string) : jump :=
  let v := trim value in
  if negb (Promote.isIsoDate v) then BadFormat
  else if String.ltb v min || String.ltb max v then OutOfRange
  else Push (isoToRoute v).

(** [formatIsoHuman] of calendar.ts, as the date it hands to
    [Intl.DateTimeFormat]: [format] throws a [RangeError] on an invalid
    date, [None] here; the text it prints for a valid one is left out. *)
Definition formatIsoHuman (isoDate : string) : option Z :=
  let parts := split "-"%char isoDate in
  let y := numberAt parts 0 in
  let m := numberAt parts 1 in
  let d := numberAt parts 2 in
  DateUTC y (Promote.minus1 m) d.

(** What [DayPage] renders: the out-of-range notice with its link, or the
    day with the targets of Previous and Next ([None] where the control is
    disabled) and the record, [None] for a missing file.  [RenderError] is
    an exception on the way: that of [loadDayData], or that of
    [formatIsoHuman] in the header. *)
Inductive page : Type :=
| OutOfRangePage (href : string)
| RenderError
| Day (previous next : option string) (data : option obj).

Definition DayPage (fs : FS) (year month day : string) : page :=
  let iso := year ++ "-" ++ month ++ "-" ++ day in
  let clamped := clampToProject iso in
  if negb (String.eqb clamped iso) then OutOfRangePage (isoToRoute clamped)
  else
    match loadDayData fs iso with
    | ParseError => RenderError
    | data =>
        let prevIso := clampToProject (addDays iso (-1)) in
        let nextIso := clampToProject (addDays iso 1) in
        let prevDisabled := String.eqb iso PROJECT_START in
        let nextDisabled := String.eqb iso PROJECT_END in
        match formatIsoHuman iso with
        | None => RenderError
        | Some _ =>
            Day (if prevDisabled then None else Some (isoToRoute prevIso))
                (if nextDisabled then None else Some (isoToRoute nextIso))
                (match data with Loaded o => Some o | _ => None end)
        end
    end.

End Builtins.

(** [Home]: the address it looks up first, and
    [loadDayData(mapped) ?? loadDayData(PROJECT_START)]. *)
Definition homeAddress (now : Date) : string := clampToProject (todayMappedIso now).

Definition homeData (fs : FS) (now : Date) : loaded :=
  match loadDayData fs (homeAddress now) with
  | NoFile => loadDayData fs PROJECT_START
  | l => l
  end.

End Pages.

(* ===================================================================== *)
(** ** IntakeSeeder: the seed-intake script (src/unnamed/part_001) *)
(* ===================================================================== *)

Module Seed.
Import Js Json Store.

Definition KEYS : list string :=
  ["soldiers_day"; "men_of_command"; "continental_congress_committees";
   "voices_beyond_the_line"].

(** The body of the loop of [findEarliestMissingSoldiers] for one file
    name: [Some iso] when the loop returns there.  The status tool of
    src/lib/calendar.ts carries the same function. *)
Definition earliestAt (d : dir) (f : string) : option string :=
  let iso := basename f ".json" in
  match readJson d f with
  | Some data =>
      if (length (arrayOr (obj_get data "soldiers_day")) =? 0)%nat then Some iso else None
  | None => None          (* catch: continue *)
  end.

(** [findEarliestMissingSoldiers()]; [None] is [null]. *)
Definition findEarliestMissingSoldiers (fs : FS) : option string :=
  match dataDir fs with
  | None => None
  | Some d => Promote.firstSome (earliestAt d) (jsonFiles d)
  end.

Definition emptyIntake (iso : string) : obj :=
  [("date", JStr iso);
   ("soldiers_day", JArr []);
   ("men_of_command", JArr []);
   ("continental_congress_committees", JArr []);
   ("voices_beyond_the_line", JArr [])].

(** One turn of the loop under [--from-data]. *)
Definition copyKey (data payload : obj) (k : string) : obj :=
  ensureArray (obj_set payload k (JArr (arrayOr (obj_get data k)))) k.

(** The ways a run of the script ends. *)
Inductive outcome : Type :=
| Usage                       (* no arguments: usage(), exit 2 *)
| NothingToBackfill           (* --backfill found no date: exit 0 *)
| BadDate                     (* "date must be YYYY-MM-DD": exit 2 *)
| BadComputedDate             (* "computed date is invalid": exit 2 *)
| AlreadyThere (iso : string) (* "Intake already exists (no overwrite)": exit 0 *)
| DataNotFound                (* "--from-data requested but data file not found": exit 2 *)
| Uncaught                    (* an exception escaped main *)
| Seeded (iso : string).      (* "Wrote intake": main returns *)

Definition ending_of (o : outcome) : ending :=
  match o with
  | Usage | BadDate | BadComputedDate | DataNotFound => Exited 2
  | NothingToBackfill | AlreadyThere _ => Exited 0
  | Uncaught => Threw
  | Seeded _ => Returned
  end.

(** What a run leaves: the file system, the files written, and the path
    handed to the editor, if any. *)
Record result : Type := {
  outcome_of : outcome;
  fs_after : FS;
  writes : list (string * obj);
  opened : option string
}.

Definition stop (o : outcome) (fs : FS) : result :=
  {| outcome_of := o; fs_after := fs; writes := []; opened := None |}.

(** The last test before the paths are built. *)
Definition checked (iso : string) : outcome + string :=
  if Promote.isIsoDate iso then inr iso else inl BadComputedDate.

(** The date the run works on; [nyMonth] and [nyDay] are the calendar date
    of New York that [--publish] reads off the clock. *)
Definition target (nyMonth nyDay : Z) (args : list string) (fs : FS) : outcome + string :=
  match args with
  | [] => inl Usage
  | arg0 :: _ =>
      if Promote.hasFlag args "--publish"
      then checked (Calendar.publishIsoTodayMapped nyMonth nyDay)
      else if Promote.hasFlag args "--backfill"
      then match findEarliestMissingSoldiers fs with
           | None => inl NothingToBackfill
           | Some next => if String.eqb next "" then inl NothingToBackfill else checked next
           end
      else if Promote.isIsoDate arg0 then checked arg0 else inl BadDate
  end.

(** The payload before the last normalisation. *)
Definition initial (args : list string) (fs : FS) (iso : string) : outcome + obj :=
  let payload := emptyIntake iso in
  if Promote.hasFlag args "--from-data" then
    if negb (existsData fs (dataPath iso)) then inl DataNotFound
    else match readJson (default ∅ (dataDir fs)) (dataPath iso) with
         | None => inl Uncaught
         | Some data =>
             inr (fold_left (copyKey data) KEYS (obj_set payload "date" (JStr iso)))
         end
  else inr payload.

Definition main (nyMonth nyDay : Z) (args : list string) (fs : FS) : result :=
  match target nyMonth nyDay args fs with
  | inl o => stop o fs
  | inr iso =>
      let overwrite := Promote.hasFlag args "--overwrite" in
      let openAfter := Promote.hasFlag args "--open" in
      let printOnly := Promote.hasFlag args "--print" in
      if existsIn (intakeDir fs) (intakePath iso) && negb overwrite
      then {| outcome_of := AlreadyThere iso; fs_after := fs; writes := [];
              opened := if printOnly then None
                        else if openAfter then Some (intakePath iso) else None |}
      else
        match initial args fs iso with
        | inl o => stop o fs
        | inr payload =>
            let payload := fold_left ensureArray KEYS (obj_set payload "date" (JStr iso)) in
            {| outcome_of := Seeded iso;
               fs_after := {| dataDir := dataDir fs;
                              intakeDir := <[intakePath iso := Doc payload]> (intakeDir fs) |};
               writes := [(intakePath iso, payload)];
               opened := if openAfter then Some (intakePath iso) else None |}
        end
  end.

End Seed.

(* ===================================================================== *)
(** ** What the pages render: DayPage (src/unnamed/part_001) and the
       legacy DayPage (end of src/scripts/promote-intake.mjs) *)
(* ===================================================================== *)

Module Render.
Import Js Json Store Pages.

(** [v.length === 0] for the value of [data?.soldiers_day ?? []], which is
    never [null]. *)
Definition lengthIsZero (v : json) : bool :=
  match v with
  | JArr items => (length items =? 0)%nat
  | JStr s => (String.length s =? 0)%nat
  | JObj fields =>
      match obj_get fields "length" with Some (JNum q) => Qeq_bool q 0 | _ => false end
  | _ => false
  end.

(** [Boolean(data) && soldiers.length === 0] of [DayPage]. *)
Definition soldiersMissing (data : option obj) : bool :=
  match data with
  | None => false
  | Some _ =>
      match fieldOrEmpty data "soldiers_day" with
      | Some v => lengthIsZero v
      | None => false
      end
  end.

(** [entry[k]] for one of the keys an entry is read at, none of which is a
    property of a string, a number, a boolean or an array.  The outer
    [None] is the [TypeError] of reading a property of [null]; the inner
    one is [undefined]. *)
Definition property (entry : json) (k : string) : option (option json) :=
  match entry with
  | JNull => None
  | JObj fields => Some (obj_get fields k)
  | _ => Some None
  end.

(** A value React accepts as a child: anything but an object. *)
Fixpoint child (v : json) : bool :=
  match v with
  | JObj _ => false
  | JArr items => forallb child items
  | _ => true
  end.

Definition childOrNothing (v : option json) : bool :=
  match v with Some v => child v | None => true end.

(** An item of the legacy page renders unless it is [null] or its title or
    summary is an object. *)
Definition legacyItem (item : json) : bool :=
  match property item "title", property item "summary" with
  | Some title, Some summary => childOrNothing title && childOrNothing summary
  | _, _ => false
  end.

(** [items.map(...)] of the legacy [Section]: [None] is the [TypeError] of
    a value that is no array, or of an item that does not render. *)
Definition legacySection (items : option json) : option (list json) :=
  match items with
  | Some (JArr l) => if forallb legacyItem l then Some l else None
  | _ => None
  end.

(** What the legacy [DayPage] renders. *)
Inductive legacyPage : Type :=
| NoEntry                 (* "No entry found for ..." *)
| LegacyError             (* an exception while rendering *)
| LegacyDay (congress battles letters : list json).

Definition legacyDayPage (fs : FS) (year month day : string) : legacyPage :=
  match loadDayData fs (year ++ "-" ++ month ++ "-" ++ day) with
  | NoFile => NoEntry
  | ParseError => LegacyError
  | Loaded data =>
      match legacySection (obj_get data "continental_congress"),
            legacySection (obj_get data "battles"),
            legacySection (obj_get data "letters_and_deeds") with
      | Some congress, Some battles, Some letters => LegacyDay congress battles letters
      | _, _, _ => LegacyError
      end
  end.

Section Builtins.

Variable trim : string -> string.

(** [x?.trim()]: the outer [None] is the [TypeError] of a value without
    [trim], the inner one is [undefined]. *)
Definition trimmed (x : option json) : option (option string) :=
  match x with
  | None | Some JNull => Some None
  | Some (JStr s) => Some (Some (trim s))
  | Some _ => None
  end.

(** [entry.quote?.trim() || entry.title?.trim() || ""] of [EntryBlock];
    [None] is a [TypeError]. *)
Definition headline (entry : json) : option string :=
  match property entry "quote" with
  | None => None
  | Some quote =>
      match trimmed quote with
      | None => None
      | Some q =>
          if match q with Some s => negb (String.eqb s "") | None => false end
          then q
          else
            match property entry "title" with
            | None => None
            | Some title =>
                match trimmed title with
                | None => None
                | Some t =>
                    if match t with Some s => negb (String.eqb s "") | None => false end
                    then t
                    else Some ""
                end
            end
      end
  end.

End Builtins.

End Render.

(* ===================================================================== *)
(** * What the properties are stated with *)
(* ===================================================================== *)

(** The definitions below are no part of the scripts: they say, in the
    words of the specification, what the scripts are compared with. *)

Module PromoteSpec.
Import Js Json Store Promote.

(** The number [n] is the integer [z]. *)
Definition denotes (n : number) (z : Z) : Prop :=
  match n with Finite q => (q == inject_Z z)%Q | _ => False end.

(** The specification's steps 1 and 2: the candidates at the 1-based
    positions [zs], in the order supplied, positions outside
    [1 .. length] dropped. *)
Definition resolved (candidates : list json) (zs : list Z) : list json :=
  flat_map
    (fun z => if (1 <=? z) && (z <=? Z.of_nat (length candidates))
              then [nth (Z.to_nat (z - 1)) candidates JNull]
              else [])
    zs.

(** The specification's steps 3 to 5. *)
Definition promoted (cap : nat) (overwrite : bool) (current candidates : list json)
    (zs : list Z) : list json :=
  firstn cap ((if overwrite then [] else current) ++ resolved candidates zs)%list.

(** What one promotion leaves under [key]. *)
Definition promotedEntries (data intake : obj) (key : string) (indices : list number)
    (overwrite : bool) : list json :=
  slice0 ((if overwrite then [] else entries data key)
          ++ pickLoop (entries intake key) indices [])%list
         (lookupCap CAPS key).

Definition dataOf (st : obj * obj * plan) : obj := st.1.1.
Definition intakeOf (st : obj * obj * plan) : obj := st.1.2.

(** The index list [main] passes for a category. *)
Definition indicesFor (s : selections) (key : string) : list number :=
  if String.eqb key SOLDIERS then soldiersIdx s
  else if String.eqb key COMMAND then commandIdx s
  else if String.eqb key CONGRESS then congressIdx s
  else if String.eqb key VOICES then voicesIdx s
  else [].

(** Every category of the record is within its cap. *)
Definition within_caps (o : obj) : Prop :=
  forall key cap, lookupCap CAPS key = Some cap -> (length (entries o key) <= cap)%nat.

(** Every record of [data/] is within the caps. *)
Definition store_within_caps (fs : FS) : Prop :=
  forall d name rec,
    dataDir fs = Some d -> d !! name = Some (Doc rec) -> within_caps rec.

(** A token that is no number, or a number below 1. *)
Definition unusable (n : number) : Prop := n = NaN \/ ltZ n 1 = true.

Section Runs.

Variable trim : string -> string.
Variable Number : string -> number.

(** The record a run hands to the gate, for the stored record [rec] and the
    stored candidate pool [pool]. *)
Definition mergedRecord (args : list string) (rec pool : obj) : obj :=
  dataOf (promoteAll (parseSelections trim Number args) (hasFlag args "--overwrite")
            (normalize rec) (normalize pool)).

(** A sequence of promotions: each invocation comes with the candidate
    pools it finds in [intake/]. *)
Definition promoteStep (fs : FS) (inv : dir * list string) : FS :=
  fs_after (main trim Number inv.2 {| dataDir := dataDir fs; intakeDir := inv.1 |}).

Definition promoteSequence (invs : list (dir * list string)) (fs : FS) : FS :=
  fold_left promoteStep invs fs.

(** The tokens [parseCsvIndices] converts: the pieces between the commas,
    trimmed, the empty ones dropped. *)
Definition tokens (s : string) : list string :=
  List.filter (fun x => negb (String.eqb x "")) (List.map trim (split ","%char s)).

(** The tokens supplied with a flag. *)
Definition flagTokens (args : list string) (flag : string) : list string :=
  match getFlagValue args flag with
  | Some s => if String.eqb s "" then [] else tokens s
  | None => []
  end.

End Runs.

End PromoteSpec.

Module MigrateSpec.
Import Js Json Store Migrate.

(** The date a migrated record carries: its own when that is a non-empty
    string, the file's base name otherwise. *)
Definition dateOf (base : string) (doc : obj) : string :=
  match obj_get doc "date" with
  | Some (JStr s) => if String.eqb s "" then base else s
  | _ => base
  end.

(** What the migration makes of a file. *)
Definition migrateFile (f : string) (x : file) : file :=
  match x with
  | Corrupt raw => Corrupt raw
  | Doc doc => Doc (migrateObject (basenameOfPath f ".json") doc).1
  end.

(** What a whole run makes of [data/]. *)
Definition migrateDir (d : dir) : dir :=
  map_imap (fun f x => Some (if isJsonName f then migrateFile f x else x)) d.

(** A record of the legacy shape: the three legacy categories are
    sequences and none of the current category keys is there. *)
Definition legacy_shape (doc : obj) (congress battles deeds : list json) : Prop :=
  obj_get doc CONGRESS_OLD = Some (JArr congress) /\
  obj_get doc BATTLES = Some (JArr battles) /\
  obj_get doc LETTERS = Some (JArr deeds) /\
  forall k, In k NEW_KEYS -> obj_get doc k = None.

End MigrateSpec.

Module AuditSpec.
Import Js Json Store Audit.

(** The four category fields and their caps as the specification gives
    them: the primary category takes at most three entries, each of the
    three secondary ones at most two. *)
Definition primaryCategory : string := "soldiers_day".

Definition categoryCaps : list (string * nat) :=
  [("soldiers_day", 3%nat); ("men_of_command", 2%nat);
   ("continental_congress_committees", 2%nat); ("voices_beyond_the_line", 2%nat)].

(** A record of the store: a file of [data/] named [{address}.json]. *)
Definition isRecord (d : dir) (f : string) : Prop :=
  (exists address, f = address ++ ".json") /\ is_Some (d !! f).

(** The key is missing from the record, or holds no sequence. *)
Definition badKey (doc : obj) (key : string) : bool :=
  negb (hasOwnProperty doc key) || negb (isArray (obj_get doc key)).

(** The category holds more entries than its cap. *)
Definition overCap (doc : obj) (kc : string * nat) : bool :=
  (kc.2 <? length (entries doc kc.1))%nat.

(** The violations of one file, class by class. *)
Definition parseFailuresAt (d : dir) (f : string) : nat :=
  match readJson d f with None => 1 | Some _ => 0 end.

Definition missingKeysAt (d : dir) (f : string) : nat :=
  match readJson d f with
  | None => 0
  | Some doc => length (List.filter (badKey doc) (categoryCaps.*1))
  end.

Definition missingSoldiersAt (d : dir) (f : string) : nat :=
  match readJson d f with
  | None => 0
  | Some doc => if (length (entries doc primaryCategory) =? 0)%nat then 1 else 0
  end.

Definition overCapsAt (d : dir) (f : string) : nat :=
  match readJson d f with
  | None => 0
  | Some doc => length (List.filter (overCap doc) categoryCaps)
  end.

(** The four conditions on one file of [data/]: it parses, each of the four
    category fields is present and holds a sequence, the primary category
    has an entry, and no category holds more entries than its cap. *)
Definition passes (d : dir) (f : string) : Prop :=
  exists doc,
    d !! f = Some (Doc doc) /\
    (forall key cap, In (key, cap) categoryCaps ->
                     exists items, obj_get doc key = Some (JArr items)) /\
    (1 <= length (entries doc primaryCategory))%nat /\
    (forall key cap, In (key, cap) categoryCaps -> (length (entries doc key) <= cap)%nat).

Definition sameCounts (r r' : report) (dp dk ds dc : nat) : Prop :=
  parseFailures r' = (parseFailures r + dp)%nat /\
  missingKeys r' = (missingKeys r + dk)%nat /\
  missingSoldiers r' = (missingSoldiers r + ds)%nat /\
  overCaps r' = (overCaps r + dc)%nat.

End AuditSpec.

Module ScaffoldSpec.
Import Js Json Store Scaffold.

(** What the loop does to [data/], for the addresses [isos] in order. *)
Definition scaffoldDir (isos : list string) (d : dir) : dir :=
  fold_left
    (fun d iso =>
       if existsIn d (dataPath iso) then d
       else <[dataPath iso := Doc (emptyDay iso)]> d)
    isos d.

(** The day numbers of the project range, first to last. *)
Definition projectDays : list Z := seqZ (-71038) 367.

(** The addresses of the project range. *)
Definition projectAddresses : list string := toIso <$> projectDays.

End ScaffoldSpec.

Module DateSpec.
Import Js Json Store Scaffold.

(** A day of a 400-year era as year of the era, month and day of month. *)
Definition civilOfDoe (doe : Z) : Z * Z * Z :=
  let yoe := (doe - doe / 1460 + doe / 36524 - doe / 146096) / 365 in
  let doy := doe - (365 * yoe + yoe / 4 - yoe / 100) in
  let mp := (5 * doy + 2) / 153 in
  let d := doy - (153 * mp + 2) / 5 + 1 in
  let m := if mp <? 10 then mp + 3 else mp - 9 in
  (yoe, m, d).

(** And back, for a year of the era that begins on the first of March. *)
Definition doeOfCivil (yoe m d : Z) : Z :=
  yoe * 365 + yoe / 4 - yoe / 100
  + ((153 * (if 2 <? m then m - 3 else m + 9) + 2) / 5 + d - 1).

Definition doeChecked (doe : Z) : bool :=
  let '(yoe, m, d) := civilOfDoe doe in
  (0 <=? yoe) && (yoe <=? 399) && (1 <=? m) && (m <=? 12) && (1 <=? d) && (d <=? 31)
  && (doeOfCivil yoe m d =? doe).

(** [p] holds of the [n] integers from [z] on. *)
Fixpoint allFrom (p : Z -> bool) (n : nat) (z : Z) : bool :=
  match n with
  | O => true
  | S n' => p z && allFrom p n' (z + 1)
  end.

End DateSpec.

Module DateShapeSpec.
Import Js Json Store Scaffold.

(** Exactly four digits; exactly two digits. *)
Definition fourDigits (s : string) : bool :=
  match list_ascii_of_string s with
  | [a; b; c; d] =>
      Promote.isDigit a && Promote.isDigit b && Promote.isDigit c && Promote.isDigit d
  | _ => false
  end.

Definition twoDigits (s : string) : bool :=
  match list_ascii_of_string s with
  | [a; b] => Promote.isDigit a && Promote.isDigit b
  | _ => false
  end.

(** The year prints as four digits that read back as the year. *)
Definition yearChecked (y : Z) : bool :=
  fourDigits (String_of y) && (Number_of_digits (String_of y) =? y).

(** The month or day pads to two digits that read back as the number. *)
Definition fieldChecked (n : Z) : bool :=
  twoDigits (pad2 n) && (Number_of_digits (pad2 n) =? n).

(** The files the scaffold creates in [d], in the order of the addresses. *)
Definition createdFiles (isos : list string) (d : dir) : list (string * obj) :=
  List.map (fun iso => (dataPath iso, emptyDay iso))
    (List.filter (fun iso => negb (existsIn d (dataPath iso))) isos).

End DateShapeSpec.

Module RangeSpec.
Import Js Json Store Calendar.

(** The days a month has in a year with a 29 February. *)
Definition daysIn (m : Z) : Z :=
  if m =? 2 then 29
  else if (m =? 4) || (m =? 6) || (m =? 9) || (m =? 11) then 30
  else 31.

(** [a <= b] and [a < b] as JavaScript compares strings. *)
Definition sle (a b : string) : Prop := String.leb a b = true.
Definition slt (a b : string) : Prop := String.ltb a b = true.

Definition inProject (s : string) : Prop := sle PROJECT_START s /\ sle s PROJECT_END.

End RangeSpec.

Module PagesSpec.
Import Js Json Store Calendar Pages RangeSpec DateShapeSpec.

(** The day numbers of the first and the last day of the project. *)
Definition firstDay : Z := -71038.
Definition lastDay : Z := -70672.

(** [Number] reads a field of four or of two digits as its value. *)
Definition readsFields (Number : string -> Promote.number) : Prop :=
  forall s, fourDigits s = true \/ twoDigits s = true ->
            Number s = Promote.Finite (inject_Z (Number_of_digits s)).

(** The date the calendar maps the month [m] and the day [d] to. *)
Definition mappedDay (m d : Z) : Z := Scaffold.DateUTC (label_year m d) (m - 1) d.

Definition dayChecked (m d : Z) : bool :=
  let a := todayMappedIso (wallClock m d) in
  let dt := mappedDay m d in
  (firstDay <=? dt) && (dt <? lastDay)
  && String.eqb a (Scaffold.toIso dt)
  && (Scaffold.getUTCMonth dt + 1 =? m) && (Scaffold.getUTCDate dt =? d)
  && String.eqb (clampToProject a) a
  && negb (String.eqb a PROJECT_END).

Definition monthChecked (m : Z) : bool :=
  DateSpec.allFrom (dayChecked m) (Z.to_nat (daysIn m)) 1.

Definition dateChecked (dt : Z) : bool :=
  let m := Scaffold.getUTCMonth dt + 1 in
  let d := Scaffold.getUTCDate dt in
  (1 <=? m) && (m <=? 12) && (1 <=? d) && (d <=? daysIn m)
  && String.eqb (todayMappedIso (wallClock m d)) (Scaffold.toIso dt).

(** The address of a project day: the clamp leaves it alone, and it is an
    end of the range exactly when the day is. *)
Definition addressChecked (dt : Z) : bool :=
  let a := Scaffold.toIso dt in
  String.eqb (clampToProject a) a
  && Bool.eqb (String.eqb a PROJECT_START) (dt =? firstDay)
  && Bool.eqb (String.eqb a PROJECT_END) (dt =? lastDay).

Definition yearInRange (dt : Z) : bool :=
  (1000 <=? Scaffold.getUTCFullYear dt) && (Scaffold.getUTCFullYear dt <=? 9999).

(** The record a page gets from [loadDayData]. *)
Definition recordOf (l : loaded) : option obj :=
  match l with Loaded o => Some o | _ => None end.

End PagesSpec.

Module BacklogSpec.
Import Js Json Store Promote.

(** A date the backlog search can stop at: its candidate pool exists and its
    data file parses to a record without a primary entry. *)
Definition awaiting (d intake : dir) (iso : string) : Prop :=
  existsIn intake (intakePath iso) = true /\
  exists data, d !! dataPath iso = Some (Doc data) /\ entries data SOLDIERS = [].

(** The flags that take the next argument as their value. *)
Definition valueFlags : list string := ["--soldiers"; "--command"; "--congress"; "--voices"].

(** What a dry run reports where the run itself reports [o]. *)
Definition rehearsed (o : outcome) : outcome :=
  match o with Wrote p => DryRun p | _ => o end.

(** The number is no whole number. *)
Definition fractional (q : Q) : Prop := Qnum q mod Zpos (Qden q) <> 0.

End BacklogSpec.

Module SeedSpec.
Import Js Json Store Seed.

(** A date whose data file parses to a record without a primary entry. *)
Definition unsoldiered (d : dir) (iso : string) : Prop :=
  exists data, d !! dataPath iso = Some (Doc data) /\ entries data "soldiers_day" = [].

End SeedSpec.

Module PipelineSpec.
Import Js Json Store.

(** The files a run of the migration visits, in the order it visits them. *)
Definition listing (d : dir) : list string := List.filter isJsonName (readdirSync d).

(** The file parses; the file does not parse; the file parses and the
    migration reports a change for it. *)
Definition parses (d : dir) (f : string) : bool :=
  match d !! f with Some (Doc _) => true | _ => false end.

Definition corrupt (d : dir) (f : string) : bool :=
  match d !! f with Some (Corrupt _) => true | _ => false end.

Definition reshaped (d : dir) (f : string) : bool :=
  match d !! f with
  | Some (Doc doc) => (Migrate.migrateObject (basenameOfPath f ".json") doc).2
  | _ => false
  end.

Definition count (p : string -> bool) (names : list string) : nat :=
  length (List.filter p names).

(** The record of the current schema with nothing curated. *)
Definition blankDay (iso : string) : obj :=
  [("date", JStr iso);
   ("soldiers_day", JArr []);
   ("men_of_command", JArr []);
   ("continental_congress_committees", JArr []);
   ("voices_beyond_the_line", JArr [])].

End PipelineSpec.

(* ===================================================================== *)
(** * Properties *)
(* ===================================================================== *)

(** ** Objects *)

Module JsonFacts.
Import Js Json.

Lemma obj_get_set_eq (o : obj) k v : obj_get (obj_set o k v) k = Some v.
Proof.
  induction o as [|[k' v'] rest IH]; simpl.
  - now rewrite String.eqb_refl.
  - destruct (String.eqb k k') eqn:E; simpl; rewrite E; auto.
Qed.

Lemma obj_get_set_ne (o : obj) k k' v :
  k <> k' -> obj_get (obj_set o k v) k' = obj_get o k'.
Proof.
  intros Hne. induction o as [|[k0 v0] rest IH]; simpl.
  - destruct (String.eqb_spec k' k); congruence.
  - destruct (String.eqb_spec k k0) as [->|]; simpl.
    + destruct (String.eqb_spec k' k0); congruence.
    + destruct (String.eqb_spec k' k0); auto.
Qed.

Lemma obj_get_delete_eq (o : obj) k : obj_get (obj_delete o k) k = None.
Proof.
  induction o as [|[k' v'] rest IH]; simpl; auto.
  destruct (String.eqb k k') eqn:E; simpl; auto. now rewrite E.
Qed.

Lemma obj_get_delete_ne (o : obj) k k' :
  k <> k' -> obj_get (obj_delete o k) k' = obj_get o k'.
Proof.
  intros Hne. induction o as [|[k0 v0] rest IH]; simpl; auto.
  destruct (String.eqb_spec k k0) as [->|]; simpl.
  - destruct (String.eqb_spec k' k0); congruence.
  - destruct (String.eqb_spec k' k0); auto.
Qed.

(** Writing back the value a property already has changes nothing, not even
    the order of the keys. *)
Lemma obj_set_same (o : obj) k v : obj_get o k = Some v -> obj_set o k v = o.
Proof.
  induction o as [|[k' v'] rest IH]; simpl; [discriminate|].
  destruct (String.eqb k k') eqn:E.
  - now intros [= ->].
  - intros H. now rewrite IH.
Qed.

(** Deleting a property the object does not have changes nothing. *)
Lemma obj_delete_absent (o : obj) k : obj_get o k = None -> obj_delete o k = o.
Proof.
  induction o as [|[k' v'] rest IH]; simpl; auto.
  destruct (String.eqb k k') eqn:E; [discriminate|].
  intros H. now rewrite IH.
Qed.

Lemma hasOwnProperty_set (o : obj) k k' v :
  hasOwnProperty (obj_set o k v) k' = String.eqb k k' || hasOwnProperty o k'.
Proof.
  unfold hasOwnProperty. destruct (String.eqb_spec k k') as [->|Hne].
  - now rewrite obj_get_set_eq.
  - now rewrite obj_get_set_ne.
Qed.

Lemma ensureArray_get_eq (o : obj) k :
  obj_get (ensureArray o k) k = Some (JArr (entries o k)).
Proof.
  unfold ensureArray, entries, hasOwnProperty, isArray, arrayOr.
  destruct (obj_get o k) as [[]|] eqn:E; simpl; rewrite ?obj_get_set_eq; auto.
Qed.

Lemma ensureArray_get_ne (o : obj) k k' :
  k <> k' -> obj_get (ensureArray o k) k' = obj_get o k'.
Proof.
  intros Hne. unfold ensureArray.
  destruct (negb _ || negb _); auto using obj_get_set_ne.
Qed.

Lemma ensureArray_entries (o : obj) k k' :
  entries (ensureArray o k) k' = entries o k'.
Proof.
  unfold entries at 1. destruct (String.eqb_spec k k') as [->|Hne].
  - now rewrite ensureArray_get_eq.
  - now rewrite ensureArray_get_ne.
Qed.

(** [ensureArray] leaves an object alone once the key holds an array. *)
Lemma ensureArray_id (o : obj) k items :
  obj_get o k = Some (JArr items) -> ensureArray o k = o.
Proof. intros H. unfold ensureArray, hasOwnProperty. now rewrite H. Qed.

Lemma ensureArray_idem (o : obj) k : ensureArray (ensureArray o k) k = ensureArray o k.
Proof. eapply ensureArray_id, ensureArray_get_eq. Qed.

End JsonFacts.

(** ** Directories *)

Module StoreFacts.
Import Js Json Store.

Lemma elem_of_jsonFiles (d : dir) (f : string) :
  f ∈ jsonFiles d <-> isJsonName f = true /\ is_Some (d !! f).
Proof.
  unfold jsonFiles, sort, readdirSync.
  rewrite merge_sort_Permutation, list_elem_of_In, filter_In, <- list_elem_of_In.
  rewrite list_elem_of_fmap. split.
  - intros [[[k v] [-> Hin]] Hj]. apply elem_of_map_to_list in Hin. simpl in *. eauto.
  - intros [Hj [v Hv]]. split; auto. exists (f, v). split; auto.
    now apply elem_of_map_to_list.
Qed.

Lemma NoDup_jsonFiles (d : dir) : NoDup (jsonFiles d).
Proof.
  unfold jsonFiles, sort, readdirSync. rewrite merge_sort_Permutation.
  apply NoDup_ListNoDup, List.NoDup_filter, NoDup_ListNoDup, NoDup_fst_map_to_list.
Qed.

Lemma string_length_app (s t : string) :
  String.length (s ++ t) = (String.length s + String.length t)%nat.
Proof. induction s as [|c s IH]; simpl; auto. Qed.

Lemma string_app_inv_tail (s s' t : string) : s ++ t = s' ++ t -> s = s'.
Proof.
  revert s'. induction s as [|c s IH]; intros [|c' s'] H; auto.
  - apply (f_equal String.length) in H. simpl in H.
    rewrite !string_length_app in H. simpl in H. lia.
  - apply (f_equal String.length) in H. simpl in H.
    rewrite !string_length_app in H. simpl in H. lia.
  - simpl in H. injection H as -> H. f_equal. auto.
Qed.

Lemma dataPath_inj (iso iso' : string) : dataPath iso = dataPath iso' -> iso = iso'.
Proof. apply string_app_inv_tail. Qed.

Lemma substring_all (s : string) : substring 0 (String.length s) s = s.
Proof. induction s as [|c s IH]; cbn; [reflexivity|now rewrite IH]. Qed.

Lemma substring_cut (s : string) :
  forall k, (k <= String.length s)%nat ->
            substring 0 k s ++ substring k (String.length s - k) s = s.
Proof.
  induction s as [|c s IH]; intros [|k] Hk; simpl in *; try reflexivity; try lia.
  - now rewrite substring_all.
  - change (String c (substring 0 k s ++ substring k (String.length s - k) s) = String c s).
    f_equal. apply IH. lia.
Qed.

(** A name that ends in [.json] is the data path of its base name. *)
Lemma dataPath_basename (f : string) :
  isJsonName f = true -> dataPath (basename f ".json") = f.
Proof.
  unfold isJsonName, basename. intros H. rewrite H. unfold endsWith in H.
  apply andb_true_iff in H as [Hlen Heq].
  apply Nat.leb_le in Hlen. apply String.eqb_eq in Heq.
  pose proof (substring_cut f (String.length f - String.length ".json") ltac:(lia)) as Hcut.
  replace (String.length f - (String.length f - String.length ".json"))%nat
    with (String.length ".json") in Hcut by lia.
  rewrite Heq in Hcut. exact Hcut.
Qed.

Lemma isJsonName_dataPath (iso : string) : isJsonName (dataPath iso) = true.
Proof.
  unfold isJsonName, dataPath, endsWith. rewrite string_length_app.
  apply andb_true_iff. split; [apply Nat.leb_le; lia|].
  replace (String.length iso + String.length ".json" - String.length ".json")%nat
    with (String.length iso) by lia.
  apply String.eqb_eq. induction iso as [|c iso IH]; [reflexivity|exact IH].
Qed.

Lemma basename_dataPath (iso : string) : basename (dataPath iso) ".json" = iso.
Proof.
  apply dataPath_inj. apply dataPath_basename, isJsonName_dataPath.
Qed.

Lemma basenameOfPath_dataPath (iso : string) :
  iso <> "" -> basenameOfPath (dataPath iso) ".json" = iso.
Proof.
  intros Hne. unfold basenameOfPath.
  destruct (String.eqb_spec (dataPath iso) ".json") as [E|_]; [|apply basename_dataPath].
  exfalso. apply Hne. apply (dataPath_inj iso ""). exact E.
Qed.

(** The files the scripts list are the records of the store: the names
    [{address}.json]. *)
Lemma isJsonName_iff (f : string) :
  isJsonName f = true <-> exists address, f = address ++ ".json".
Proof.
  split.
  - intros H. exists (basename f ".json"). symmetry. now apply dataPath_basename.
  - intros [address ->]. apply isJsonName_dataPath.
Qed.

End StoreFacts.

(** ** ProjectCalendar *)

Module CalendarFacts.
Import Js Calendar.

Lemma label_year_spec (m d : Z) :
  (on_or_after_cutover m d -> label_year m d = 1775) /\
  (~ on_or_after_cutover m d -> label_year m d = 1776).
Proof.
  unfold label_year, on_or_after_cutover.
  destruct (Z.ltb_spec 7 m), (Z.eqb_spec m 7), (Z.leb_spec 4 d); simpl; split; intros; lia.
Qed.

Lemma Number_of_digits_pad2 (n : Z) : 0 <= n < 100 -> Number_of_digits (pad2 n) = n.
Proof.
  intros H. rewrite <- (Z2Nat.id n) by lia.
  assert (Hlt : (Z.to_nat n < 100)%nat) by lia.
  revert Hlt. generalize (Z.to_nat n). clear. intros k Hk.
  do 100 (destruct k as [|k]; [vm_compute; reflexivity|]). lia.
Qed.

Lemma address_shape (m d : Z) :
  1 <= m <= 12 -> 1 <= d <= 31 ->
  Promote.isIsoDate (todayMappedIso (wallClock m d)) = true.
Proof.
  intros Hm Hd.
  assert (H : forallb (fun m => forallb (fun d =>
                Promote.isIsoDate (todayMappedIso (wallClock m d))) (seqZ 1 31))
                (seqZ 1 12) = true) by (vm_compute; reflexivity).
  rewrite forallb_forall in H. specialize (H m).
  rewrite forallb_forall in H. apply H; apply list_elem_of_In, elem_of_seqZ; lia.
Qed.

(** C6.  The mapped address is a function of the wall-clock month and day
    alone: it is the address [{label-year}-{month}-{day}], the label year is
    1775 on or after the cutover (month 7, day 4) and 1776 before it, two
    clock readings with the same month and day map to the same address, the
    address of a calendar month and day has the shape YYYY-MM-DD, the New
    York variant of seed-intake and the status tool computes the same
    address for every calendar month and day, and the three addresses the
    specification quotes come out as quoted. *)
Theorem C6_wall_clock_address :
  (forall now : Date,
      todayMappedIso now
      = address (label_year (getMonth now + 1) (getDate now))
                (getMonth now + 1) (getDate now)) /\
  (forall m d : Z,
      (on_or_after_cutover m d -> label_year m d = 1775) /\
      (~ on_or_after_cutover m d -> label_year m d = 1776)) /\
  (forall now now' : Date,
      getMonth now = getMonth now' -> getDate now = getDate now' ->
      todayMappedIso now = todayMappedIso now') /\
  (forall m d : Z,
      1 <= m <= 12 -> 1 <= d <= 31 ->
      Promote.isIsoDate (todayMappedIso (wallClock m d)) = true /\
      publishIsoTodayMapped m d = todayMappedIso (wallClock m d)) /\
  todayMappedIso (wallClock 7 3) = "1776-07-03" /\
  todayMappedIso (wallClock 7 4) = "1775-07-04" /\
  todayMappedIso (wallClock 12 25) = "1775-12-25" /\
  publishIsoTodayMapped 7 3 = "1776-07-03" /\
  publishIsoTodayMapped 7 4 = "1775-07-04" /\
  publishIsoTodayMapped 12 25 = "1775-12-25".
Proof.
  split; [reflexivity|].
  split; [exact label_year_spec|].
  split.
  { intros now now' Hm Hd. unfold todayMappedIso. now rewrite Hm, Hd. }
  split; [|repeat split; reflexivity].
  intros m d Hm Hd. split; [now apply address_shape|].
  unfold publishIsoTodayMapped, todayMappedIso, nyMonthDay, wallClock.
  cbn [getMonth getDate].
  rewrite !Number_of_digits_pad2 by lia.
  now replace (m - 1 + 1) with m by lia.
Qed.

End CalendarFacts.

(** ** PromotionEngine *)

Module PromoteFacts.
Import Js Json Store Promote PromoteSpec JsonFacts StoreFacts.

Lemma Qle_bool_inject_Z (a b : Z) : Qle_bool (inject_Z a) (inject_Z b) = (a <=? b).
Proof. unfold Qle_bool, inject_Z; simpl. now rewrite !Z.mul_1_r. Qed.

Lemma minus1_denotes (q : Q) (z : Z) :
  (q == inject_Z z)%Q -> (q - 1 == inject_Z (z - 1))%Q.
Proof. intros ->. unfold Qeq, Qminus, Qplus, Qopp, inject_Z; simpl. lia. Qed.

Lemma element_integer (arr : list json) (q : Q) (z : Z) :
  (q == inject_Z z)%Q -> 0 <= z ->
  element arr (Finite q) = nth (Z.to_nat z) arr JNull.
Proof.
  intros Hq Hz. unfold element, Qeq, inject_Z in *; simpl in *.
  rewrite Z.mul_1_r in Hq. rewrite Hq.
  rewrite Z.mod_mul, Z.div_mul by lia. simpl.
  destruct (Z.leb_spec 0 (z * Z.pos (Qden q))); [reflexivity|nia].
Qed.

Lemma pickLoop_resolved (candidates : list json) (indices : list number) (zs : list Z) :
  Forall2 denotes indices zs ->
  forall picked,
    pickLoop candidates indices picked = (picked ++ resolved candidates zs)%list.
Proof.
  induction 1 as [|n z indices zs Hn _ IH]; intros picked.
  - simpl. now rewrite app_nil_r.
  - destruct n as [| |q]; simpl in Hn; try contradiction.
    pose proof (minus1_denotes q z Hn) as Hi.
    cbn [pickLoop minus1 ltZ geZ resolved flat_map].
    rewrite Hi, !Qle_bool_inject_Z, IH, IH.
    destruct (Z.leb_spec 0 (z - 1)), (Z.leb_spec (Z.of_nat (length candidates)) (z - 1)),
      (Z.leb_spec 1 z), (Z.leb_spec z (Z.of_nat (length candidates)));
      cbn [negb orb andb app]; try lia; auto.
    rewrite (element_integer _ _ (z - 1)) by (auto; lia).
    now rewrite <- app_assoc.
Qed.

Lemma applyPromotion_get_eq data intake key indices overwrite :
  obj_get (data_after (applyPromotion data intake key indices overwrite)) key
  = Some (JArr (promotedEntries data intake key indices overwrite)).
Proof.
  unfold applyPromotion, promotedEntries; cbn [data_after].
  now rewrite obj_get_set_eq, !ensureArray_entries.
Qed.

Lemma applyPromotion_get_ne data intake key indices overwrite k :
  key <> k ->
  obj_get (data_after (applyPromotion data intake key indices overwrite)) k = obj_get data k.
Proof.
  intros Hne. unfold applyPromotion; cbn [data_after].
  now rewrite obj_get_set_ne, ensureArray_get_ne.
Qed.

Lemma applyPromotion_entries data intake key indices overwrite k :
  entries (data_after (applyPromotion data intake key indices overwrite)) k
  = if String.eqb key k then promotedEntries data intake key indices overwrite
    else entries data k.
Proof.
  unfold entries at 1. destruct (String.eqb_spec key k) as [<-|Hne].
  - now rewrite applyPromotion_get_eq.
  - now rewrite applyPromotion_get_ne.
Qed.

Lemma applyPromotion_intake data intake key indices overwrite k :
  entries (intake_after (applyPromotion data intake key indices overwrite)) k
  = entries intake k.
Proof. unfold applyPromotion; cbn [intake_after]. apply ensureArray_entries. Qed.

Lemma applyPromotion_counts data intake key indices overwrite :
  pickedCount (applyPromotion data intake key indices overwrite)
  = length (pickLoop (entries intake key) indices []) /\
  finalCount (applyPromotion data intake key indices overwrite)
  = length (promotedEntries data intake key indices overwrite).
Proof.
  split.
  - unfold applyPromotion; cbn [pickedCount]. now rewrite ensureArray_entries.
  - pose proof (applyPromotion_entries data intake key indices overwrite key) as H.
    rewrite String.eqb_refl in H. rewrite <- H. reflexivity.
Qed.

Lemma promoteIf_data key indices overwrite st k :
  entries (dataOf (promoteIf key indices overwrite st)) k
  = if String.eqb key k && negb (length indices =? 0)%nat
    then promotedEntries (dataOf st) (intakeOf st) key indices overwrite
    else entries (dataOf st) k.
Proof.
  destruct st as [[data intake] report]. unfold promoteIf, dataOf, intakeOf.
  destruct (length indices =? 0)%nat; cbn [fst snd negb].
  - now rewrite andb_false_r.
  - now rewrite applyPromotion_entries, andb_true_r.
Qed.

Lemma promoteIf_intake key indices overwrite st k :
  entries (intakeOf (promoteIf key indices overwrite st)) k = entries (intakeOf st) k.
Proof.
  destruct st as [[data intake] report]. unfold promoteIf, dataOf, intakeOf.
  destruct (length indices =? 0)%nat; cbn [fst snd]; auto using applyPromotion_intake.
Qed.

Lemma promotedEntries_ext data data' intake intake' key indices overwrite :
  entries data key = entries data' key -> entries intake key = entries intake' key ->
  promotedEntries data intake key indices overwrite
  = promotedEntries data' intake' key indices overwrite.
Proof. unfold promotedEntries. now intros -> ->. Qed.

(** The four conditional promotions touch disjoint keys: each category ends
    as its own promotion leaves it, or as it was when nothing was selected. *)
Lemma promoteAll_entries sel overwrite data intake k :
  entries (dataOf (promoteAll sel overwrite data intake)) k
  = if (length (indicesFor sel k) =? 0)%nat then entries data k
    else promotedEntries data intake k (indicesFor sel k) overwrite.
Proof.
  unfold promoteAll, indicesFor. rewrite !promoteIf_data.
  destruct (String.eqb_spec VOICES k) as [<-|H4]; cbn [andb].
  { change (String.eqb VOICES SOLDIERS) with false.
    change (String.eqb VOICES COMMAND) with false.
    change (String.eqb VOICES CONGRESS) with false.
    change (String.eqb VOICES VOICES) with true.
    destruct (length (voicesIdx sel) =? 0)%nat eqn:E; cbn [negb andb]; auto.
    apply promotedEntries_ext; rewrite ?promoteIf_data, ?promoteIf_intake; auto. }
  destruct (String.eqb_spec CONGRESS k) as [<-|H3]; cbn [andb].
  { change (String.eqb CONGRESS SOLDIERS) with false.
    change (String.eqb CONGRESS COMMAND) with false.
    change (String.eqb CONGRESS CONGRESS) with true.
    destruct (length (congressIdx sel) =? 0)%nat eqn:E; cbn [negb andb]; auto.
    apply promotedEntries_ext; rewrite ?promoteIf_data, ?promoteIf_intake; auto. }
  destruct (String.eqb_spec COMMAND k) as [<-|H2]; cbn [andb].
  { change (String.eqb COMMAND SOLDIERS) with false.
    change (String.eqb COMMAND COMMAND) with true.
    destruct (length (commandIdx sel) =? 0)%nat eqn:E; cbn [negb andb]; auto.
    apply promotedEntries_ext; rewrite ?promoteIf_data, ?promoteIf_intake; auto. }
  destruct (String.eqb_spec SOLDIERS k) as [<-|H1]; cbn [andb].
  { change (String.eqb SOLDIERS SOLDIERS) with true.
    destruct (length (soldiersIdx sel) =? 0)%nat eqn:E; cbn [negb andb]; auto. }
  destruct (String.eqb_spec k SOLDIERS); [congruence|].
  destruct (String.eqb_spec k COMMAND); [congruence|].
  destruct (String.eqb_spec k CONGRESS); [congruence|].
  destruct (String.eqb_spec k VOICES); [congruence|].
  reflexivity.
Qed.

Lemma normalize_entries (o : obj) (k : string) : entries (normalize o) k = entries o k.
Proof. unfold normalize, KEYS, CAPS; cbn [fmap list_fmap fst fold_left]. now rewrite !ensureArray_entries. Qed.

Lemma length_zero_iff_nil {A} (l : list A) : (length l =? 0)%nat = true <-> l = [].
Proof. destruct l; simpl; split; congruence. Qed.

Lemma lookupCap_inv (key : string) (cap : nat) :
  lookupCap CAPS key = Some cap ->
  (key = SOLDIERS /\ cap = 3%nat) \/ (key = COMMAND /\ cap = 2%nat) \/
  (key = CONGRESS /\ cap = 2%nat) \/ (key = VOICES /\ cap = 2%nat).
Proof.
  unfold CAPS; cbn [lookupCap].
  destruct (String.eqb_spec key SOLDIERS); [intros [= <-]; auto|].
  destruct (String.eqb_spec key COMMAND); [intros [= <-]; auto|].
  destruct (String.eqb_spec key CONGRESS); [intros [= <-]; auto|].
  destruct (String.eqb_spec key VOICES); [intros [= <-]; auto 6|discriminate].
Qed.

Lemma promotedEntries_promoted data intake key cap indices zs overwrite :
  lookupCap CAPS key = Some cap ->
  Forall2 denotes indices zs ->
  promotedEntries data intake key indices overwrite
  = promoted cap overwrite (entries data key) (entries intake key) zs.
Proof.
  intros Hcap Hzs. unfold promotedEntries, promoted.
  rewrite Hcap, (pickLoop_resolved _ _ zs Hzs). reflexivity.
Qed.

Lemma promotedEntries_length data intake key cap indices overwrite :
  lookupCap CAPS key = Some cap ->
  (length (promotedEntries data intake key indices overwrite) <= cap)%nat.
Proof.
  intros Hcap. unfold promotedEntries. rewrite Hcap. cbn [slice0].
  rewrite length_firstn. lia.
Qed.

(** C2.  One promotion of a category leaves under its key exactly the first
    [cap] elements of the base sequence followed by the candidates at the
    supplied 1-based positions, in the order supplied and with the positions
    outside [1 .. length] dropped; the base is empty under overwrite and
    the record's current sequence under append; the cap is 3 for the primary
    category and 2 for a secondary one.  The counts reported are those of
    the picked and of the final sequence, no other key of the record
    changes, and inside [main] each category selected ends with that value. *)
Theorem C2_final_category_value (data intake : obj) (key : string) (cap : nat)
    (indices : list number) (zs : list Z) (overwrite : bool) :
  lookupCap CAPS key = Some cap ->
  Forall2 denotes indices zs ->
  obj_get (data_after (applyPromotion data intake key indices overwrite)) key
  = Some (JArr (promoted cap overwrite (entries data key) (entries intake key) zs)) /\
  pickedCount (applyPromotion data intake key indices overwrite)
  = length (resolved (entries intake key) zs) /\
  finalCount (applyPromotion data intake key indices overwrite)
  = length (promoted cap overwrite (entries data key) (entries intake key) zs) /\
  (forall k, key <> k ->
     obj_get (data_after (applyPromotion data intake key indices overwrite)) k
     = obj_get data k) /\
  (forall sel, indicesFor sel key = indices -> indices <> [] ->
     entries (dataOf (promoteAll sel overwrite data intake)) key
     = promoted cap overwrite (entries data key) (entries intake key) zs) /\
  cap = (if String.eqb key SOLDIERS then 3 else 2)%nat.
Proof.
  intros Hcap Hzs.
  pose proof (promotedEntries_promoted data intake key cap indices zs overwrite Hcap Hzs) as Hp.
  destruct (applyPromotion_counts data intake key indices overwrite) as [Hpc Hfc].
  repeat split.
  - now rewrite applyPromotion_get_eq, Hp.
  - rewrite Hpc, (pickLoop_resolved _ _ zs Hzs). reflexivity.
  - now rewrite Hfc, Hp.
  - intros k Hk. now apply applyPromotion_get_ne.
  - intros sel Hsel Hne. rewrite promoteAll_entries, Hsel.
    destruct indices; [congruence|]. cbn [length Nat.eqb]. exact Hp.
  - apply lookupCap_inv in Hcap as [[-> ->]|[[-> ->]|[[-> ->]|[-> ->]]]]; reflexivity.
Qed.

Section Runs.

Variable trim : string -> string.
Variable Number : string -> number.

Local Abbreviation mergedRecord := (PromoteSpec.mergedRecord trim Number).
Local Abbreviation promoteStep := (PromoteSpec.promoteStep trim Number).
Local Abbreviation promoteSequence := (PromoteSpec.promoteSequence trim Number).
Local Abbreviation flagTokens := (PromoteSpec.flagTokens trim).

(** [load] succeeds exactly on a date whose two files exist and parse, and
    hands on the two objects normalised. *)
Lemma load_inv args fs iso intake data :
  load args fs = Go (iso, intake, data) ->
  exists d rec pool,
    target args fs = Go iso /\ dataDir fs = Some d /\
    d !! dataPath iso = Some (Doc rec) /\
    intakeDir fs !! intakePath iso = Some (Doc pool) /\
    data = normalize rec /\ intake = normalize pool.
Proof.
  unfold load, bind, guard, existsData, existsIn, readJson.
  destruct (target args fs) as [o|iso']; [discriminate|].
  destruct (intakeDir fs !! intakePath iso') as [[raw|pool]|] eqn:Hi; try discriminate.
  { destruct (dataDir fs) as [d|]; [|discriminate].
    destruct (d !! dataPath iso') as [[?|?]|]; discriminate. }
  destruct (dataDir fs) as [d|] eqn:Hd; [|discriminate].
  destruct (d !! dataPath iso') as [[raw|rec]|] eqn:Hr; try discriminate.
  intros [= <- <- <-]. exists d, rec, pool. auto 10.
Qed.

Lemma merge_inv args iso intake data iso' data' report :
  merge trim Number args (iso, intake, data) = Go (iso', data', report) ->
  iso' = iso /\ hasFlag args "--list" = false /\
  anySelection (parseSelections trim Number args) = true /\
  data' = dataOf (promoteAll (parseSelections trim Number args)
                    (hasFlag args "--overwrite") data intake).
Proof.
  unfold merge, bind, guard.
  destruct (hasFlag args "--list"); [discriminate|]. cbn [negb].
  destruct (anySelection _); [|discriminate].
  destruct (promoteAll _ _ data intake) as [[data0 intake0] report0] eqn:E.
  intros [= <- <- <-]. auto.
Qed.

(** Every run either leaves the file system as it found it and writes
    nothing, or replaces exactly the record of its date by the merged
    record, which then has a primary entry. *)
Lemma main_inv args fs :
  (fs_after (main trim Number args fs) = fs /\ writes (main trim Number args fs) = []) \/
  (exists iso d rec pool,
      target args fs = Go iso /\ dataDir fs = Some d /\
      d !! dataPath iso = Some (Doc rec) /\
      intakeDir fs !! intakePath iso = Some (Doc pool) /\
      entries (mergedRecord args rec pool) SOLDIERS <> [] /\
      writes (main trim Number args fs)
      = [(dataPath iso, obj_set (mergedRecord args rec pool) "date" (JStr iso))] /\
      fs_after (main trim Number args fs)
      = {| dataDir := Some (<[dataPath iso :=
                                Doc (obj_set (mergedRecord args rec pool) "date" (JStr iso))]> d);
           intakeDir := intakeDir fs |}).
Proof.
  unfold main, bind.
  destruct (load args fs) as [o|[[iso intake] data]] eqn:Hload; [left; auto|].
  destruct (merge trim Number args (iso, intake, data)) as [o|[[iso' data'] report]] eqn:Hm;
    [left; auto|].
  apply merge_inv in Hm as (-> & Hlist & Hany & ->).
  apply load_inv in Hload as (d & rec & pool & Ht & Hd & Hr & Hp & -> & ->).
  unfold finish. fold (mergedRecord args rec pool).
  destruct (length (entries (mergedRecord args rec pool) SOLDIERS) =? 0)%nat eqn:E;
    [left; auto|].
  destruct (hasFlag args "--dry-run"); [left; auto|].
  unfold writeData. rewrite Hd. right. exists iso, d, rec, pool.
  repeat split; auto. intros Hnil. rewrite Hnil in E. discriminate.
Qed.

Lemma load_ok args fs iso d rec pool :
  target args fs = Go iso -> dataDir fs = Some d ->
  d !! dataPath iso = Some (Doc rec) ->
  intakeDir fs !! intakePath iso = Some (Doc pool) ->
  load args fs = Go (iso, normalize pool, normalize rec).
Proof.
  intros Ht Hd Hr Hp. unfold load, bind, guard, existsData, existsIn, readJson.
  now rewrite Ht, Hp, Hd, Hr.
Qed.

Lemma main_listed args fs st :
  load args fs = Go st -> hasFlag args "--list" = true ->
  main trim Number args fs
  = {| outcome_of := listAll st.1.2; fs_after := fs; writes := [] |}.
Proof.
  intros Hl Hlist. unfold main, bind. rewrite Hl. destruct st as [[iso intake] data].
  unfold merge, bind, guard. now rewrite Hlist.
Qed.

Lemma main_no_selection args fs st :
  load args fs = Go st -> hasFlag args "--list" = false ->
  anySelection (parseSelections trim Number args) = false ->
  main trim Number args fs = {| outcome_of := NoSelections; fs_after := fs; writes := [] |}.
Proof.
  intros Hl Hlist Hany. unfold main, bind. rewrite Hl. destruct st as [[iso intake] data].
  unfold merge, bind, guard. now rewrite Hlist, Hany.
Qed.

Lemma main_gate args fs iso intake data :
  load args fs = Go (iso, intake, data) -> hasFlag args "--list" = false ->
  anySelection (parseSelections trim Number args) = true ->
  entries (dataOf (promoteAll (parseSelections trim Number args)
                     (hasFlag args "--overwrite") data intake)) SOLDIERS = [] ->
  main trim Number args fs = {| outcome_of := EmptySoldiers; fs_after := fs; writes := [] |}.
Proof.
  intros Hl Hlist Hany He. unfold main, bind. rewrite Hl.
  unfold merge, bind, guard. rewrite Hlist, Hany. cbn [negb].
  destruct (promoteAll _ _ data intake) as [[data' intake'] report].
  unfold finish. unfold dataOf in He; cbn [fst] in He. now rewrite He.
Qed.

Lemma resolved_out_of_range (candidates : list json) (zs : list Z) :
  Forall (fun z => z < 1 \/ Z.of_nat (length candidates) < z) zs ->
  resolved candidates zs = [].
Proof.
  induction 1 as [|z zs Hz _ IH]; [reflexivity|].
  unfold resolved in *; cbn [flat_map]. rewrite IH.
  destruct (Z.leb_spec 1 z), (Z.leb_spec z (Z.of_nat (length candidates)));
    cbn [andb app]; auto; lia.
Qed.

Lemma entries_set_ne (o : obj) k k' v : k <> k' -> entries (obj_set o k v) k' = entries o k'.
Proof. intros H. unfold entries. now rewrite obj_get_set_ne. Qed.

Lemma mergedRecord_entries args rec pool k :
  entries (mergedRecord args rec pool) k
  = if (length (indicesFor (parseSelections trim Number args) k) =? 0)%nat
    then entries rec k
    else promotedEntries rec pool k (indicesFor (parseSelections trim Number args) k)
           (hasFlag args "--overwrite").
Proof.
  unfold mergedRecord. rewrite promoteAll_entries.
  destruct (length _ =? 0)%nat; [apply normalize_entries|].
  apply promotedEntries_ext; apply normalize_entries.
Qed.

(** C1.  The gate of the promotion: a run that gets as far as the merged
    record and finds its primary category empty ends with exit code 1 (no
    other [process.exit] of the script uses 1; the usage errors end with
    2), writes nothing and leaves the file system as it was; whatever a run writes has a primary entry; and when the stored
    record has no primary entry and every primary position supplied lies
    outside [1 .. length] of the primary candidates (or none is supplied),
    the run writes nothing and the file system, the stored record with it,
    is the one it started from. *)
Theorem C1_empty_primary_is_rejected (args : list string) (fs : FS) :
  (forall iso intake data iso' data' report,
      load args fs = Go (iso, intake, data) ->
      merge trim Number args (iso, intake, data) = Go (iso', data', report) ->
      entries data' SOLDIERS = [] ->
      outcome_of (main trim Number args fs) = EmptySoldiers /\
      exitCode (main trim Number args fs) = 1 /\
      (forall o, Promote.ending_of o = Exited 1 <-> o = EmptySoldiers) /\
      (forall o, In o [Usage; BadDate; IntakeNotFound; DataNotFound; NoSelections] ->
                 exit_code (Promote.ending_of o) = 2) /\
      fs_after (main trim Number args fs) = fs /\
      writes (main trim Number args fs) = []) /\
  (forall name rec,
      In (name, rec) (writes (main trim Number args fs)) -> entries rec SOLDIERS <> []) /\
  (forall iso d rec pool zs,
      target args fs = Go iso -> dataDir fs = Some d ->
      d !! dataPath iso = Some (Doc rec) ->
      intakeDir fs !! intakePath iso = Some (Doc pool) ->
      entries rec SOLDIERS = [] ->
      Forall2 denotes (soldiersIdx (parseSelections trim Number args)) zs ->
      Forall (fun z => z < 1 \/ Z.of_nat (length (entries pool SOLDIERS)) < z) zs ->
      writes (main trim Number args fs) = [] /\
      fs_after (main trim Number args fs) = fs /\
      dataDir (fs_after (main trim Number args fs)) = Some d /\
      (hasFlag args "--list" = false ->
       exitCode (main trim Number args fs)
       = if anySelection (parseSelections trim Number args) then 1 else 2)).
Proof.
  split; [|split].
  - intros iso intake data iso' data' report Hl Hm He.
    apply merge_inv in Hm as (-> & Hlist & Hany & ->).
    rewrite (main_gate args fs iso intake data Hl Hlist Hany He).
    repeat split; auto.
    + destruct o; cbn; intros [=]; reflexivity.
    + intros ->. reflexivity.
    + intros o [<-|[<-|[<-|[<-|[<-|[]]]]]]; reflexivity.
  - intros name rec Hin.
    destruct (main_inv args fs) as [[_ Hw]|(iso & d & rec0 & pool & _ & _ & _ & _ & Hne & Hw & _)];
      rewrite Hw in Hin; [contradiction|].
    destruct Hin as [[= <- <-]|[]].
    rewrite entries_set_ne by discriminate. exact Hne.
  - intros iso d rec pool zs Ht Hd Hr Hp Hempty Hzs Hout.
    assert (Hmerged : entries (mergedRecord args rec pool) SOLDIERS = []).
    { rewrite mergedRecord_entries.
      change (indicesFor (parseSelections trim Number args) SOLDIERS)
        with (soldiersIdx (parseSelections trim Number args)).
      destruct (length _ =? 0)%nat; [exact Hempty|].
      rewrite (promotedEntries_promoted _ _ _ 3%nat _ zs) by (auto; reflexivity).
      unfold promoted. rewrite Hempty, (resolved_out_of_range _ _ Hout).
      now destruct (hasFlag args "--overwrite"). }
    pose proof (load_ok args fs iso d rec pool Ht Hd Hr Hp) as Hl.
    destruct (hasFlag args "--list") eqn:Hlist.
    { rewrite (main_listed args fs _ Hl Hlist). cbn. repeat split; auto. discriminate. }
    destruct (anySelection (parseSelections trim Number args)) eqn:Hany.
    + rewrite (main_gate args fs _ _ _ Hl Hlist Hany Hmerged). cbn. auto.
    + rewrite (main_no_selection args fs _ Hl Hlist Hany). cbn. auto.
Qed.

Lemma lookupCap_not_date key cap : lookupCap CAPS key = Some cap -> "date" <> key.
Proof.
  intros H. apply lookupCap_inv in H as [[-> _]|[[-> _]|[[-> _]|[-> _]]]]; discriminate.
Qed.

Lemma promoteStep_within_caps fs inv :
  store_within_caps fs -> store_within_caps (promoteStep fs inv).
Proof.
  intros Hinv. unfold promoteStep. destruct inv as [pools args]; cbn [fst snd].
  set (fs0 := {| dataDir := dataDir fs; intakeDir := pools |}).
  destruct (main_inv args fs0)
    as [[Hfs _]|(iso & d & rec0 & pool & _ & Hd & Hr & _ & _ & _ & Hfs)]; rewrite Hfs.
  - intros d name rec Hd. apply (Hinv d name rec). exact Hd.
  - intros d' name rec [= <-]. destruct (decide (dataPath iso = name)) as [<-|Hne].
    + rewrite lookup_insert_eq. intros [= <-] key cap Hcap.
      rewrite entries_set_ne by (eapply lookupCap_not_date; eauto).
      rewrite mergedRecord_entries. destruct (length _ =? 0)%nat.
      * eapply (Hinv d _ rec0); eauto.
      * now apply promotedEntries_length.
    + rewrite lookup_insert_ne by auto. intros Hl. eapply (Hinv d name rec); eauto.
Qed.

(** The four category keys hold sequences. *)
Lemma normalize_arrays (o : obj) k :
  In k KEYS -> exists l, obj_get (normalize o) k = Some (JArr l).
Proof.
  unfold normalize, KEYS, CAPS; cbn [fmap list_fmap fst fold_left].
  intros [<-|[<-|[<-|[<-|[]]]]];
    rewrite ?ensureArray_get_eq, ?ensureArray_get_ne by discriminate;
    rewrite ?ensureArray_get_eq; eauto.
Qed.

Lemma normalize_fixed (o : obj) :
  (forall k, In k KEYS -> exists l, obj_get o k = Some (JArr l)) -> normalize o = o.
Proof.
  intros H. unfold normalize, KEYS, CAPS; cbn [fmap list_fmap fst fold_left].
  destruct (H SOLDIERS) as [l1 H1]; [cbn; auto|].
  destruct (H COMMAND) as [l2 H2]; [cbn; auto|].
  destruct (H CONGRESS) as [l3 H3]; [cbn; auto|].
  destruct (H VOICES) as [l4 H4]; [cbn; auto 6|].
  now rewrite (ensureArray_id _ _ _ H1), (ensureArray_id _ _ _ H2),
    (ensureArray_id _ _ _ H3), (ensureArray_id _ _ _ H4).
Qed.

Lemma promoteIf_arrays key indices overwrite st k :
  (exists l, obj_get (dataOf st) k = Some (JArr l)) ->
  exists l, obj_get (dataOf (promoteIf key indices overwrite st)) k = Some (JArr l).
Proof.
  destruct st as [[data intake] report]. unfold promoteIf, dataOf; cbn [fst].
  destruct (length indices =? 0)%nat; cbn [fst]; auto.
  intros H. destruct (String.eqb_spec key k) as [<-|Hne].
  - rewrite applyPromotion_get_eq. eauto.
  - now rewrite applyPromotion_get_ne.
Qed.

Lemma mergedRecord_arrays args rec pool k :
  In k KEYS ->
  obj_get (mergedRecord args rec pool) k
  = Some (JArr (entries (mergedRecord args rec pool) k)).
Proof.
  intros Hk. unfold entries.
  assert (H : exists l, obj_get (mergedRecord args rec pool) k = Some (JArr l)).
  { unfold PromoteSpec.mergedRecord, promoteAll.
    do 4 apply promoteIf_arrays. now apply normalize_arrays. }
  destruct H as [l ->]. reflexivity.
Qed.


Lemma unusable_dropped (n : number) : unusable n -> isFinite n && geZ n 1 = false.
Proof.
  intros [->|H]; [reflexivity|].
  destruct n as [|[]|q]; unfold ltZ, geZ, isFinite in *;
    try reflexivity; try discriminate.
  now destruct (Qle_bool (inject_Z 1) q).
Qed.

Lemma parseCsvIndices_unusable args flag :
  Forall (fun t => unusable (Number t)) (flagTokens args flag) ->
  parseCsvIndices trim Number (getFlagValue args flag) = [].
Proof.
  unfold flagTokens, parseCsvIndices, tokens.
  destruct (getFlagValue args flag) as [s|]; [|reflexivity].
  destruct (String.eqb s ""); [reflexivity|].
  induction (List.filter _ (List.map trim (split ","%char s))) as [|t ts IH];
    [reflexivity|].
  intros H. inversion H as [|? ? Ht Hts]; subst. cbn [List.map List.filter].
  rewrite (unusable_dropped _ Ht). auto.
Qed.


(** Under overwrite, promoting into a record that already holds what the
    promotion would put there changes nothing. *)
Lemma promoteIf_overwrite_fixed key indices st :
  indices = [] \/
  obj_get (dataOf st) key
  = Some (JArr (promotedEntries (dataOf st) (intakeOf st) key indices true)) ->
  dataOf (promoteIf key indices true st) = dataOf st.
Proof.
  destruct st as [[data intake] report]. unfold promoteIf, dataOf, intakeOf; cbn [fst snd].
  intros [->|H]; [reflexivity|].
  destruct (length indices =? 0)%nat; [reflexivity|]. cbn [fst].
  unfold applyPromotion; cbn [data_after].
  rewrite (ensureArray_id _ _ _ H), ensureArray_entries.
  apply obj_set_same. exact H.
Qed.

Lemma promoteAll_overwrite_fixed sel data intake :
  (forall k, In k KEYS ->
     indicesFor sel k = [] \/
     obj_get data k = Some (JArr (promotedEntries data intake k (indicesFor sel k) true))) ->
  dataOf (promoteAll sel true data intake) = data.
Proof.
  intros H. unfold promoteAll.
  set (s1 := promoteIf SOLDIERS (soldiersIdx sel) true (data, intake, [])).
  assert (E1 : dataOf s1 = data).
  { apply promoteIf_overwrite_fixed. apply (H SOLDIERS). cbn; auto. }
  set (s2 := promoteIf COMMAND (commandIdx sel) true s1).
  assert (E2 : dataOf s2 = data).
  { unfold s2. rewrite promoteIf_overwrite_fixed; auto. rewrite E1.
    destruct (H COMMAND) as [Hn|Hg]; [cbn; auto|left; exact Hn|right].
    rewrite Hg. do 2 f_equal. apply promotedEntries_ext; auto.
    unfold s1. now rewrite promoteIf_intake. }
  set (s3 := promoteIf CONGRESS (congressIdx sel) true s2).
  assert (E3 : dataOf s3 = data).
  { unfold s3. rewrite promoteIf_overwrite_fixed; auto. rewrite E2.
    destruct (H CONGRESS) as [Hn|Hg]; [cbn; auto|left; exact Hn|right].
    rewrite Hg. do 2 f_equal. apply promotedEntries_ext; auto.
    unfold s2, s1. now rewrite !promoteIf_intake. }
  rewrite promoteIf_overwrite_fixed; auto. rewrite E3.
  destruct (H VOICES) as [Hn|Hg]; [cbn; auto 6|left; exact Hn|right].
  rewrite Hg. do 2 f_equal. apply promotedEntries_ext; auto.
  unfold s3, s2, s1. now rewrite !promoteIf_intake.
Qed.

Lemma target_without_next_missing args fs fs' :
  hasFlag args "--next-missing" = false -> target args fs' = target args fs.
Proof. intros H. unfold target. destruct args; auto. now rewrite H. Qed.

(** What a run that writes has gone through. *)
Lemma main_wrote_inv args fs :
  writes (main trim Number args fs) <> [] ->
  exists iso d rec pool,
    target args fs = Go iso /\ dataDir fs = Some d /\
    d !! dataPath iso = Some (Doc rec) /\
    intakeDir fs !! intakePath iso = Some (Doc pool) /\
    hasFlag args "--list" = false /\ hasFlag args "--dry-run" = false /\
    anySelection (parseSelections trim Number args) = true /\
    entries (mergedRecord args rec pool) SOLDIERS <> [] /\
    fs_after (main trim Number args fs)
    = {| dataDir := Some (<[dataPath iso :=
                              Doc (obj_set (mergedRecord args rec pool) "date" (JStr iso))]> d);
         intakeDir := intakeDir fs |}.
Proof.
  unfold main, bind.
  destruct (load args fs) as [o|[[iso intake] data]] eqn:Hload; [cbn; congruence|].
  destruct (merge trim Number args (iso, intake, data)) as [o|[[iso' data'] report]] eqn:Hm;
    [cbn; congruence|].
  apply merge_inv in Hm as (-> & Hlist & Hany & ->).
  apply load_inv in Hload as (d & rec & pool & Ht & Hd & Hr & Hp & -> & ->).
  unfold finish. fold (mergedRecord args rec pool).
  destruct (length (entries (mergedRecord args rec pool) SOLDIERS) =? 0)%nat eqn:E;
    [cbn; congruence|].
  destruct (hasFlag args "--dry-run") eqn:Hdry; [cbn; congruence|].
  unfold writeData. rewrite Hd. intros _. exists iso, d, rec, pool.
  repeat split; auto. intros Hnil. rewrite Hnil in E. discriminate.
Qed.

Lemma main_wrote args fs iso d rec pool :
  target args fs = Go iso -> dataDir fs = Some d ->
  d !! dataPath iso = Some (Doc rec) ->
  intakeDir fs !! intakePath iso = Some (Doc pool) ->
  hasFlag args "--list" = false -> hasFlag args "--dry-run" = false ->
  anySelection (parseSelections trim Number args) = true ->
  entries (mergedRecord args rec pool) SOLDIERS <> [] ->
  fs_after (main trim Number args fs)
  = {| dataDir := Some (<[dataPath iso :=
                            Doc (obj_set (mergedRecord args rec pool) "date" (JStr iso))]> d);
       intakeDir := intakeDir fs |}.
Proof.
  intros Ht Hd Hr Hp Hlist Hdry Hany Hne.
  unfold main, bind. rewrite (load_ok args fs iso d rec pool Ht Hd Hr Hp).
  unfold merge, bind, guard. rewrite Hlist, Hany. cbn [negb].
  fold (PromoteSpec.dataOf (promoteAll (parseSelections trim Number args)
          (hasFlag args "--overwrite") (normalize rec) (normalize pool))).
  destruct (promoteAll _ _ (normalize rec) (normalize pool)) as [[data' intake'] report] eqn:E.
  assert (Hm : mergedRecord args rec pool = data')
    by (unfold PromoteSpec.mergedRecord; now rewrite E).
  unfold finish. rewrite <- Hm.
  destruct (length (entries (mergedRecord args rec pool) SOLDIERS) =? 0)%nat eqn:El.
  { apply length_zero_iff_nil in El. contradiction. }
  rewrite Hdry. unfold writeData. now rewrite Hd.
Qed.

(** X1.  Promotion under overwrite is idempotent: the same invocation (with
    --overwrite, without --next-missing) run a second time leaves the file
    system as the first run left it. *)
Theorem promote_overwrite_twice (args : list string) (fs : FS) :
  hasFlag args "--overwrite" = true ->
  hasFlag args "--next-missing" = false ->
  fs_after (main trim Number args (fs_after (main trim Number args fs)))
  = fs_after (main trim Number args fs).
Proof.
  intros Hover Hnext.
  destruct (writes (main trim Number args fs)) as [|w ws] eqn:Hw.
  { destruct (main_inv args fs) as [[Hfs _]|(? & ? & ? & ? & _ & _ & _ & _ & _ & Hw' & _)];
      [now rewrite !Hfs|congruence]. }
  destruct (main_wrote_inv args fs) as
    (iso & d & rec & pool & Ht & Hd & Hr & Hp & Hlist & Hdry & Hany & Hne & Hfs);
    [congruence|].
  set (out := obj_set (mergedRecord args rec pool) "date" (JStr iso)) in *.
  assert (Harr : forall k, In k KEYS -> obj_get out k = Some (JArr (entries (mergedRecord args rec pool) k))).
  { intros k Hk. unfold out. rewrite obj_get_set_ne.
    - now apply mergedRecord_arrays.
    - unfold KEYS, CAPS in Hk; cbn in Hk.
      destruct Hk as [<-|[<-|[<-|[<-|[]]]]]; discriminate. }
  assert (Hnorm : normalize out = out).
  { apply normalize_fixed. intros k Hk. rewrite (Harr k Hk). eauto. }
  assert (Hagain : mergedRecord args out pool = out).
  { unfold PromoteSpec.mergedRecord. rewrite Hover, Hnorm.
    apply promoteAll_overwrite_fixed. intros k Hk.
    destruct (indicesFor (parseSelections trim Number args) k) as [|n ns] eqn:Ek; [now left|].
    right. rewrite (Harr k Hk), mergedRecord_entries, Ek, Hover. cbn [length Nat.eqb].
    do 2 f_equal. unfold promotedEntries. now rewrite normalize_entries. }
  rewrite Hfs.
  rewrite (main_wrote args _ iso (<[dataPath iso := Doc out]> d) out pool); cbn [dataDir intakeDir]; auto.
  - rewrite Hagain. fold out.
    assert (Hsame : obj_set out "date" (JStr iso) = out)
      by (apply obj_set_same; unfold out; apply obj_get_set_eq).
    now rewrite Hsame, insert_insert_eq.
  - now rewrite (target_without_next_missing args fs).
  - apply lookup_insert_eq.
  - rewrite Hagain. unfold out. now rewrite entries_set_ne by discriminate.
Qed.

End Runs.

(** C2 at work: appending the positions 2, 9, 1 to a record with one primary
    entry keeps that entry first, skips position 9 and stops at the cap. *)
Lemma C2_final_category_value_witness :
  obj_get (data_after (applyPromotion Samples.curated Samples.pool SOLDIERS
                         [Finite 2; Finite 9; Finite 1] false)) SOLDIERS
  = Some (JArr [JStr "camp diary"; JStr "orderly book"; JStr "muster roll"]).
Proof.
  refine (proj1 (C2_final_category_value Samples.curated Samples.pool SOLDIERS 3%nat
                   [Finite 2; Finite 9; Finite 1] [2; 9; 1] false _ _)).
  - reflexivity.
  - repeat constructor; reflexivity.
Defined.

(** C1 at work: position 9 of a pool of two candidates, on a record without
    primary entry, trips the gate. *)
Lemma C1_empty_primary_is_rejected_witness :
  outcome_of (main Samples.trim Samples.Number [Samples.day; "--soldiers"; "9"]
                (Samples.world Samples.blank)) = EmptySoldiers /\
  exitCode (main Samples.trim Samples.Number [Samples.day; "--soldiers"; "9"]
              (Samples.world Samples.blank)) = 1 /\
  fs_after (main Samples.trim Samples.Number [Samples.day; "--soldiers"; "9"]
              (Samples.world Samples.blank)) = Samples.world Samples.blank /\
  writes (main Samples.trim Samples.Number [Samples.day; "--soldiers"; "9"]
            (Samples.world Samples.blank)) = [].
Proof.
  destruct (C1_empty_primary_is_rejected Samples.trim Samples.Number
              [Samples.day; "--soldiers"; "9"] (Samples.world Samples.blank))
    as [Hgate _].
  destruct (Hgate Samples.day (normalize Samples.pool) (normalize Samples.blank)
              Samples.day Samples.blank [(SOLDIERS, (0%nat, 0%nat))])
    as (Ho & Hc & _ & _ & Hf & Hw).
  - vm_compute. reflexivity.
  - vm_compute. reflexivity.
  - reflexivity.
  - repeat split; assumption.
Defined.


Lemma sample_store_within_caps : store_within_caps (Samples.world Samples.blank).
Proof.
  intros d name rec [= <-] Hl.
  apply lookup_singleton_Some in Hl as [_ [= <-]].
  intros key cap Hcap.
  apply lookupCap_inv in Hcap as [[-> ->]|[[-> ->]|[[-> ->]|[-> ->]]]]; cbn; lia.
Qed.



(** X1 at work: positions 2, 1 under overwrite, twice. *)
Lemma promote_overwrite_twice_witness :
  fs_after (main Samples.trim Samples.Number
              [Samples.day; "--soldiers"; "2,1"; "--overwrite"]
              (fs_after (main Samples.trim Samples.Number
                           [Samples.day; "--soldiers"; "2,1"; "--overwrite"]
                           (Samples.world Samples.curated))))
  = fs_after (main Samples.trim Samples.Number
                [Samples.day; "--soldiers"; "2,1"; "--overwrite"]
                (Samples.world Samples.curated)).
Proof.
  apply (promote_overwrite_twice Samples.trim Samples.Number
           [Samples.day; "--soldiers"; "2,1"; "--overwrite"]
           (Samples.world Samples.curated)); reflexivity.
Defined.

(** An example: a position that is no whole number is not skipped: [arr[0.5]] is
    [undefined], the push makes the array one longer, the gate passes and
    the record is written with [null] as its primary entry. *)
Lemma fractional_position_is_written_as_null :
  writes (main Samples.trim Samples.Number [Samples.day; "--soldiers"; "1.5"]
            (Samples.world Samples.blank))
  = [(dataPath Samples.day,
      [("date", JStr Samples.day); ("soldiers_day", JArr [JNull]);
       ("men_of_command", JArr []);
       ("continental_congress_committees", JArr []);
       ("voices_beyond_the_line", JArr [])])].
Proof. vm_compute. reflexivity. Qed.

End PromoteFacts.

(** ** SchemaMigrator *)

Module MigrateFacts.
Import Js Json Store Migrate MigrateSpec JsonFacts StoreFacts.

Lemma setUnlessArray_get_eq (doc : obj) k v :
  obj_get (setUnlessArray doc k v) k
  = if isArray (obj_get doc k) then obj_get doc k else Some (JArr v).
Proof.
  unfold setUnlessArray. destruct (isArray (obj_get doc k)); cbn [negb]; auto.
  apply obj_get_set_eq.
Qed.

Lemma setUnlessArray_get_ne (doc : obj) k k' v :
  k <> k' -> obj_get (setUnlessArray doc k v) k' = obj_get doc k'.
Proof.
  intros H. unfold setUnlessArray. destruct (negb _); auto using obj_get_set_ne.
Qed.

Lemma deleteIfOwn_get_eq (doc : obj) k : obj_get (deleteIfOwn doc k) k = None.
Proof.
  unfold deleteIfOwn, hasOwnProperty.
  destruct (obj_get doc k) eqn:E; auto using obj_get_delete_eq.
Qed.

Lemma deleteIfOwn_get_ne (doc : obj) k k' :
  k <> k' -> obj_get (deleteIfOwn doc k) k' = obj_get doc k'.
Proof.
  intros H. unfold deleteIfOwn. destruct (hasOwnProperty doc k); auto using obj_get_delete_ne.
Qed.

Lemma ensureDate_get_eq base (doc : obj) :
  obj_get (ensureDate base doc) "date" = Some (JStr (dateOf base doc)).
Proof.
  unfold ensureDate, dateOf, truthy, isString.
  destruct (obj_get doc "date") as [[| | |s| |]|] eqn:E; cbn [negb orb];
    rewrite ?obj_get_set_eq; auto.
  - destruct b; cbn; now rewrite obj_get_set_eq.
  - rewrite orb_true_r. now rewrite obj_get_set_eq.
  - rewrite orb_false_r, negb_involutive.
    destruct (String.eqb s ""); [apply obj_get_set_eq|exact E].
Qed.

Lemma ensureDate_get_ne base (doc : obj) k :
  "date" <> k -> obj_get (ensureDate base doc) k = obj_get doc k.
Proof.
  intros H. unfold ensureDate. destruct (negb _ || negb _); auto using obj_get_set_ne.
Qed.

(** Lookups through the steps of [migrateOne], at keys that are spelled out. *)
Ltac gets :=
  repeat first
    [ rewrite ensureArray_get_eq
    | rewrite ensureArray_get_ne by discriminate
    | rewrite deleteIfOwn_get_eq
    | rewrite deleteIfOwn_get_ne by discriminate
    | rewrite setUnlessArray_get_eq
    | rewrite setUnlessArray_get_ne by discriminate
    | rewrite ensureDate_get_eq
    | rewrite ensureDate_get_ne by discriminate ].

Ltac open_migration :=
  unfold migrateObject, mapOldToNew, NEW_KEYS, OLD_KEYS; cbn [fst snd fold_left].

Lemma alreadyNew_true (doc : obj) :
  alreadyNew doc = true ->
  (forall k, In k NEW_KEYS -> hasOwnProperty doc k = true) /\
  (forall k, In k OLD_KEYS -> obj_get doc k = None).
Proof.
  unfold alreadyNew. rewrite andb_true_iff, !forallb_forall. intros [Hn Ho]. split; auto.
  intros k Hk. specialize (Ho k Hk). unfold hasOwnProperty in Ho.
  now destruct (obj_get doc k).
Qed.

(** The migrated record: its date. *)
Lemma migrateObject_date base (doc : obj) :
  obj_get (migrateObject base doc).1 "date" = Some (JStr (dateOf base doc)).
Proof. open_migration. destruct (alreadyNew _); cbn [negb]; gets; reflexivity. Qed.

(** The migrated record: no legacy key is left. *)
Lemma migrateObject_old base (doc : obj) k :
  In k OLD_KEYS -> obj_get (migrateObject base doc).1 k = None.
Proof.
  intros Hk. open_migration. destruct (alreadyNew _) eqn:E; cbn [negb].
  - apply alreadyNew_true in E as [_ Ho]. specialize (Ho k Hk).
    destruct Hk as [<-|[<-|[<-|[]]]]; gets;
      rewrite ensureDate_get_ne in Ho by discriminate; exact Ho.
  - destruct Hk as [<-|[<-|[<-|[]]]]; gets; reflexivity.
Qed.

(** The migrated record: every current key holds a sequence. *)
Lemma migrateObject_new base (doc : obj) k :
  In k NEW_KEYS ->
  obj_get (migrateObject base doc).1 k = Some (JArr (entries (migrateObject base doc).1 k)).
Proof.
  intros Hk. unfold entries at 1.
  assert (H : exists l, obj_get (migrateObject base doc).1 k = Some (JArr l)).
  { open_migration. destruct (alreadyNew _); cbn [negb];
      destruct Hk as [<-|[<-|[<-|[<-|[]]]]]; gets; eauto. }
  destruct H as [l ->]. reflexivity.
Qed.

(** A category that already is a sequence comes through untouched. *)
Lemma migrateObject_keeps base (doc : obj) k l :
  In k NEW_KEYS -> obj_get doc k = Some (JArr l) ->
  obj_get (migrateObject base doc).1 k = Some (JArr l).
Proof.
  intros Hk Hl. open_migration. destruct (alreadyNew _); cbn [negb];
    destruct Hk as [<-|[<-|[<-|[<-|[]]]]]; gets; unfold entries; gets;
    rewrite ?Hl; reflexivity.
Qed.

Lemma dateOf_cases base (doc : obj) : dateOf base doc <> "" \/ dateOf base doc = base.
Proof.
  unfold dateOf. destruct (obj_get doc "date") as [[| | |s| |]|]; auto.
  destruct (String.eqb_spec s ""); auto.
Qed.

(** A record with a date, the four current keys as sequences and no legacy
    key is a fixed point of the migration. *)
Lemma migrateObject_fixed base (doc : obj) s :
  obj_get doc "date" = Some (JStr s) -> (s <> "" \/ s = base) ->
  (forall k, In k NEW_KEYS -> exists l, obj_get doc k = Some (JArr l)) ->
  (forall k, In k OLD_KEYS -> obj_get doc k = None) ->
  migrateObject base doc = (doc, false).
Proof.
  intros Hd Hs Hn Ho.
  assert (Hdate : ensureDate base doc = doc).
  { unfold ensureDate, truthy, isString. rewrite Hd. cbn [negb orb].
    rewrite orb_false_r, negb_involutive.
    destruct (String.eqb_spec s "") as [->|]; auto.
    destruct Hs as [Hs|<-]; [congruence|]. now apply obj_set_same. }
  assert (Hnew : alreadyNew doc = true).
  { unfold alreadyNew. rewrite andb_true_iff, !forallb_forall. split; intros k Hk.
    - destruct (Hn k Hk) as [l Hl]. unfold hasOwnProperty. now rewrite Hl.
    - unfold hasOwnProperty. now rewrite (Ho k Hk). }
  unfold migrateObject. rewrite Hdate, Hnew. cbn [negb].
  unfold NEW_KEYS; cbn [fold_left].
  destruct (Hn SOLDIERS) as [l1 H1]; [cbn; auto|].
  destruct (Hn COMMAND) as [l2 H2]; [cbn; auto|].
  destruct (Hn CONGRESS) as [l3 H3]; [cbn; auto|].
  destruct (Hn VOICES) as [l4 H4]; [cbn; auto 6|].
  rewrite (ensureArray_id _ _ _ H1), (ensureArray_id _ _ _ H2),
    (ensureArray_id _ _ _ H3), (ensureArray_id _ _ _ H4).
  reflexivity.
Qed.

(** Migrating a migrated record changes nothing, and says so. *)
Lemma migrateObject_idempotent base (doc : obj) :
  migrateObject base (migrateObject base doc).1 = ((migrateObject base doc).1, false).
Proof.
  apply (migrateObject_fixed base _ (dateOf base doc)).
  - apply migrateObject_date.
  - apply dateOf_cases.
  - intros k Hk. eexists. now apply migrateObject_new.
  - intros k Hk. now apply migrateObject_old.
Qed.

Lemma migrateFile_idempotent f x : migrateFile f (migrateFile f x) = migrateFile f x.
Proof.
  destruct x as [raw|doc]; unfold migrateFile; [reflexivity|].
  now rewrite migrateObject_idempotent.
Qed.

Lemma alreadyNew_ensureDate base (doc : obj) :
  alreadyNew (ensureDate base doc) = alreadyNew doc.
Proof.
  unfold alreadyNew, NEW_KEYS, OLD_KEYS, hasOwnProperty; cbn [forallb]. gets. reflexivity.
Qed.

(** Fields other than the date and the seven category keys pass through. *)
Lemma migrateObject_other base (doc : obj) k :
  ~ In k ("date" :: NEW_KEYS ++ OLD_KEYS)%list ->
  obj_get (migrateObject base doc).1 k = obj_get doc k.
Proof.
  intros Hk.
  assert (H0 : "date" <> k) by (intros <-; apply Hk; cbn; auto).
  assert (H1 : SOLDIERS <> k) by (intros <-; apply Hk; cbn; auto).
  assert (H2 : COMMAND <> k) by (intros <-; apply Hk; cbn; auto).
  assert (H3 : CONGRESS <> k) by (intros <-; apply Hk; cbn; auto 6).
  assert (H4 : VOICES <> k) by (intros <-; apply Hk; cbn; auto 6).
  assert (H5 : CONGRESS_OLD <> k) by (intros <-; apply Hk; cbn; auto 7).
  assert (H6 : BATTLES <> k) by (intros <-; apply Hk; cbn; auto 8).
  assert (H7 : LETTERS <> k) by (intros <-; apply Hk; cbn; auto 9).
  open_migration. destruct (alreadyNew _); cbn [negb];
    rewrite ?ensureArray_get_ne, ?deleteIfOwn_get_ne, ?setUnlessArray_get_ne,
      ?ensureDate_get_ne by assumption; reflexivity.
Qed.

(** Where each current category of the migrated record comes from: a field
    that already is a sequence stays; otherwise the primary category is the
    legacy deeds followed by the legacy battles, the committees category is
    the legacy congress, and the two others are empty. *)
Lemma migrateObject_sources base (doc : obj) :
  entries (migrateObject base doc).1 SOLDIERS
  = (if isArray (obj_get doc SOLDIERS) then entries doc SOLDIERS
     else entries doc LETTERS ++ entries doc BATTLES)%list /\
  entries (migrateObject base doc).1 COMMAND = entries doc COMMAND /\
  entries (migrateObject base doc).1 CONGRESS
  = (if isArray (obj_get doc CONGRESS) then entries doc CONGRESS
     else entries doc CONGRESS_OLD) /\
  entries (migrateObject base doc).1 VOICES = entries doc VOICES.
Proof.
  unfold entries at 1 3 5 7. open_migration.
  destruct (alreadyNew (ensureDate base doc)) eqn:E; cbn [negb].
  - rewrite alreadyNew_ensureDate in E. apply alreadyNew_true in E as [_ Ho].
    unfold entries. gets. unfold entries. gets.
    rewrite (Ho CONGRESS_OLD), (Ho BATTLES), (Ho LETTERS) by (cbn; auto).
    repeat split; cbn [arrayOr app];
      match goal with |- context [isArray ?x] => destruct x as [[]|]; reflexivity end.
  - unfold entries. gets. unfold entries. gets.
    repeat split;
      match goal with |- context [isArray ?x] => destruct x as [[]|]; reflexivity end.
Qed.

Lemma migrateDir_lookup (d : dir) (g : string) :
  migrateDir d !! g
  = if isJsonName g then migrateFile g <$> d !! g else d !! g.
Proof.
  unfold migrateDir. rewrite map_lookup_imap.
  destruct (d !! g) as [x|]; cbn; now destruct (isJsonName g).
Qed.

Lemma visit_files (st : state) (f : string) (x : file) :
  files st !! f = Some x ->
  exists st', visit st f = Some st' /\ files st' = <[f := migrateFile f x]> (files st).
Proof.
  intros Hx. unfold visit, migrateOne. rewrite Hx. destruct x as [raw|doc]; cbn [migrateFile].
  - eexists; split; [reflexivity|]. cbn [files]. now rewrite insert_id.
  - destruct (migrateObject (basenameOfPath f ".json") doc) as [doc' c] eqn:E.
    eexists; split; [reflexivity|]. reflexivity.
Qed.

Lemma loop_files (names : list string) :
  NoDup names ->
  forall st : state,
    (forall f, f ∈ names -> is_Some (files st !! f)) ->
    exists st',
      loop names st = Some st' /\
      forall g, files st' !! g
                = if bool_decide (g ∈ names) then migrateFile g <$> files st !! g
                  else files st !! g.
Proof.
  induction 1 as [|f rest Hnotin Hnd IH]; intros st Hall.
  - exists st. split; [reflexivity|]. intros g. rewrite bool_decide_eq_false_2; auto.
    apply not_elem_of_nil.
  - destruct (Hall f) as [x Hx]; [left|].
    destruct (visit_files st f x Hx) as (st1 & Hv & Hf1).
    destruct (IH st1) as (st' & Hl & Hfiles).
    { intros g Hg. rewrite Hf1. destruct (decide (f = g)) as [->|Hne].
      - rewrite lookup_insert_eq. eauto.
      - rewrite lookup_insert_ne by auto. apply Hall. now right. }
    exists st'. split; [cbn [loop]; now rewrite Hv|].
    intros g. rewrite Hfiles, Hf1. destruct (decide (f = g)) as [<-|Hne].
    + rewrite lookup_insert_eq, (bool_decide_eq_false_2 _ Hnotin), bool_decide_eq_true_2 by left.
      now rewrite Hx.
    + rewrite lookup_insert_ne by auto.
      destruct (bool_decide (g ∈ rest)) eqn:E.
      * apply bool_decide_eq_true_1 in E. rewrite bool_decide_eq_true_2; auto. now right.
      * apply bool_decide_eq_false_1 in E. rewrite bool_decide_eq_false_2; auto.
        intros [->|?]%elem_of_cons; auto.
Qed.

Lemma listing_NoDup (d : dir) : NoDup (List.filter isJsonName (readdirSync d)).
Proof.
  unfold readdirSync.
  apply NoDup_ListNoDup, List.NoDup_filter, NoDup_ListNoDup, NoDup_fst_map_to_list.
Qed.

Lemma elem_of_listing (d : dir) (f : string) :
  f ∈ List.filter isJsonName (readdirSync d) <-> isJsonName f = true /\ is_Some (d !! f).
Proof.
  unfold readdirSync. rewrite list_elem_of_In, filter_In, <- list_elem_of_In.
  rewrite list_elem_of_fmap. split.
  - intros [[[k v] [-> Hin]] Hj]. apply elem_of_map_to_list in Hin. simpl in *. eauto.
  - intros [Hj [v Hv]]. split; auto. exists (f, v). split; auto.
    now apply elem_of_map_to_list.
Qed.

(** A run never throws, and turns [data/] into [migrateDir] of it. *)
Lemma main_files (fs : FS) :
  ending_of (main fs) <> Threw /\
  fs_after (main fs) = {| dataDir := migrateDir <$> dataDir fs; intakeDir := intakeDir fs |}.
Proof.
  unfold main. destruct fs as [[d|] pools]; cbn [dataDir intakeDir fmap option_fmap option_map];
    [|split; [discriminate|reflexivity]].
  destruct (loop_files _ (listing_NoDup d)
              {| files := d; counts := {| ok := 0; changed := 0; bad := 0 |}; written := [] |})
    as (st & -> & Hfiles).
  { intros f Hf. now apply elem_of_listing in Hf as [_ Hf]. }
  cbn [ending_of fs_after]. split; [destruct (0 <? _)%nat; discriminate|].
  f_equal. f_equal. apply map_eq. intros g. rewrite Hfiles, migrateDir_lookup. cbn [files].
  destruct (isJsonName g) eqn:Hj.
  - destruct (d !! g) as [x|] eqn:Hg.
    + rewrite bool_decide_eq_true_2; auto. apply elem_of_listing. rewrite Hg. eauto.
    + now destruct (bool_decide _).
  - rewrite bool_decide_eq_false_2; auto. intros [? _]%elem_of_listing. congruence.
Qed.

Lemma migrateDir_idempotent (d : dir) : migrateDir (migrateDir d) = migrateDir d.
Proof.
  apply map_eq. intros g. rewrite !migrateDir_lookup.
  destruct (isJsonName g); auto.
  destruct (d !! g) as [x|]; cbn; auto. now rewrite migrateFile_idempotent.
Qed.

(** C4.  Migration is idempotent: a second run over the store leaves every
    file as the first run left it; on one record, migrating the migrated
    record returns it unchanged (and reports no change), so the legacy
    categories are not concatenated a second time; and a category field
    that already is a valid sequence is never overwritten, whatever else
    the record holds. *)
Theorem C4_migration_is_idempotent :
  (forall fs : FS, fs_after (main (fs_after (main fs))) = fs_after (main fs)) /\
  (forall fs : FS, ending_of (main fs) <> Threw) /\
  (forall base doc,
      migrateObject base (migrateObject base doc).1 = ((migrateObject base doc).1, false)) /\
  (forall base doc k l,
      In k NEW_KEYS -> obj_get doc k = Some (JArr l) ->
      obj_get (migrateObject base doc).1 k = Some (JArr l)).
Proof.
  split; [|split; [|split]].
  - intros fs. rewrite !(proj2 (main_files _)). cbn [dataDir intakeDir].
    destruct (dataDir fs) as [d|]; cbn; [|reflexivity].
    now rewrite migrateDir_idempotent.
  - intros fs. apply main_files.
  - apply migrateObject_idempotent.
  - apply migrateObject_keeps.
Qed.

(** C5.  A legacy record comes out in the current shape: the primary
    category is the legacy deeds followed by the legacy battles, the
    committees category is the legacy congress, the two other secondary
    categories are empty, no legacy key is left, the date is set (the
    record's own when it is a non-empty string, the file's base name
    otherwise), every other field passes through, the change is reported,
    and no primary entry is invented: each one was a deed or a battle, so
    empty deeds and battles give an empty primary category. *)
Theorem C5_legacy_record_mapping (base : string) (doc : obj)
    (congress battles deeds : list json) :
  legacy_shape doc congress battles deeds ->
  obj_get (migrateObject base doc).1 SOLDIERS = Some (JArr (deeds ++ battles)%list) /\
  obj_get (migrateObject base doc).1 CONGRESS = Some (JArr congress) /\
  obj_get (migrateObject base doc).1 COMMAND = Some (JArr []) /\
  obj_get (migrateObject base doc).1 VOICES = Some (JArr []) /\
  (forall k, In k OLD_KEYS -> hasOwnProperty (migrateObject base doc).1 k = false) /\
  obj_get (migrateObject base doc).1 "date" = Some (JStr (dateOf base doc)) /\
  (forall k, ~ In k ("date" :: NEW_KEYS ++ OLD_KEYS)%list ->
             obj_get (migrateObject base doc).1 k = obj_get doc k) /\
  (migrateObject base doc).2 = true /\
  (forall e, In e (entries (migrateObject base doc).1 SOLDIERS) ->
             In e deeds \/ In e battles) /\
  (deeds = [] -> battles = [] -> entries (migrateObject base doc).1 SOLDIERS = []).
Proof.
  intros (Hc & Hb & Hl & Hnone).
  destruct (migrateObject_sources base doc) as (Hs & Hm & Hg & Hv).
  assert (Hprimary : entries (migrateObject base doc).1 SOLDIERS = (deeds ++ battles)%list).
  { rewrite Hs. unfold entries. rewrite (Hnone SOLDIERS), Hl, Hb by (cbn; auto). reflexivity. }
  repeat split.
  - rewrite migrateObject_new by (cbn; auto). now rewrite Hprimary.
  - rewrite migrateObject_new, Hg by (cbn; auto).
    unfold entries. rewrite (Hnone CONGRESS), Hc by (cbn; auto). reflexivity.
  - rewrite migrateObject_new, Hm by (cbn; auto).
    unfold entries. rewrite (Hnone COMMAND) by (cbn; auto). reflexivity.
  - rewrite migrateObject_new, Hv by (cbn; auto 6).
    unfold entries. rewrite (Hnone VOICES) by (cbn; auto 6). reflexivity.
  - intros k Hk. unfold hasOwnProperty. now rewrite migrateObject_old.
  - apply migrateObject_date.
  - apply migrateObject_other.
  - unfold migrateObject; cbn [snd]. rewrite alreadyNew_ensureDate.
    unfold alreadyNew, NEW_KEYS, hasOwnProperty; cbn [forallb].
    rewrite (Hnone SOLDIERS) by (cbn; auto). reflexivity.
  - intros e. rewrite Hprimary. apply in_app_or.
  - intros -> ->. now rewrite Hprimary.
Qed.

(** C5 at work on a legacy record with one congress entry, one battle and
    two deeds; the whole migrated record is as expected. *)
Lemma C5_legacy_record_mapping_witness :
  obj_get (migrateObject Samples.day Samples.legacyDay).1 SOLDIERS
  = Some (JArr [JStr "letter home"; JStr "deed of sale"; JStr "skirmish"]) /\
  migrateObject Samples.day Samples.legacyDay = (Samples.legacyDayMigrated, true).
Proof.
  split; [|reflexivity].
  refine (proj1 (C5_legacy_record_mapping Samples.day Samples.legacyDay
                   [JStr "resolve of congress"] [JStr "skirmish"]
                   [JStr "letter home"; JStr "deed of sale"] _)).
  repeat split. intros k [<-|[<-|[<-|[<-|[]]]]]; reflexivity.
Defined.

(** The claim C10 as worded fails: a record may hold a current category as
    a valid sequence beside a legacy category whose target is not there
    yet, and then the legacy entries are carried over, not discarded.  Here
    the primary category is present and the legacy congress entry ends up
    in the committees category of the output. *)
Lemma C10_legacy_entries_can_survive :
  obj_get Samples.halfMigrated SOLDIERS = Some (JArr [JStr "camp diary"]) /\
  obj_get Samples.halfMigrated CONGRESS_OLD = Some (JArr [JStr "resolve of congress"]) /\
  migrateObject Samples.day Samples.halfMigrated = (Samples.halfMigratedAfter, true) /\
  In (JStr "resolve of congress") (entries Samples.halfMigratedAfter CONGRESS).
Proof. repeat split; try reflexivity. cbn. auto. Qed.

(** C10, as the code has it.  For every record: the legacy keys are gone
    from the output; a current category that already is a valid sequence is
    left exactly as it is, no legacy entry merged into it, so the legacy
    deeds and battles are dropped when the primary category is already a
    sequence and the legacy congress is dropped when the committees
    category is; a legacy category whose target is not yet a sequence is
    carried over into it; the fields that are neither the date nor a
    category pass through. *)
Theorem C10_legacy_keys_beside_current_ones (base : string) (doc : obj) :
  (forall k, In k OLD_KEYS -> hasOwnProperty (migrateObject base doc).1 k = false) /\
  (forall k l, In k NEW_KEYS -> obj_get doc k = Some (JArr l) ->
               obj_get (migrateObject base doc).1 k = Some (JArr l)) /\
  (isArray (obj_get doc SOLDIERS) = false ->
   entries (migrateObject base doc).1 SOLDIERS
   = (entries doc LETTERS ++ entries doc BATTLES)%list) /\
  (isArray (obj_get doc CONGRESS) = false ->
   entries (migrateObject base doc).1 CONGRESS = entries doc CONGRESS_OLD) /\
  (isArray (obj_get doc COMMAND) = false ->
   entries (migrateObject base doc).1 COMMAND = []) /\
  (isArray (obj_get doc VOICES) = false ->
   entries (migrateObject base doc).1 VOICES = []) /\
  (forall k, ~ In k ("date" :: NEW_KEYS ++ OLD_KEYS)%list ->
             obj_get (migrateObject base doc).1 k = obj_get doc k).
Proof.
  destruct (migrateObject_sources base doc) as (Hs & Hm & Hg & Hv).
  repeat split.
  - intros k Hk. unfold hasOwnProperty. now rewrite migrateObject_old.
  - apply migrateObject_keeps.
  - intros H. now rewrite Hs, H.
  - intros H. now rewrite Hg, H.
  - intros H. rewrite Hm. unfold entries. now destruct (obj_get doc COMMAND) as [[]|].
  - intros H. rewrite Hv. unfold entries. now destruct (obj_get doc VOICES) as [[]|].
  - apply migrateObject_other.
Qed.

(** C10 at work: with the primary category present, the legacy battle of
    [halfMigrated] is dropped and the primary category is unchanged. *)
Lemma C10_legacy_keys_beside_current_ones_witness :
  obj_get (migrateObject Samples.day Samples.halfMigrated).1 SOLDIERS
  = Some (JArr [JStr "camp diary"]) /\
  hasOwnProperty (migrateObject Samples.day Samples.halfMigrated).1 BATTLES = false.
Proof.
  destruct (C10_legacy_keys_beside_current_ones Samples.day Samples.halfMigrated)
    as (Hold & Hkeep & _).
  split.
  - apply Hkeep; [cbn; auto|reflexivity].
  - apply Hold. cbn; auto.
Defined.

(** C4 at work: a second run over a store with a legacy record, a
    half-migrated record and a corrupt file changes nothing. *)
Lemma C4_migration_is_idempotent_witness :
  fs_after (main (fs_after (main
    {| dataDir := Some (<["1775-07-06.json" := Corrupt "{"]>
                       (<["1775-07-05.json" := Doc Samples.halfMigrated]>
                          {[ "1775-07-04.json" := Doc Samples.legacyDay ]}));
       intakeDir := ∅ |})))
  = fs_after (main
    {| dataDir := Some (<["1775-07-06.json" := Corrupt "{"]>
                       (<["1775-07-05.json" := Doc Samples.halfMigrated]>
                          {[ "1775-07-04.json" := Doc Samples.legacyDay ]}));
       intakeDir := ∅ |}).
Proof. apply (proj1 C4_migration_is_idempotent). Defined.

End MigrateFacts.

(** ** AuditEngine *)

Module AuditFacts.
Import Js Json Store Audit AuditSpec JsonFacts StoreFacts.

Lemma checkKey_counts iso (doc : obj) (r : report) (key : string) :
  sameCounts r (checkKey iso doc r key) 0 (if badKey doc key then 1 else 0) 0 0.
Proof.
  unfold checkKey. fold (badKey doc key).
  destruct (badKey doc key); unfold sameCounts; cbn; lia.
Qed.

Lemma checkCap_counts iso (doc : obj) (r : report) (kc : string * nat) :
  sameCounts r (checkCap iso doc r kc) 0 0 0 (if overCap doc kc then 1 else 0).
Proof.
  destruct kc as [key cap]. unfold checkCap, overCap; cbn [fst snd].
  fold (entries doc key).
  destruct (cap <? length (entries doc key))%nat; unfold sameCounts; cbn; lia.
Qed.

Lemma fold_checkKey iso (doc : obj) (keys : list string) :
  forall r,
    sameCounts r (fold_left (checkKey iso doc) keys r)
      0 (length (List.filter (badKey doc) keys)) 0 0.
Proof.
  induction keys as [|key keys IH]; intros r; cbn [fold_left List.filter].
  - unfold sameCounts; cbn; lia.
  - specialize (IH (checkKey iso doc r key)).
    pose proof (checkKey_counts iso doc r key) as H.
    unfold sameCounts in *. destruct (badKey doc key); cbn [length]; lia.
Qed.

Lemma fold_checkCap iso (doc : obj) (caps : list (string * nat)) :
  forall r,
    sameCounts r (fold_left (checkCap iso doc) caps r)
      0 0 0 (length (List.filter (overCap doc) caps)).
Proof.
  induction caps as [|kc caps IH]; intros r; cbn [fold_left List.filter].
  - unfold sameCounts; cbn; lia.
  - specialize (IH (checkCap iso doc r kc)).
    pose proof (checkCap_counts iso doc r kc) as H.
    unfold sameCounts in *. destruct (overCap doc kc); cbn [length]; lia.
Qed.

Lemma auditFile_counts (d : dir) (r : report) (f : string) :
  sameCounts r (auditFile d r f)
    (parseFailuresAt d f) (missingKeysAt d f) (missingSoldiersAt d f) (overCapsAt d f).
Proof.
  unfold auditFile, parseFailuresAt, missingKeysAt, missingSoldiersAt, overCapsAt.
  change categoryCaps with CAPS. change primaryCategory with SOLDIERS.
  destruct (readJson d f) as [doc|].
  - set (iso := basename f ".json").
    pose proof (fold_checkKey iso doc (CAPS.*1) r) as H1.
    set (r1 := fold_left (checkKey iso doc) (CAPS.*1) r) in *.
    fold (entries doc SOLDIERS).
    set (r2 := if (length (entries doc SOLDIERS) =? 0)%nat
               then noteMissingSoldiers iso r1 else r1).
    pose proof (fold_checkCap iso doc CAPS r2) as H2.
    assert (H12 : sameCounts r1 r2 0 0
                    (if (length (entries doc SOLDIERS) =? 0)%nat then 1 else 0) 0).
    { unfold r2, sameCounts. destruct (length _ =? 0)%nat; cbn; lia. }
    unfold sameCounts in *. lia.
  - unfold sameCounts; cbn; lia.
Qed.

Lemma fold_auditFile_counts (d : dir) (files : list string) :
  forall r,
    sameCounts r (fold_left (auditFile d) files r)
      (sum_list (parseFailuresAt d <$> files)) (sum_list (missingKeysAt d <$> files))
      (sum_list (missingSoldiersAt d <$> files)) (sum_list (overCapsAt d <$> files)).
Proof.
  induction files as [|f files IH]; intros r;
    cbn [fold_left fmap list_fmap sum_list sum_list_with].
  - unfold sameCounts; lia.
  - specialize (IH (auditFile d r f)). pose proof (auditFile_counts d r f) as H.
    unfold sameCounts, sum_list, id in *. lia.
Qed.

Lemma filter_length_zero {A} (p : A -> bool) (l : list A) :
  length (List.filter p l) = 0%nat <-> forall x, In x l -> p x = false.
Proof.
  induction l as [|a l IH]; cbn [List.filter].
  - split; [intros _ x []|reflexivity].
  - destruct (p a) eqn:E; cbn [length].
    + split; [discriminate|]. intros H. specialize (H a (or_introl eq_refl)). congruence.
    + rewrite IH. split.
      * intros H x [<-|Hx]; auto.
      * intros H x Hx. apply H. now right.
Qed.

Lemma sum_list_fmap_zero {A} (g : A -> nat) (l : list A) :
  sum_list (g <$> l) = 0%nat <-> forall x, x ∈ l -> g x = 0%nat.
Proof.
  induction l as [|a l IH]; cbn [fmap list_fmap sum_list sum_list_with].
  - split; [intros _ x Hx; inversion Hx|reflexivity].
  - unfold sum_list, id in *. rewrite Nat.eq_add_0, IH. split.
    + intros [Ha Hl] x [->|Hx]%elem_of_cons; auto.
    + intros H. split; [apply H; left|intros x Hx; apply H; now right].
Qed.

Lemma badKey_false (doc : obj) (key : string) :
  badKey doc key = false <-> exists items, obj_get doc key = Some (JArr items).
Proof.
  unfold badKey, hasOwnProperty, isArray.
  destruct (obj_get doc key) as [[]|]; cbn; split; try discriminate; eauto;
    intros [items [=]].
Qed.

(** A file counts for nothing in the four classes exactly when it passes
    the four conditions. *)
Lemma clean_iff_passes (d : dir) (f : string) :
  is_Some (d !! f) ->
  (parseFailuresAt d f = 0%nat /\ missingKeysAt d f = 0%nat /\
   missingSoldiersAt d f = 0%nat /\ overCapsAt d f = 0%nat) <-> passes d f.
Proof.
  intros [x Hx].
  unfold parseFailuresAt, missingKeysAt, missingSoldiersAt, overCapsAt, passes, readJson.
  rewrite Hx. destruct x as [raw|doc].
  - split; [intros [[=] _]|intros (doc & [=] & _)].
  - rewrite !filter_length_zero. split.
    + intros (_ & Hk & Hs & Hc). exists doc. split; [reflexivity|]. split; [|split].
      * intros key cap Hin. apply badKey_false, Hk.
        apply in_map_iff. exists (key, cap). auto.
      * destruct (length (entries doc primaryCategory)); [discriminate|lia].
      * intros key cap Hin. specialize (Hc (key, cap) Hin). unfold overCap in Hc.
        cbn [fst snd] in Hc. apply Nat.ltb_ge in Hc. exact Hc.
    + intros (doc' & [= <-] & Hk & Hs & Hc). split; [reflexivity|]. split; [|split].
      * intros key Hin. apply in_map_iff in Hin as ([key' cap] & <- & Hin).
        apply badKey_false. eapply Hk; eauto.
      * destruct (length (entries doc primaryCategory)); [lia|reflexivity].
      * intros [key cap] Hin. unfold overCap; cbn [fst snd]. apply Nat.ltb_ge. eauto.
Qed.

(** The files the audit lists are the records of the store. *)
Lemma jsonFiles_records (d : dir) (f : string) : f ∈ jsonFiles d <-> isRecord d f.
Proof. unfold isRecord. now rewrite elem_of_jsonFiles, isJsonName_iff. Qed.



(** An example, the scenario of the specification: two of three days are blank, so the
    audit counts two empty primary categories and nothing else, and exits
    with 1. *)
Lemma audit_three_days :
  option_map (fun rep => (parseFailures rep, missingKeys rep, missingSoldiers rep,
                          overCaps rep, missingSoldiersDates rep))
             (printed (main Samples.threeDays))
  = Some (0, 0, 2, 0, ["1775-07-04"; "1775-07-06"])%nat /\
  ending_of (main Samples.threeDays) = Exited 1.
Proof. split; vm_compute; reflexivity. Qed.

End AuditFacts.

(** ** ScaffoldGenerator *)

Module ScaffoldFacts.
Import Js Json Store Scaffold ScaffoldSpec JsonFacts StoreFacts.

Lemma visited_project :
  visited 400 (parseIso PROJECT_START) (parseIso PROJECT_END) = Some projectDays.
Proof. vm_compute. reflexivity. Qed.

Lemma projectAddresses_ends :
  length projectAddresses = 367%nat /\
  head projectAddresses = Some PROJECT_START /\
  last projectAddresses = Some PROJECT_END.
Proof. repeat split; vm_compute; reflexivity. Qed.

Lemma loop_visited (fuel : nat) :
  forall dt last st,
    loop fuel dt last st = (fun days => fold_left visit days st) <$> visited fuel dt last.
Proof.
  induction fuel as [|fuel IH]; intros dt last st; cbn [loop visited];
    destruct (dt <=? last); try reflexivity.
  rewrite IH. now destruct (visited fuel (addDays dt 1) last).
Qed.

Lemma fold_visit_files (days : list Z) :
  forall st, files (fold_left visit days st) = scaffoldDir (toIso <$> days) (files st).
Proof.
  induction days as [|dt days IH]; intros st; cbn [fold_left fmap list_fmap scaffoldDir].
  - reflexivity.
  - rewrite IH. unfold scaffoldDir. f_equal. unfold visit.
    now destruct (existsIn (files st) (dataPath (toIso dt))).
Qed.

Lemma fold_visit_counts (days : list Z) :
  forall st,
    (created (fold_left visit days st) + skipped (fold_left visit days st)
     = created st + skipped st + length days)%nat.
Proof.
  induction days as [|dt days IH]; intros st; cbn [fold_left length]; [lia|].
  rewrite IH. unfold visit.
  destruct (existsIn (files st) (dataPath (toIso dt))); cbn; lia.
Qed.

(** The script runs to its end within the bound, whatever it finds. *)
Lemma run_total (fs : FS) :
  exists r,
    run 400 fs = Some r /\
    ending_of r = Returned /\
    fs_after r = {| dataDir := Some (scaffoldDir projectAddresses (default ∅ (dataDir fs)));
                    intakeDir := intakeDir fs |} /\
    (createdCount r + skippedCount r = 367)%nat.
Proof.
  unfold run. rewrite loop_visited, visited_project. cbn [fmap option_fmap option_map mbind option_bind].
  eexists. split; [reflexivity|]. cbn [ending_of fs_after createdCount skippedCount].
  rewrite fold_visit_files, fold_visit_counts. cbn [files created skipped].
  repeat split.
Qed.

(** A file that is there is left as it is. *)
Lemma scaffoldDir_keeps (isos : list string) :
  forall (d : dir) p x, d !! p = Some x -> scaffoldDir isos d !! p = Some x.
Proof.
  induction isos as [|iso isos IH]; intros d p x Hp; cbn [scaffoldDir fold_left]; auto.
  apply IH. unfold existsIn. destruct (d !! dataPath iso) eqn:E; auto.
  rewrite lookup_insert_ne; auto. congruence.
Qed.

(** An address of the range without a file gets the empty day. *)
Lemma scaffoldDir_creates (isos : list string) :
  forall (d : dir) iso,
    In iso isos -> d !! dataPath iso = None ->
    scaffoldDir isos d !! dataPath iso = Some (Doc (emptyDay iso)).
Proof.
  induction isos as [|a isos IH]; intros d iso Hin Hnone; [contradiction|].
  cbn [scaffoldDir fold_left]. fold (scaffoldDir isos).
  destruct (String.eqb_spec a iso) as [->|Hne].
  - unfold existsIn. rewrite Hnone. apply scaffoldDir_keeps, lookup_insert_eq.
  - destruct Hin as [->|Hin]; [congruence|].
    apply IH; auto. unfold existsIn. destruct (d !! dataPath a); auto.
    rewrite lookup_insert_ne; auto. intros H%dataPath_inj. congruence.
Qed.

(** A path that belongs to no address of the range is not touched. *)
Lemma scaffoldDir_other (isos : list string) :
  forall (d : dir) p,
    (forall iso, In iso isos -> dataPath iso <> p) -> scaffoldDir isos d !! p = d !! p.
Proof.
  induction isos as [|a isos IH]; intros d p Hp; cbn [scaffoldDir fold_left]; auto.
  fold (scaffoldDir isos). rewrite IH by (intros iso Hi; apply Hp; now right).
  destruct (existsIn d (dataPath a)); auto.
  apply lookup_insert_ne, Hp. now left.
Qed.

Lemma scaffoldDir_full (isos : list string) :
  forall d : dir,
    (forall iso, In iso isos -> is_Some (d !! dataPath iso)) -> scaffoldDir isos d = d.
Proof.
  induction isos as [|a isos IH]; intros d Hall; cbn [scaffoldDir fold_left]; auto.
  fold (scaffoldDir isos). destruct (Hall a) as [x Hx]; [now left|].
  unfold existsIn. rewrite Hx. apply IH. intros iso Hi. apply Hall. now right.
Qed.

(** Running the scaffold again changes nothing. *)
Lemma scaffoldDir_idempotent (isos : list string) (d : dir) :
  scaffoldDir isos (scaffoldDir isos d) = scaffoldDir isos d.
Proof.
  apply scaffoldDir_full. intros iso Hin.
  destruct (d !! dataPath iso) as [x|] eqn:E.
  - rewrite (scaffoldDir_keeps isos d _ x E). eauto.
  - rewrite (scaffoldDir_creates isos d iso Hin E). eauto.
Qed.

(** C8, where the script departs from it.  On a range address without a
    file the script writes [emptyDay]: the date and the three legacy
    categories [continental_congress], [battles], [letters_and_deeds] as
    empty sequences.  None of the four category keys of a record is in it,
    so the audit of the one-file store it makes counts four missing keys.
    The rest of the claim holds: the run ends, visits the 367 addresses
    from the first to the last day, leaves an existing file as it is and
    changes nothing when run again. *)
Theorem C8_scaffold_writes_legacy_shape :
  (forall iso,
      emptyDay iso = [("date", JStr iso); ("continental_congress", JArr []);
                      ("battles", JArr []); ("letters_and_deeds", JArr [])] /\
      forall k, In k Promote.KEYS -> hasOwnProperty (emptyDay iso) k = false) /\
  (forall fs iso,
      In iso projectAddresses ->
      default ∅ (dataDir fs) !! dataPath iso = None ->
      exists r d, run 400 fs = Some r /\ dataDir (fs_after r) = Some d /\
                  d !! dataPath iso = Some (Doc (emptyDay iso))) /\
  option_map Audit.missingKeys
    (Audit.printed (Audit.main
       {| dataDir := Some {[ dataPath "1775-07-04" := Doc (emptyDay "1775-07-04") ]};
          intakeDir := ∅ |})) = Some 4%nat /\
  (forall fs iso x,
      default ∅ (dataDir fs) !! dataPath iso = Some x ->
      exists r d, run 400 fs = Some r /\ dataDir (fs_after r) = Some d /\
                  d !! dataPath iso = Some x) /\
  (forall fs r, run 400 fs = Some r ->
                exists r', run 400 (fs_after r) = Some r' /\ fs_after r' = fs_after r).
Proof.
  split; [|split; [|split; [|split]]].
  - intros iso. split; [reflexivity|].
    intros k [<-|[<-|[<-|[<-|[]]]]]; reflexivity.
  - intros fs iso Hin Hnone. destruct (run_total fs) as (r & Hr & _ & Hfs & _).
    exists r, (scaffoldDir projectAddresses (default ∅ (dataDir fs))).
    rewrite Hfs. repeat split; auto. now apply scaffoldDir_creates.
  - vm_compute. reflexivity.
  - intros fs iso x Hx. destruct (run_total fs) as (r & Hr & _ & Hfs & _).
    exists r, (scaffoldDir projectAddresses (default ∅ (dataDir fs))).
    rewrite Hfs. repeat split; auto. now apply scaffoldDir_keeps.
  - intros fs r Hr. destruct (run_total fs) as (r0 & Hr0 & _ & Hfs & _).
    rewrite Hr in Hr0. injection Hr0 as <-.
    destruct (run_total (fs_after r)) as (r' & Hr' & _ & Hfs' & _).
    exists r'. split; auto. rewrite Hfs', Hfs. cbn [dataDir intakeDir default from_option id].
    now rewrite scaffoldDir_idempotent.
Qed.

End ScaffoldFacts.

(** ** Dates of the scaffold script *)

Module DateFacts.
Import Js Json Store Scaffold DateSpec.

Lemma allFrom_spec (p : Z -> bool) (n : nat) :
  forall z, allFrom p n z = true -> forall k, z <= k < z + Z.of_nat n -> p k = true.
Proof.
  induction n as [|n IH]; intros z H k Hk; [lia|].
  cbn [allFrom] in H. apply andb_true_iff in H as [Hz Hr].
  destruct (Z.eq_dec k z) as [->|Hne]; auto. apply (IH (z + 1)); auto. lia.
Qed.

Lemma doe_checked (doe : Z) : 0 <= doe < 146097 -> doeChecked doe = true.
Proof.
  intros H. unfold doeChecked, civilOfDoe, doeOfCivil.
  set (yoe := (doe - doe / 1460 + doe / 36524 - doe / 146096) / 365).
  set (doy := doe - (365 * yoe + yoe / 4 - yoe / 100)).
  assert (Hy : 0 <= yoe <= 399 /\ 0 <= doy <= 365).
  { subst doy yoe. Z.div_mod_to_equations. lia. }
  set (mp := (5 * doy + 2) / 153).
  assert (Hmp : 0 <= mp <= 11) by (subst mp; Z.div_mod_to_equations; lia).
  assert (Hd : 1 <= doy - (153 * mp + 2) / 5 + 1 <= 31).
  { subst mp. Z.div_mod_to_equations. lia. }
  set (m := if mp <? 10 then mp + 3 else mp - 9).
  assert (Hm : 1 <= m <= 12 /\ (if 2 <? m then m - 3 else m + 9) = mp).
  { subst m. destruct (mp <? 10) eqn:E; [apply Z.ltb_lt in E|apply Z.ltb_ge in E].
    - replace (2 <? mp + 3) with true by (symmetry; apply Z.ltb_lt; lia). lia.
    - replace (2 <? mp - 9) with false by (symmetry; apply Z.ltb_ge; lia). lia. }
  destruct Hm as [Hm ->].
  repeat (apply andb_true_iff; split); try (apply Z.leb_le; lia).
  apply Z.eqb_eq. subst doy. lia.
Qed.

(** The two conversions behind the [Date] of the script are inverse to each
    other on every day, and a day has a month from 1 to 12 and a day of
    month from 1 to 31. *)
Lemma civil_of_day (z : Z) :
  1 <= (civilFromDay z).1.2 <= 12 /\
  1 <= (civilFromDay z).2 <= 31 /\
  dayFromCivil (civilFromDay z).1.1 (civilFromDay z).1.2 (civilFromDay z).2 = z.
Proof.
  set (era := (z + 719468) / 146097).
  set (doe := z + 719468 - era * 146097).
  assert (Hdoe : 0 <= doe < 146097).
  { unfold doe, era. pose proof (Z.div_mod (z + 719468) 146097 ltac:(lia)).
    pose proof (Z.mod_pos_bound (z + 719468) 146097 ltac:(lia)). lia. }
  pose proof (doe_checked doe Hdoe) as Hc. unfold doeChecked in Hc.
  destruct (civilOfDoe doe) as [[yoe m] d] eqn:E.
  rewrite !andb_true_iff in Hc. destruct Hc as [[[[[[H1 H2] H3] H4] H5] H6] H7].
  apply Z.leb_le in H1, H2, H3, H4, H5, H6. apply Z.eqb_eq in H7.
  assert (Hcivil : civilFromDay z = ((if m <=? 2 then yoe + era * 400 + 1 else yoe + era * 400), m, d)).
  { unfold civilFromDay. fold era. fold doe. unfold civilOfDoe in E.
    injection E as <- <- <-. reflexivity. }
  rewrite Hcivil. cbn [fst snd]. repeat split; try lia.
  unfold dayFromCivil. unfold doeOfCivil in H7.
  assert (Hy : (if m <=? 2 then (if m <=? 2 then yoe + era * 400 + 1 else yoe + era * 400) - 1
                else (if m <=? 2 then yoe + era * 400 + 1 else yoe + era * 400))
               = yoe + era * 400) by (destruct (m <=? 2); lia).
  rewrite Hy.
  assert (Hera : (yoe + era * 400) / 400 = era)
    by (rewrite Z.div_add by lia; rewrite Z.div_small by lia; lia).
  rewrite Hera. replace (yoe + era * 400 - era * 400) with yoe by lia.
  unfold doe in H7. lia.
Qed.

End DateFacts.

Module DateShapeFacts.
Import Js Json Store Scaffold ScaffoldSpec DateSpec DateShapeSpec JsonFacts StoreFacts DateFacts ScaffoldFacts.

Lemma years_checked : allFrom yearChecked (Z.to_nat 9000) 1000 = true.
Proof. vm_compute. reflexivity. Qed.

Lemma fields_checked : allFrom fieldChecked (Z.to_nat 31) 1 = true.
Proof. vm_compute. reflexivity. Qed.

Lemma digit_not_dash (c : ascii) : Promote.isDigit c = true -> Ascii.eqb c "-"%char = false.
Proof.
  intros H. destruct (Ascii.eqb_spec c "-"%char) as [->|]; [discriminate|reflexivity].
Qed.

(** Three digit fields joined by dashes have the shape of a date and split
    back into the three fields. *)
Lemma joined_fields (a b c : string) :
  fourDigits a = true -> twoDigits b = true -> twoDigits c = true ->
  Promote.isIsoDate (a ++ "-" ++ b ++ "-" ++ c) = true /\
  split "-"%char (a ++ "-" ++ b ++ "-" ++ c) = [a; b; c].
Proof.
  unfold fourDigits, twoDigits.
  destruct a as [|a1 [|a2 [|a3 [|a4 [|]]]]]; try discriminate.
  destruct b as [|b1 [|b2 [|]]]; try discriminate.
  destruct c as [|c1 [|c2 [|]]]; try discriminate.
  cbn [list_ascii_of_string]. rewrite !andb_true_iff.
  intros [[[A1 A2] A3] A4] [B1 B2] [C1 C2].
  split.
  - unfold Promote.isIsoDate. simpl.
    now rewrite A1, A2, A3, A4, B1, B2, C1, C2.
  - simpl.
    rewrite !(digit_not_dash _ A1), !(digit_not_dash _ A2), !(digit_not_dash _ A3),
      !(digit_not_dash _ A4), !(digit_not_dash _ B1), !(digit_not_dash _ B2),
      !(digit_not_dash _ C1), !(digit_not_dash _ C2).
    reflexivity.
Qed.

Lemma dayFromCivil_day (y m d : Z) : dayFromCivil y m d = dayFromCivil y m 1 + d - 1.
Proof. unfold dayFromCivil. lia. Qed.

Lemma DateUTC_civil (y m d : Z) :
  1 <= m <= 12 -> DateUTC y (m - 1) d = dayFromCivil y m d.
Proof.
  intros Hm. unfold DateUTC.
  rewrite Z.div_small, Z.mod_small by lia.
  replace (y + 0) with y by lia. replace (m - 1 + 1) with m by lia.
  rewrite (dayFromCivil_day y m d). lia.
Qed.

(** The three fields of the address of a date with a four-digit year. *)
Lemma toIso_fields (dt : Z) :
  1000 <= getUTCFullYear dt <= 9999 ->
  exists y m d,
    toIso dt = y ++ "-" ++ m ++ "-" ++ d /\
    fourDigits y = true /\ twoDigits m = true /\ twoDigits d = true /\
    Number_of_digits y = getUTCFullYear dt /\
    Number_of_digits m = getUTCMonth dt + 1 /\
    Number_of_digits d = getUTCDate dt.
Proof.
  intros Hy. destruct (civil_of_day dt) as (Hm & Hd & _).
  unfold getUTCFullYear in Hy.
  pose proof (allFrom_spec _ _ _ years_checked (civilFromDay dt).1.1 ltac:(lia)) as Hyc.
  pose proof (allFrom_spec _ _ _ fields_checked (civilFromDay dt).1.2 ltac:(lia)) as Hmc.
  pose proof (allFrom_spec _ _ _ fields_checked (civilFromDay dt).2 ltac:(lia)) as Hdc.
  unfold yearChecked, fieldChecked in *.
  apply andb_true_iff in Hyc as [Hy4 Hyv], Hmc as [Hm2 Hmv], Hdc as [Hd2 Hdv].
  apply Z.eqb_eq in Hyv, Hmv, Hdv.
  exists (String_of (getUTCFullYear dt)), (pad2 (getUTCMonth dt + 1)), (pad2 (getUTCDate dt)).
  unfold toIso, getUTCFullYear, getUTCMonth, getUTCDate.
  replace ((civilFromDay dt).1.2 - 1 + 1) with (civilFromDay dt).1.2 by lia.
  repeat split; assumption.
Qed.

(** Setting the day of the month of a date to its own plus [k] gives the
    date [k] days on. *)
Lemma DateUTC_back (dt k : Z) :
  DateUTC (getUTCFullYear dt) (getUTCMonth dt) (getUTCDate dt + k) = dt + k.
Proof.
  destruct (civil_of_day dt) as (Hm & _ & Hz).
  unfold getUTCFullYear, getUTCMonth, getUTCDate.
  rewrite DateUTC_civil by exact Hm.
  rewrite dayFromCivil_day. rewrite dayFromCivil_day in Hz. lia.
Qed.

(** X2.  Within the range of a [Date], 100,000,000 days either side of the
    epoch, [addDays] of the scaffold script moves a date by exactly [n]
    days, over the ends of months and years and over leap days alike: the
    date [setUTCDate] leaves is a valid one, the day [dt + n].  So moving
    back by [n] undoes moving on by [n], and two moves that stay in the
    range add up.  (Beyond the range [setUTCDate] leaves an Invalid Date,
    which the day numbers of [addDays] do not represent.) *)
Theorem addDays_shifts_by_days (dt n : Z) :
  Z.abs dt <= 100000000 ->
  Z.abs (dt + n) <= 100000000 ->
  Pages.setUTCDate dt (getUTCDate dt + n) = Some (addDays dt n) /\
  addDays dt n = dt + n /\
  addDays (addDays dt n) (- n) = dt /\
  (forall k, Z.abs (dt + n + k) <= 100000000 ->
             Pages.setUTCDate (addDays dt n) (getUTCDate (addDays dt n) + k)
             = Some (addDays dt (n + k)) /\
             addDays (addDays dt n) k = addDays dt (n + k)).
Proof.
  intros Hdt Hn.
  assert (H : forall z k, addDays z k = z + k).
  { intros z k. unfold addDays. apply DateUTC_back. }
  assert (Hset : forall z k, Z.abs (z + k) <= 100000000 ->
                             Pages.setUTCDate z (getUTCDate z + k) = Some (z + k)).
  { intros z k Hk. unfold Pages.setUTCDate, Pages.TimeClip. rewrite DateUTC_back.
    now apply Z.leb_le in Hk as ->. }
  split; [rewrite H; now apply Hset|]. split; [apply H|].
  split; [rewrite !H; lia|].
  intros k Hk. rewrite !H. split; [|lia].
  rewrite Hset by exact Hk. f_equal. lia.
Qed.

(** X2 at work: the day after 4 July 1775. *)
Lemma addDays_shifts_by_days_witness : addDays (-71038) 1 = -71038 + 1.
Proof.
  refine (proj1 (proj2 (addDays_shifts_by_days (-71038) 1 _ _))); cbn; lia.
Defined.

Lemma MakeFullYear_late (y : Z) : 100 <= y -> MakeFullYear y = y.
Proof.
  intros H. unfold MakeFullYear.
  destruct (0 <=? y) eqn:E1, (y <=? 99) eqn:E2; cbn; auto. lia.
Qed.

(** X3.  The address [toIso] prints for a date with a four-digit year has the
    shape YYYY-MM-DD, and [parseIso] reads the date back from it. *)
Theorem toIso_parseIso_round_trip (dt : Z) :
  1000 <= getUTCFullYear dt <= 9999 ->
  Promote.isIsoDate (toIso dt) = true /\ parseIso (toIso dt) = dt.
Proof.
  intros Hy. destruct (toIso_fields dt Hy) as (y & m & d & -> & Hy4 & Hm2 & Hd2 & Hyv & Hmv & Hdv).
  destruct (civil_of_day dt) as (Hm & Hd & Hdt).
  destruct (joined_fields _ _ _ Hy4 Hm2 Hd2) as [Hshape Hsplit].
  split; [exact Hshape|].
  unfold parseIso. rewrite Hsplit. cbn [List.map]. rewrite Hyv, Hmv, Hdv.
  rewrite MakeFullYear_late by lia.
  unfold getUTCFullYear, getUTCMonth, getUTCDate.
  replace ((civilFromDay dt).1.2 - 1 + 1 - 1) with ((civilFromDay dt).1.2 - 1) by lia.
  now rewrite DateUTC_civil.
Qed.

(** The round trip on the first day of the project. *)
Lemma toIso_parseIso_round_trip_witness :
  Promote.isIsoDate (toIso (-71038)) = true /\ parseIso (toIso (-71038)) = -71038.
Proof. apply toIso_parseIso_round_trip. vm_compute. split; discriminate. Defined.

Lemma projectAddresses_NoDup : NoDup projectAddresses.
Proof. apply (bool_decide_unpack (NoDup projectAddresses)). vm_compute. exact I. Qed.

Lemma existsIn_insert_ne (d : dir) p p' x :
  p <> p' -> existsIn (<[p := x]> d) p' = existsIn d p'.
Proof. intros H. unfold existsIn. now rewrite lookup_insert_ne. Qed.

Lemma fold_visit_account (days : list Z) :
  NoDup (toIso <$> days) ->
  forall st,
    written (fold_left visit days st)
    = (written st ++ createdFiles (toIso <$> days) (files st))%list /\
    Scaffold.created (fold_left visit days st)
    = (Scaffold.created st + length (createdFiles (toIso <$> days) (files st)))%nat.
Proof.
  induction days as [|dt days IH]; intros Hnd st; cbn [fold_left fmap list_fmap].
  - unfold createdFiles; cbn. rewrite app_nil_r. split; [reflexivity|lia].
  - apply NoDup_cons in Hnd as [Hnotin Hnd].
    destruct (IH Hnd (visit st dt)) as [Hw Hc]. rewrite Hw, Hc. clear Hw Hc IH.
    unfold createdFiles; cbn [List.filter]. unfold visit.
    destruct (existsIn (files st) (dataPath (toIso dt))) eqn:E;
      cbn [files written Scaffold.created negb List.map length].
    + split; reflexivity.
    + assert (Hsame : List.filter
                (fun iso => negb (existsIn (<[dataPath (toIso dt) := Doc (emptyDay (toIso dt))]>
                                     (files st)) (dataPath iso))) (toIso <$> days)
              = List.filter (fun iso => negb (existsIn (files st) (dataPath iso)))
                  (toIso <$> days)).
      { apply filter_ext_in. intros iso Hin. rewrite existsIn_insert_ne; auto.
        intros Heq%dataPath_inj. subst iso. apply Hnotin, list_elem_of_In, Hin. }
      rewrite Hsame, <- app_assoc. cbn [app]. split; [reflexivity|lia].
Qed.

(** X4.  The books of a scaffold run: it ends, it writes exactly the empty
    day of every range address that has no file, in the order of the
    dates, [created] counts these writes and [created + skipped] is the 367
    days of the range; a file of [data/] that belongs to no range address
    and everything in [intake/] is left as it was. *)
Theorem scaffold_run_accounts (fs : FS) :
  exists r,
    run 400 fs = Some r /\
    ending_of r = Returned /\
    writes r = createdFiles projectAddresses (default ∅ (dataDir fs)) /\
    createdCount r = length (writes r) /\
    (createdCount r + skippedCount r = 367)%nat /\
    intakeDir (fs_after r) = intakeDir fs /\
    (exists d', dataDir (fs_after r) = Some d' /\
       forall p, (forall iso, In iso projectAddresses -> dataPath iso <> p) ->
                 d' !! p = default ∅ (dataDir fs) !! p).
Proof.
  unfold run. rewrite loop_visited, visited_project.
  cbn [fmap option_fmap option_map mbind option_bind].
  eexists. split; [reflexivity|].
  cbn [ending_of fs_after writes createdCount skippedCount dataDir intakeDir].
  set (st0 := {| files := default ∅ (dataDir fs); Scaffold.created := 0; skipped := 0;
                 written := [] |}).
  assert (Hst : {| files := match dataDir fs with Some d => d | None => ∅ end;
                   Scaffold.created := 0; skipped := 0; written := [] |} = st0)
    by (unfold st0; now destruct (dataDir fs)).
  rewrite Hst.
  destruct (fold_visit_account projectDays projectAddresses_NoDup st0) as [Hw Hc].
  pose proof (fold_visit_counts projectDays st0) as Hsum.
  fold projectAddresses in Hw, Hc. cbn [st0 files written Scaffold.created skipped app Nat.add] in Hw, Hc, Hsum.
  repeat split.
  - exact Hw.
  - now rewrite Hc, Hw.
  - rewrite Hsum. reflexivity.
  - eexists. split; [reflexivity|]. intros p Hp.
    rewrite fold_visit_files. cbn [st0 files]. fold projectAddresses.
    now apply scaffoldDir_other.
Qed.

End DateShapeFacts.

(** ** The project range *)

Module RangeFacts.
Import Js Json Store Calendar DateSpec RangeSpec DateFacts.

Lemma ascii_compare_trans (a b c : ascii) :
  Ascii.compare a b = Lt -> Ascii.compare b c = Lt -> Ascii.compare a c = Lt.
Proof. unfold Ascii.compare. rewrite !N.compare_lt_iff. lia. Qed.

Lemma string_compare_lt_trans (a : string) :
  forall b c, String.compare a b = Lt -> String.compare b c = Lt -> String.compare a c = Lt.
Proof.
  induction a as [|x a IH]; intros [|y b] [|z c]; cbn; try discriminate; auto.
  destruct (Ascii.compare x y) eqn:Exy; try discriminate.
  - apply Ascii.compare_eq_iff in Exy as ->.
    destruct (Ascii.compare y z); try discriminate; eauto.
  - destruct (Ascii.compare y z) eqn:Eyz; try discriminate.
    + apply Ascii.compare_eq_iff in Eyz as ->. now rewrite Exy.
    + now rewrite (ascii_compare_trans _ _ _ Exy Eyz).
Qed.

Lemma string_compare_refl (a : string) : String.compare a a = Eq.
Proof.
  induction a as [|x a IH]; cbn; auto.
  unfold Ascii.compare. now rewrite N.compare_refl.
Qed.

Lemma slt_trans a b c : slt a b -> slt b c -> slt a c.
Proof.
  unfold slt, String.ltb. intros H1 H2.
  destruct (String.compare a b) eqn:E1; try discriminate.
  destruct (String.compare b c) eqn:E2; try discriminate.
  now rewrite (string_compare_lt_trans _ _ _ E1 E2).
Qed.

Lemma slt_irrefl a : ~ slt a a.
Proof. unfold slt, String.ltb. now rewrite string_compare_refl. Qed.

Lemma sle_iff a b : sle a b <-> slt a b \/ a = b.
Proof.
  unfold sle, slt, String.leb, String.ltb. split.
  - destruct (String.compare a b) eqn:E; try discriminate; auto.
    right. now apply String.compare_eq_iff.
  - intros [H| ->]; [now destruct (String.compare a b)|now rewrite string_compare_refl].
Qed.

Lemma sle_not_slt a b : sle a b <-> ~ slt b a.
Proof.
  unfold sle, slt, String.leb, String.ltb. rewrite (String.compare_antisym b a).
  destruct (String.compare a b); cbn; split; auto; try discriminate; intros H; now destruct H.
Qed.

#[global] Instance sle_trans : Transitive sle.
Proof.
  intros a b c [H1| ->]%sle_iff [H2| ->]%sle_iff; apply sle_iff; auto.
  left. eapply slt_trans; eauto.
Qed.

#[global] Instance sle_total : Total sle.
Proof. intros a b. apply String.leb_total. Qed.

Lemma sle_slt_trans a b c : sle a b -> slt b c -> slt a c.
Proof. intros [H| ->]%sle_iff; eauto using slt_trans. Qed.

Lemma slt_sle_trans a b c : slt a b -> sle b c -> slt a c.
Proof. intros H [H'| <-]%sle_iff; eauto using slt_trans. Qed.

Lemma sle_refl a : sle a a.
Proof. apply sle_iff. now right. Qed.

Lemma inProject_iff (x : string) :
  inProject x <-> ~ slt x PROJECT_START /\ ~ slt PROJECT_END x.
Proof. unfold inProject. now rewrite !sle_not_slt. Qed.

(** The three ways of [clampToProject]. *)
Lemma clampToProject_cases (x : string) :
  (slt x PROJECT_START /\ clampToProject x = PROJECT_START) \/
  (~ slt x PROJECT_START /\ slt PROJECT_END x /\ clampToProject x = PROJECT_END) \/
  (~ slt x PROJECT_START /\ ~ slt PROJECT_END x /\ clampToProject x = x).
Proof.
  unfold clampToProject, slt.
  destruct (String.ltb x PROJECT_START); [left; auto|].
  destruct (String.ltb PROJECT_END x); right; [left|right]; repeat split; auto; discriminate.
Qed.

Lemma clampToProject_inside (s : string) : inProject s -> clampToProject s = s.
Proof.
  intros [H1 H2]%inProject_iff.
  destruct (clampToProject_cases s) as [[H _]|[(_ & H & _)|(_ & _ & ->)]]; tauto.
Qed.

Lemma clampToProject_inProject (s : string) : inProject (clampToProject s).
Proof.
  destruct (clampToProject_cases s) as [[_ ->]|[(_ & _ & ->)|(H1 & H2 & ->)]].
  - split; reflexivity.
  - split; reflexivity.
  - now apply inProject_iff.
Qed.

(** X5.  [clampToProject] returns an address inside the project range, is the
    identity exactly on the range, sends what is below the range to its
    start and what is above to its end, clamps a clamped address no
    further, and keeps the order of addresses. *)
Theorem clampToProject_clamps (s : string) :
  inProject (clampToProject s) /\
  (clampToProject s = s <-> inProject s) /\
  (slt s PROJECT_START -> clampToProject s = PROJECT_START) /\
  (slt PROJECT_END s -> clampToProject s = PROJECT_END) /\
  clampToProject (clampToProject s) = clampToProject s /\
  (forall t, sle s t -> sle (clampToProject s) (clampToProject t)).
Proof.
  assert (Hse : slt PROJECT_START PROJECT_END) by reflexivity.
  pose proof (clampToProject_inProject s) as Hcl.
  split; [exact Hcl|]. split; [|split; [|split; [|split]]].
  - split; [intros <-; exact Hcl|apply clampToProject_inside].
  - intros H. destruct (clampToProject_cases s) as [[_ ->]|[(H1 & _)|(H1 & _)]]; tauto.
  - intros H. destruct (clampToProject_cases s) as [[H1 _]|[(_ & _ & ->)|(_ & H2 & _)]];
      try tauto.
    exfalso. apply (slt_irrefl s). eauto using slt_trans.
  - now apply clampToProject_inside.
  - intros t Hst.
    destruct (clampToProject_cases s) as [[Hs ->]|[(Hs1 & Hs2 & ->)|(Hs1 & Hs2 & ->)]];
      destruct (clampToProject_cases t) as [[Ht ->]|[(Ht1 & Ht2 & ->)|(Ht1 & Ht2 & ->)]].
    + apply sle_refl.
    + apply sle_iff. now left.
    + now apply sle_not_slt.
    + destruct Hs1. eauto using sle_slt_trans.
    + apply sle_refl.
    + destruct Ht2. eauto using slt_sle_trans.
    + destruct Hs1. eauto using sle_slt_trans.
    + now apply sle_not_slt.
    + exact Hst.
Qed.

End RangeFacts.

(** ** The pages *)

Module PagesFacts.
Import Js Json Store Calendar Pages RangeSpec DateShapeSpec DateSpec PagesSpec.
Import JsonFacts DateFacts DateShapeFacts RangeFacts ScaffoldSpec ScaffoldFacts.

Lemma months_checked : allFrom monthChecked 12 1 = true.
Proof. vm_compute. reflexivity. Qed.

Lemma dates_checked : allFrom dateChecked 366 firstDay = true.
Proof. vm_compute. reflexivity. Qed.

Lemma addresses_checked : allFrom addressChecked 367 firstDay = true.
Proof. vm_compute. reflexivity. Qed.

Lemma years_in_range : allFrom yearInRange 369 (firstDay - 1) = true.
Proof. vm_compute. reflexivity. Qed.

Lemma day_checked (m d : Z) : 1 <= m <= 12 -> 1 <= d <= daysIn m -> dayChecked m d = true.
Proof.
  intros Hm Hd.
  pose proof (allFrom_spec _ _ _ months_checked m ltac:(lia)) as H.
  apply (allFrom_spec _ _ _ H). unfold daysIn in *.
  repeat match goal with |- context [if ?b then _ else _] => destruct b end; lia.
Qed.

Lemma project_year (dt : Z) :
  firstDay - 1 <= dt <= lastDay + 1 -> 1000 <= Scaffold.getUTCFullYear dt <= 9999.
Proof.
  intros H. pose proof (allFrom_spec _ _ _ years_in_range dt) as Hc.
  unfold yearInRange, firstDay, lastDay in *.
  specialize (Hc ltac:(lia)). apply andb_true_iff in Hc. lia.
Qed.

Lemma address_checked (dt : Z) :
  firstDay <= dt <= lastDay ->
  clampToProject (Scaffold.toIso dt) = Scaffold.toIso dt /\
  String.eqb (Scaffold.toIso dt) PROJECT_START = (dt =? firstDay) /\
  String.eqb (Scaffold.toIso dt) PROJECT_END = (dt =? lastDay).
Proof.
  intros H. pose proof (allFrom_spec _ _ _ addresses_checked dt) as Hc.
  unfold addressChecked, firstDay, lastDay in *. specialize (Hc ltac:(lia)).
  apply andb_true_iff in Hc as [Hc H3]. apply andb_true_iff in Hc as [H1 H2].
  apply String.eqb_eq in H1. apply Bool.eqb_prop in H2, H3. auto.
Qed.

Lemma In_projectDays (dt : Z) : firstDay <= dt <= lastDay -> In dt projectDays.
Proof.
  intros H. apply list_elem_of_In, elem_of_seqZ. unfold firstDay, lastDay in H. lia.
Qed.

Lemma In_projectAddresses (dt : Z) :
  firstDay <= dt <= lastDay -> In (Scaffold.toIso dt) projectAddresses.
Proof. intros H. apply in_map, In_projectDays, H. Qed.

Lemma truncate_inject_Z (z : Z) : truncate (inject_Z z) = z.
Proof. unfold truncate. cbn. apply Z.quot_1_r. Qed.

Lemma truncate_minus1 (z : Z) : truncate (inject_Z z - 1)%Q = z - 1.
Proof. unfold truncate. cbn. rewrite Z.quot_1_r. lia. Qed.

Lemma TimeClip_near (day : Z) : Z.abs day <= 100000000 -> TimeClip day = Some day.
Proof. intros H. unfold TimeClip. now apply Z.leb_le in H as ->. Qed.

(** The address of a date splits into its three fields. *)
Lemma shaped_fields (v : string) :
  Promote.isIsoDate v = true ->
  exists y m d, v = y ++ "-" ++ m ++ "-" ++ d /\
                fourDigits y = true /\ twoDigits m = true /\ twoDigits d = true.
Proof.
  unfold Promote.isIsoDate.
  destruct v as [|y1 [|y2 [|y3 [|y4 [|s1 [|m1 [|m2 [|s2 [|d1 [|d2 [|]]]]]]]]]]];
    try discriminate.
  cbn [list_ascii_of_string]. rewrite !andb_true_iff. unfold Promote.isDash.
  intros [[[[[[[[[Y1 Y2] Y3] Y4] S1] M1] M2] S2] D1] D2].
  apply Ascii.eqb_eq in S1 as ->, S2 as ->.
  exists (String y1 (String y2 (String y3 (String y4 "")))),
         (String m1 (String m2 "")), (String d1 (String d2 "")).
  unfold fourDigits, twoDigits. cbn [list_ascii_of_string].
  now rewrite Y1, Y2, Y3, Y4, M1, M2, D1, D2.
Qed.

Lemma route_of_fields (y m d : string) :
  fourDigits y = true -> twoDigits m = true -> twoDigits d = true ->
  isoToRoute (y ++ "-" ++ m ++ "-" ++ d) = "/" ++ y ++ "/" ++ m ++ "/" ++ d.
Proof.
  intros Hy Hm Hd. unfold isoToRoute.
  destruct (joined_fields _ _ _ Hy Hm Hd) as [_ ->]. reflexivity.
Qed.

Section Builtins.

Variable trim : string -> string.
Variable Number : string -> Promote.number.

Lemma DateUTC_fields (y m d : string) :
  readsFields Number ->
  fourDigits y = true -> twoDigits m = true -> twoDigits d = true ->
  100 <= Number_of_digits y ->
  DateUTC (numberAt Number [y; m; d] 0) (Promote.minus1 (numberAt Number [y; m; d] 1))
          (numberAt Number [y; m; d] 2)
  = TimeClip (Scaffold.DateUTC (Number_of_digits y) (Number_of_digits m - 1)
                (Number_of_digits d)).
Proof.
  intros Hnum Hy4 Hm2 Hd2 Hy.
  unfold numberAt. cbn [nth_error].
  rewrite (Hnum y), (Hnum m), (Hnum d) by auto.
  cbn [Promote.minus1]. unfold DateUTC.
  rewrite !truncate_inject_Z, truncate_minus1.
  rewrite MakeFullYear_late by lia. reflexivity.
Qed.

(** On the address of a date, [addDays] of calendar.ts moves by days. *)
Lemma addDays_address (dt delta : Z) :
  readsFields Number ->
  1000 <= Scaffold.getUTCFullYear dt <= 9999 ->
  Z.abs dt <= 100000000 -> Z.abs (dt + delta) <= 100000000 ->
  addDays Number (Scaffold.toIso dt) delta = Scaffold.toIso (dt + delta).
Proof.
  intros Hnum Hy Hdt Hdt'.
  destruct (toIso_fields dt Hy) as (y & m & d & E & Hy4 & Hm2 & Hd2 & Hyv & Hmv & Hdv).
  destruct (joined_fields _ _ _ Hy4 Hm2 Hd2) as [_ Hs].
  unfold addDays. rewrite E, Hs.
  rewrite DateUTC_fields by (auto; lia).
  rewrite Hyv, Hmv, Hdv.
  replace (Scaffold.getUTCMonth dt + 1 - 1) with (Scaffold.getUTCMonth dt) by lia.
  rewrite <- (Z.add_0_r (Scaffold.getUTCDate dt)), DateUTC_back, Z.add_0_r.
  rewrite (TimeClip_near dt Hdt). unfold setUTCDate.
  rewrite DateUTC_back, (TimeClip_near _ Hdt'). reflexivity.
Qed.

(** The header of the page of a date is formatted from that date. *)
Lemma formatIsoHuman_address (dt : Z) :
  readsFields Number ->
  1000 <= Scaffold.getUTCFullYear dt <= 9999 ->
  Z.abs dt <= 100000000 ->
  formatIsoHuman Number (Scaffold.toIso dt) = Some dt.
Proof.
  intros Hnum Hy Hdt.
  destruct (toIso_fields dt Hy) as (y & m & d & E & Hy4 & Hm2 & Hd2 & Hyv & Hmv & Hdv).
  destruct (joined_fields _ _ _ Hy4 Hm2 Hd2) as [_ Hs].
  unfold formatIsoHuman. rewrite E, Hs.
  rewrite DateUTC_fields by (auto; lia).
  rewrite Hyv, Hmv, Hdv.
  replace (Scaffold.getUTCMonth dt + 1 - 1) with (Scaffold.getUTCMonth dt) by lia.
  rewrite <- (Z.add_0_r (Scaffold.getUTCDate dt)), DateUTC_back, Z.add_0_r.
  apply TimeClip_near, Hdt.
Qed.

(** X6.  Previous and Next of a day page walk the project range one day at
    a time and stop at its ends.  For the page of a project date, given as
    the three parameters its address splits into, the page is never the
    out-of-range notice; Previous leads to the address of the day before
    and is disabled on the first day of the project, Next leads to the
    address of the day after and is disabled on the last day; the record
    shown is the one [data/] holds under the address, and a file that does
    not parse fails the rendering.  The route of each address of the range
    carries its three fields, so the page a link leads to is again the page
    of a project date. *)
Theorem day_page_walks_the_range (fs : FS) (dt : Z) (year month day : string) :
  readsFields Number ->
  firstDay <= dt <= lastDay ->
  year ++ "-" ++ month ++ "-" ++ day = Scaffold.toIso dt ->
  DayPage Number fs year month day
  = match loadDayData fs (Scaffold.toIso dt) with
    | ParseError => RenderError
    | l => Day (if dt =? firstDay then None
                else Some (isoToRoute (Scaffold.toIso (dt - 1))))
               (if dt =? lastDay then None
                else Some (isoToRoute (Scaffold.toIso (dt + 1))))
               (recordOf l)
    end /\
  (forall dt', firstDay <= dt' <= lastDay ->
     exists y m d, y ++ "-" ++ m ++ "-" ++ d = Scaffold.toIso dt' /\
                   isoToRoute (Scaffold.toIso dt') = "/" ++ y ++ "/" ++ m ++ "/" ++ d).
Proof.
  intros Hnum Hdt E. split.
  - destruct (address_checked dt Hdt) as (Hc & Hs & He).
    unfold DayPage. rewrite E, Hc, String.eqb_refl. cbn [negb]. rewrite Hs, He.
    unfold firstDay, lastDay in *.
    rewrite !addDays_address; auto; try lia; try (apply project_year; unfold firstDay, lastDay; lia).
    rewrite formatIsoHuman_address;
      auto; try lia; try (apply project_year; unfold firstDay, lastDay; lia).
    replace (dt + -1) with (dt - 1) by lia.
    assert (Hp : (dt =? -71038) = false ->
                 clampToProject (Scaffold.toIso (dt - 1)) = Scaffold.toIso (dt - 1)).
    { intros Hne. apply Z.eqb_neq in Hne. apply address_checked. unfold firstDay, lastDay. lia. }
    assert (Hn : (dt =? -70672) = false ->
                 clampToProject (Scaffold.toIso (dt + 1)) = Scaffold.toIso (dt + 1)).
    { intros Hne. apply Z.eqb_neq in Hne. apply address_checked. unfold firstDay, lastDay. lia. }
    destruct (loadDayData fs (Scaffold.toIso dt)); auto;
      destruct (dt =? -71038), (dt =? -70672); cbn [recordOf];
      rewrite ?Hp, ?Hn; auto.
  - intros dt' Hdt'.
    destruct (toIso_fields dt') as (y & m & d & E' & Hy4 & Hm2 & Hd2 & _).
    { apply project_year. lia. }
    exists y, m, d. rewrite E'. split; auto using route_of_fields.
Qed.

(** X7.  An address with a field that is no number is never rendered as a
    day.  If [Number] makes no finite number of the year, the month or the
    day of [iso] (or the field is missing), the date [formatIsoHuman]
    builds for the header is invalid, so that formatting it throws;
    [addDays] prints the invalid date as [NaN-NaN-NaN], whatever the shift,
    and [clampToProject] turns that into the last day of the project.  So
    the page of such an address fails to render when the address lies
    inside the range by the order of strings, and is the out-of-range
    notice when it lies outside. *)
Theorem malformed_address_is_never_rendered (fs : FS) (year month day : string) (i : nat) :
  let iso := year ++ "-" ++ month ++ "-" ++ day in
  (i < 3)%nat ->
  Promote.isFinite (numberAt Number (split "-"%char iso) i) = false ->
  formatIsoHuman Number iso = None /\
  (forall delta, addDays Number iso delta = invalidDate /\
                 clampToProject (addDays Number iso delta) = PROJECT_END) /\
  (inProject iso -> DayPage Number fs year month day = RenderError) /\
  (~ inProject iso ->
   DayPage Number fs year month day = OutOfRangePage (isoToRoute (clampToProject iso))) /\
  (forall previous next data, DayPage Number fs year month day <> Day previous next data).
Proof.
  intros iso Hi Hnan.
  assert (Hdate : DateUTC (numberAt Number (split "-"%char iso) 0)
                    (Promote.minus1 (numberAt Number (split "-"%char iso) 1))
                    (numberAt Number (split "-"%char iso) 2) = None).
  { unfold DateUTC.
    destruct i as [|[|[|i]]]; [| | |lia];
      destruct (numberAt Number (split "-"%char iso) 0) as [| |y];
      destruct (numberAt Number (split "-"%char iso) 1) as [| |m];
      destruct (numberAt Number (split "-"%char iso) 2) as [| |d];
      try discriminate; reflexivity. }
  assert (Hfmt : formatIsoHuman Number iso = None) by exact Hdate.
  assert (Hadd : forall delta, addDays Number iso delta = invalidDate).
  { intros delta. unfold addDays. now rewrite Hdate. }
  assert (Hinside : inProject iso -> DayPage Number fs year month day = RenderError).
  { intros Hin. apply clampToProject_inside in Hin.
    unfold DayPage. fold iso. rewrite Hin, String.eqb_refl, Hfmt. cbn [negb].
    now destruct (loadDayData fs iso). }
  assert (Houtside : ~ inProject iso ->
            DayPage Number fs year month day
            = OutOfRangePage (isoToRoute (clampToProject iso))).
  { intros Hout. unfold DayPage. fold iso.
    destruct (String.eqb_spec (clampToProject iso) iso) as [Heq|Hne]; [|reflexivity].
    exfalso. apply Hout. rewrite <- Heq. apply clampToProject_inProject. }
  split; [exact Hfmt|]. split; [|split; [exact Hinside|split; [exact Houtside|]]].
  - intros delta. rewrite Hadd. split; reflexivity.
  - intros previous next data.
    destruct (String.eqb_spec (clampToProject iso) iso) as [Heq|Hne].
    + rewrite Hinside; [discriminate|]. rewrite <- Heq. apply clampToProject_inProject.
    + rewrite Houtside; [discriminate|]. intros Hin. apply Hne.
      now apply clampToProject_inside.
Qed.

(** X8.  What the jump field does with its text.  [go] reports a bad format
    exactly when the trimmed text has not the shape YYYY-MM-DD, reports
    out of range exactly when a shaped text lies below [min] or above
    [max] in the order of strings, and otherwise pushes the route
    [/YYYY/MM/DD] of the text.  With the bounds the pages pass, the page
    the route leads to is never the out-of-range notice. *)
Theorem date_jump_pushes_only_addresses_in_range (min max value : string) :
  (go trim min max value = BadFormat <-> Promote.isIsoDate (trim value) = false) /\
  (go trim min max value = OutOfRange <->
     Promote.isIsoDate (trim value) = true /\ (slt (trim value) min \/ slt max (trim value))) /\
  (forall route, go trim min max value = Push route <->
     Promote.isIsoDate (trim value) = true /\ sle min (trim value) /\ sle (trim value) max /\
     route = isoToRoute (trim value)) /\
  (forall route, go trim min max value = Push route ->
     exists y m d,
       trim value = y ++ "-" ++ m ++ "-" ++ d /\
       route = "/" ++ y ++ "/" ++ m ++ "/" ++ d /\
       (min = PROJECT_START -> max = PROJECT_END ->
        forall fs href, DayPage Number fs y m d <> OutOfRangePage href)).
Proof.
  assert (Hor : forall a b, a || b = true <-> a = true \/ b = true)
    by (intros [] []; cbn; tauto).
  assert (Hcase : (Promote.isIsoDate (trim value) = false /\ go trim min max value = BadFormat) \/
                  (Promote.isIsoDate (trim value) = true /\
                   (slt (trim value) min \/ slt max (trim value)) /\
                   go trim min max value = OutOfRange) \/
                  (Promote.isIsoDate (trim value) = true /\
                   sle min (trim value) /\ sle (trim value) max /\
                   go trim min max value = Push (isoToRoute (trim value)))).
  { unfold go. destruct (Promote.isIsoDate (trim value)); cbn [negb]; [right|left; auto].
    destruct (String.ltb (trim value) min || String.ltb max (trim value)) eqn:E.
    - left. apply Hor in E. auto.
    - right. apply orb_false_iff in E as [E1 E2].
      repeat split; auto; apply sle_not_slt; unfold slt; congruence. }
  assert (Hex : forall a b, slt a b -> sle b a -> False).
  { intros a b H1 H2. apply sle_not_slt in H2. auto. }
  split; [|split; [|split]].
  - destruct Hcase as [[H ->]|[(H & _ & ->)|(H & _ & _ & ->)]];
      split; auto; try discriminate; congruence.
  - destruct Hcase as [[H ->]|[(H & Ho & ->)|(H & H1 & H2 & ->)]].
    + split; [discriminate|]. intros [H' _]. congruence.
    + tauto.
    + split; [discriminate|]. intros [_ [H'|H']]; exfalso; eauto.
  - intros route. destruct Hcase as [[H ->]|[(H & Ho & ->)|(H & H1 & H2 & ->)]].
    + split; [discriminate|]. intros [H' _]. congruence.
    + split; [discriminate|]. intros (_ & H1 & H2 & _). destruct Ho; exfalso; eauto.
    + split; [intros [= <-]; auto|]. intros (_ & _ & _ & ->). reflexivity.
  - intros route Hgo.
    destruct Hcase as [[H E]|[(H & Ho & E)|(H & H1 & H2 & E)]]; rewrite E in Hgo;
      try discriminate.
    injection Hgo as <-.
    destruct (shaped_fields _ H) as (y & m & d & Ev & Hy & Hm & Hd).
    exists y, m, d. split; [exact Ev|]. split.
    + rewrite Ev. now apply route_of_fields.
    + intros -> -> fs href. unfold DayPage. rewrite <- Ev.
      rewrite (clampToProject_inside _ (conj H1 H2)), String.eqb_refl. cbn [negb].
      destruct (loadDayData fs (trim value)); try discriminate;
        destruct (formatIsoHuman Number (trim value)); discriminate.
Qed.

End Builtins.

Lemma shown_firstn (data : option obj) (key : string) (cap : nat) :
  shown data key cap
  = firstn cap (match data with Some o => entries o key | None => [] end).
Proof.
  unfold shown, fieldOrEmpty, clampEntries, entries.
  destruct data as [o|]; [|now destruct cap].
  destruct (obj_get o key) as [[| | | |items|]|]; cbn;
    try (now destruct cap);
    repeat match goal with |- context [if ?b then _ else _] => destruct b end;
    cbn; auto; now destruct cap.
Qed.

(** X9.  The caps the page renders its sections with are the caps of the
    promotion, and a section shows the first entries of its category up to
    the cap and no others: nothing when the file is missing or the category
    holds no array, the whole category when the record is within its caps,
    and never more than the cap however many entries the file carries. *)
Theorem page_shows_a_category_up_to_its_cap (data : option obj) (key : string) (cap : nat) :
  In (key, cap) sectionCaps ->
  sectionCaps = Promote.CAPS /\
  shown data key cap
  = firstn cap (match data with Some o => entries o key | None => [] end) /\
  (length (shown data key cap) <= cap)%nat /\
  (forall o, data = Some o -> PromoteSpec.within_caps o -> shown data key cap = entries o key).
Proof.
  intros Hin.
  split; [reflexivity|]. split; [apply shown_firstn|]. split.
  - rewrite shown_firstn. rewrite length_firstn. lia.
  - intros o -> Hcaps. rewrite shown_firstn. apply firstn_all2. apply Hcaps.
    cbn in Hin. destruct Hin as [[= <- <-]|[[= <- <-]|[[= <- <-]|[[= <- <-]|[]]]]]; reflexivity.
Qed.

(** X10.  The home page looks up the day's own address, and that address is a
    project date.  For every month and day of the calendar, the leap day
    included, the mapped address is the address of a date of the project
    range with that month and day, the clamp of [Home] leaves it as it is,
    and it is never the last day of the project, 4 July 1776; conversely
    every project date but the last is the mapped address of its own month
    and day. *)
Theorem home_address_is_a_project_date :
  (forall m d, 1 <= m <= 12 -> 1 <= d <= daysIn m ->
     firstDay <= mappedDay m d < lastDay /\
     todayMappedIso (wallClock m d) = Scaffold.toIso (mappedDay m d) /\
     Scaffold.getUTCMonth (mappedDay m d) + 1 = m /\
     Scaffold.getUTCDate (mappedDay m d) = d /\
     homeAddress (wallClock m d) = todayMappedIso (wallClock m d) /\
     todayMappedIso (wallClock m d) <> PROJECT_END) /\
  (forall dt, firstDay <= dt < lastDay ->
     1 <= Scaffold.getUTCMonth dt + 1 <= 12 /\
     1 <= Scaffold.getUTCDate dt <= daysIn (Scaffold.getUTCMonth dt + 1) /\
     todayMappedIso (wallClock (Scaffold.getUTCMonth dt + 1) (Scaffold.getUTCDate dt))
     = Scaffold.toIso dt).
Proof.
  split.
  - intros m d Hm Hd. pose proof (day_checked m d Hm Hd) as H.
    unfold dayChecked in H. rewrite !andb_true_iff in H.
    destruct H as [[[[[[H1 H2] H3] H4] H5] H6] H7].
    apply String.eqb_eq in H3, H6. apply negb_true_iff, String.eqb_neq in H7.
    unfold homeAddress. repeat split; auto; lia.
  - intros dt Hdt. pose proof (allFrom_spec _ _ _ dates_checked dt) as H.
    unfold firstDay, lastDay in *. specialize (H ltac:(lia)).
    unfold dateChecked in H. rewrite !andb_true_iff in H.
    destruct H as [[[[H1 H2] H3] H4] H5]. apply String.eqb_eq in H5.
    repeat split; auto; lia.
Qed.

(** X11.  After the scaffold has run, no page of the project range misses
    its data file.  Whatever [data/] held before, [loadDayData] finds a
    file under the address of every project date; a file that was there
    is read as before, a date without one reads as the empty day of the
    scaffold; and for every month and day of the calendar [Home] features
    the file of the day's own address and needs no fallback to the first
    day. *)
Theorem no_page_misses_its_file_after_scaffold (fs : FS) :
  exists r, Scaffold.run 400 fs = Some r /\
  (forall dt, firstDay <= dt <= lastDay ->
     loadDayData (Scaffold.fs_after r) (Scaffold.toIso dt)
     = match loadDayData fs (Scaffold.toIso dt) with
       | NoFile => Loaded (Scaffold.emptyDay (Scaffold.toIso dt))
       | l => l
       end) /\
  (forall m d, 1 <= m <= 12 -> 1 <= d <= daysIn m ->
     homeData (Scaffold.fs_after r) (wallClock m d)
     = loadDayData (Scaffold.fs_after r) (todayMappedIso (wallClock m d)) /\
     homeData (Scaffold.fs_after r) (wallClock m d) <> NoFile).
Proof.
  destruct (run_total fs) as (r & Hrun & _ & Hfs & _).
  exists r. split; [exact Hrun|].
  assert (Hall : forall dt, firstDay <= dt <= lastDay ->
            loadDayData (Scaffold.fs_after r) (Scaffold.toIso dt)
            = match loadDayData fs (Scaffold.toIso dt) with
              | NoFile => Loaded (Scaffold.emptyDay (Scaffold.toIso dt))
              | l => l
              end).
  { intros dt Hdt. pose proof (In_projectAddresses dt Hdt) as Hin. rewrite Hfs. unfold loadDayData, existsData, existsIn, readJson.
    cbn [dataDir default from_option id].
    destruct (dataDir fs) as [d0|] eqn:Ed; cbn [default from_option id].
    - destruct (d0 !! dataPath (Scaffold.toIso dt)) as [x|] eqn:E.
      + rewrite (scaffoldDir_keeps _ _ _ _ E). cbn [negb]. now destruct x.
      + rewrite (scaffoldDir_creates _ _ _ Hin E). reflexivity.
    - pose proof (scaffoldDir_creates _ ∅ _ Hin (lookup_empty _)) as Hc.
      rewrite Hc. reflexivity. }
  split; [exact Hall|].
  intros m d Hm Hd. pose proof (day_checked m d Hm Hd) as H.
  unfold dayChecked in H. rewrite !andb_true_iff in H.
  destruct H as [[[[[[H1 H2] H3] H4] H5] H6] H7].
  apply String.eqb_eq in H3, H6. apply Z.leb_le in H1. apply Z.ltb_lt in H2.
  unfold homeData, homeAddress. rewrite H6, H3, Hall by lia.
  destruct (loadDayData fs (Scaffold.toIso (mappedDay m d))); split; auto; discriminate.
Qed.

Lemma sample_Number_reads : readsFields Samples.Number.
Proof.
  intros s Hs. unfold Samples.Number.
  destruct (String.eqb_spec s "1.5") as [->|_]; [now destruct Hs|].
  assert (Hd : Samples.allDigits s = true); [|now rewrite Hd].
  unfold Samples.allDigits, fourDigits, twoDigits in *.
  destruct s as [|a [|b [|c [|d [|]]]]]; cbn [list_ascii_of_string] in Hs;
    try (destruct Hs; discriminate).
  - destruct Hs as [Hs|Hs]; [discriminate|].
    cbn [list_ascii_of_string forallb String.eqb negb andb].
    apply andb_true_iff in Hs as [-> ->]. reflexivity.
  - destruct Hs as [Hs|Hs]; [|discriminate].
    cbn [list_ascii_of_string forallb String.eqb negb andb].
    rewrite !andb_true_iff in Hs. destruct Hs as [[[-> ->] ->] ->]. reflexivity.
Qed.

(** The page of the first day: Previous is disabled, Next leads to 5 July. *)
Lemma day_page_walks_the_range_witness :
  DayPage Samples.Number (Samples.world Samples.blank) "1775" "07" "04"
  = Day None (Some "/1775/07/05") (Some Samples.blank).
Proof.
  refine (eq_trans
            (proj1 (day_page_walks_the_range Samples.Number
                      (Samples.world Samples.blank) firstDay "1775" "07" "04" _ _ _)) _).
  - exact sample_Number_reads.
  - vm_compute. split; discriminate.
  - vm_compute. reflexivity.
  - vm_compute. reflexivity.
Defined.

(** The month [1x] is no number: the page of 1775/1x/01, an address inside
    the range by the order of strings, fails to render. *)
Lemma malformed_address_is_never_rendered_witness :
  DayPage Samples.Number (Samples.world Samples.blank) "1775" "1x" "01" = RenderError.
Proof.
  refine (proj1 (proj2 (proj2
            (malformed_address_is_never_rendered Samples.Number
               (Samples.world Samples.blank) "1775" "1x" "01" 1 _ _))) _).
  - lia.
  - vm_compute. reflexivity.
  - split; vm_compute; reflexivity.
Defined.

(** A primary category of four entries is shown up to its third. *)
Lemma page_shows_a_category_up_to_its_cap_witness :
  shown (Some Samples.crowded) "soldiers_day" 3
  = [JStr "deed 1"; JStr "deed 2"; JStr "battle 1"].
Proof.
  refine (eq_trans
            (proj1 (proj2 (page_shows_a_category_up_to_its_cap
                             (Some Samples.crowded) "soldiers_day" 3 _))) _).
  - left. reflexivity.
  - vm_compute. reflexivity.
Defined.

End PagesFacts.

(** ** The runs of the promotion *)

Module BacklogFacts.
Import Js Json Store Promote PromoteSpec BacklogSpec.
Import JsonFacts StoreFacts PromoteFacts ScaffoldFacts.

#[global] Instance str_le_transitive : Transitive str_le.
Proof. exact RangeFacts.sle_trans. Qed.

#[global] Instance str_le_total : Total str_le.
Proof. exact RangeFacts.sle_total. Qed.

Lemma str_le_antisym (a b : string) : str_le a b -> str_le b a -> a = b.
Proof. apply String.leb_antisym. Qed.

(** The body of the search at a listed file. *)
Lemma nextMissingAt_awaiting (d intake : dir) (f iso : string) :
  isJsonName f = true ->
  nextMissingAt d intake f = Some iso <-> f = dataPath iso /\ awaiting d intake iso.
Proof.
  intros Hf. unfold nextMissingAt, awaiting, readJson.
  pose proof (dataPath_basename f Hf) as Hb. rewrite Hb. split.
  - destruct (existsIn intake (intakePath (basename f ".json"))) eqn:Ei; [|discriminate].
    cbn [negb]. destruct (d !! f) as [[raw|data]|] eqn:Ed; try discriminate.
    destruct (length (entries data SOLDIERS) =? 0)%nat eqn:El; [|discriminate].
    intros [= <-]. apply length_zero_iff_nil in El. rewrite Hb. eauto.
  - intros [-> [Hi (data & Hd & He)]]. rewrite basename_dataPath, Hi, Hd, He. reflexivity.
Qed.

Lemma firstSome_None {A B} (f : A -> option B) (l : list A) :
  firstSome f l = None <-> forall x, In x l -> f x = None.
Proof.
  induction l as [|a l IH]; cbn; [tauto|].
  destruct (f a) eqn:E.
  - split; [discriminate|]. intros H. rewrite <- E. apply H. now left.
  - rewrite IH. split; [intros H x [<-|Hx]; auto|intros H x Hx; apply H; now right].
Qed.

(** On a sorted list, [firstSome] stops at the least element that gives a
    result. *)
Lemma firstSome_least {A B} (R : relation A) (f : A -> option B) (l : list A) (y : B) :
  StronglySorted R l ->
  firstSome f l = Some y ->
  exists x, In x l /\ f x = Some y /\ forall x', In x' l -> f x' <> None -> x' = x \/ R x x'.
Proof.
  induction 1 as [|a l Hl IH Ha]; cbn; [discriminate|].
  destruct (f a) as [b|] eqn:E.
  - intros [= ->]. exists a. split; [now left|]. split; [exact E|].
    intros x' [<-|Hx'] _; [now left|right].
    rewrite List.Forall_forall in Ha. now apply Ha.
  - intros H. destruct (IH H) as (x & Hx & Hfx & Hleast).
    exists x. split; [now right|]. split; [exact Hfx|].
    intros x' [<-|Hx'] Hne; [congruence|auto].
Qed.

Lemma sorted_jsonFiles (d : dir) : StronglySorted str_le (jsonFiles d).
Proof. unfold jsonFiles, sort. apply StronglySorted_merge_sort; apply _. Qed.

Lemma listed_json (d : dir) (f : string) : In f (jsonFiles d) -> isJsonName f = true.
Proof. intros H. apply list_elem_of_In, elem_of_jsonFiles in H. tauto. Qed.

(** A search over the sorted listing of [data/] that stops at the files of
    the dates with the property [P] returns the date with [P] whose file
    name comes first, or nothing when no date has [P]. *)
Lemma listing_search (d : dir) (stopAt : string -> option string) (P : string -> Prop) :
  (forall f iso, isJsonName f = true -> stopAt f = Some iso <-> f = dataPath iso /\ P iso) ->
  (forall iso, P iso -> is_Some (d !! dataPath iso)) ->
  match firstSome stopAt (jsonFiles d) with
  | Some iso => P iso /\ forall iso', P iso' -> str_le (dataPath iso) (dataPath iso')
  | None => forall iso, ~ P iso
  end.
Proof.
  intros Hat Hfile.
  assert (Hlisted : forall iso, P iso -> In (dataPath iso) (jsonFiles d)).
  { intros iso HP. apply list_elem_of_In, elem_of_jsonFiles.
    split; [apply isJsonName_dataPath|auto]. }
  assert (Hstop : forall iso, P iso -> stopAt (dataPath iso) = Some iso).
  { intros iso HP. apply Hat; auto using isJsonName_dataPath. }
  destruct (firstSome stopAt (jsonFiles d)) as [iso|] eqn:E.
  - destruct (firstSome_least str_le _ _ _ (sorted_jsonFiles d) E) as (f & Hf & Hs & Hleast).
    apply Hat in Hs as [-> HP]; [|now apply (listed_json d)].
    split; [exact HP|]. intros iso' HP'.
    destruct (Hleast (dataPath iso')) as [Heq|H].
    { now apply Hlisted. }
    { rewrite (Hstop iso' HP'). discriminate. }
    + rewrite Heq. now destruct (str_le_total (dataPath iso) (dataPath iso)).
    + exact H.
  - intros iso HP. rewrite firstSome_None in E.
    specialize (E (dataPath iso) (Hlisted iso HP)). rewrite (Hstop iso HP) in E. discriminate.
Qed.

(** What the search of the promotion comes back with. *)
Lemma search_spec (d intake : dir) :
  match firstSome (nextMissingAt d intake) (jsonFiles d) with
  | Some iso => awaiting d intake iso /\
                forall iso', awaiting d intake iso' -> str_le (dataPath iso) (dataPath iso')
  | None => forall iso, ~ awaiting d intake iso
  end.
Proof.
  apply listing_search.
  - intros f iso Hf. now apply nextMissingAt_awaiting.
  - intros iso [_ (data & Hd & _)]. eauto.
Qed.

(** X12.  [findNextMissing] returns the earliest date of the backlog.  With
    [data/] in place it returns a date exactly when that date awaits
    curation (its candidate pool exists and its data file parses to a
    record with no primary entry) and no date that awaits curation has a
    file name before it in the order of [sort()]; it returns [null] exactly
    when no date awaits curation; dates whose file does not parse or whose
    pool is missing are passed over; and without [data/] the listing
    throws. *)
Theorem find_next_missing_is_the_earliest (fs : FS) :
  (dataDir fs = None -> findNextMissing fs = None) /\
  (forall d, dataDir fs = Some d ->
     (forall iso,
        findNextMissing fs = Some (Some iso) <->
        awaiting d (intakeDir fs) iso /\
        forall iso', awaiting d (intakeDir fs) iso' -> str_le (dataPath iso) (dataPath iso')) /\
     (findNextMissing fs = Some None <-> forall iso, ~ awaiting d (intakeDir fs) iso)).
Proof.
  split; [intros H; unfold findNextMissing; now rewrite H|].
  intros d Hd. unfold findNextMissing. rewrite Hd.
  pose proof (search_spec d (intakeDir fs)) as H.
  destruct (firstSome (nextMissingAt d (intakeDir fs)) (jsonFiles d)) as [iso0|].
  - destruct H as [Haw Hleast]. split.
    + intros iso. split.
      * intros [= <-]. auto.
      * intros [Haw' Hleast']. do 2 f_equal. apply dataPath_inj.
        apply str_le_antisym; auto.
    + split; [discriminate|]. intros Hno. now destruct (Hno iso0).
  - split.
    + intros iso. split; [discriminate|]. intros [Haw _]. now destruct (H iso).
    + tauto.
Qed.

Section Runs.

Variable trim : string -> string.
Variable Number : string -> number.

Local Abbreviation mergedRecord := (PromoteSpec.mergedRecord trim Number).

Lemma target_shaped args fs iso : target args fs = Go iso -> isIsoDate iso = true.
Proof.
  unfold target. destruct args as [|arg0 rest]; [discriminate|].
  unfold bind, guard.
  destruct (if hasFlag (arg0 :: rest) "--next-missing" then _ else _) as [o|iso']; [discriminate|].
  destruct (isIsoDate iso') eqn:E; [|discriminate]. now intros [= <-].
Qed.

(** A run that stops before the gate does not stop by returning. *)
Lemma load_stop args fs o : load args fs = Stop o -> ending_of o <> Returned.
Proof.
  unfold load, bind, guard. intros Hload.
  destruct (target args fs) as [o'|iso] eqn:Ht.
  - injection Hload as <-. unfold target, bind, guard in Ht.
    destruct args as [|arg0 rest]; [injection Ht as <-; discriminate|].
    destruct (hasFlag (arg0 :: rest) "--next-missing").
    + destruct (findNextMissing fs) as [[next|]|]; try (injection Ht as <-; discriminate).
      destruct (String.eqb next ""); [injection Ht as <-; discriminate|].
      destruct (isIsoDate next); [discriminate|injection Ht as <-; discriminate].
    + destruct (isIsoDate arg0); [discriminate|injection Ht as <-; discriminate].
  - destruct (existsIn (intakeDir fs) (intakePath iso)); [|injection Hload as <-; discriminate].
    destruct (existsData fs (dataPath iso)); [|injection Hload as <-; discriminate].
    destruct (readJson (intakeDir fs) (intakePath iso));
      [destruct (match dataDir fs with Some d => readJson d (dataPath iso) | None => None end)|];
      try discriminate; injection Hload as <-; discriminate.
Qed.

Lemma merge_stop args st o : merge trim Number args st = Stop o -> ending_of o <> Returned.
Proof.
  destruct st as [[iso intake] data]. unfold merge, bind, guard. intros Hm.
  destruct (hasFlag args "--list").
  { injection Hm as <-. unfold listAll. destruct (forallb _ KEYS); discriminate. }
  cbn [negb] in Hm.
  destruct (anySelection _); [|injection Hm as <-; discriminate].
  destruct (promoteAll _ _ data intake) as [[? ?] ?]. discriminate.
Qed.

Lemma rehearsed_stop o : ending_of o <> Returned -> rehearsed o = o.
Proof. destruct o; cbn; auto. intros H. now destruct H. Qed.

(** The two ways a run ends: without a trace, or with its one write. *)
Lemma main_cases args fs :
  (fs_after (main trim Number args fs) = fs /\ writes (main trim Number args fs) = [] /\
   ending_of (outcome_of (main trim Number args fs)) <> Returned) \/
  (exists iso d rec pool report,
      target args fs = Go iso /\ dataDir fs = Some d /\
      d !! dataPath iso = Some (Doc rec) /\
      intakeDir fs !! intakePath iso = Some (Doc pool) /\
      hasFlag args "--list" = false /\ hasFlag args "--dry-run" = false /\
      entries (mergedRecord args rec pool) SOLDIERS <> [] /\
      main trim Number args fs
      = {| outcome_of := Wrote report;
           fs_after := {| dataDir :=
                            Some (<[dataPath iso :=
                                      Doc (obj_set (mergedRecord args rec pool) "date" (JStr iso))]> d);
                          intakeDir := intakeDir fs |};
           writes := [(dataPath iso, obj_set (mergedRecord args rec pool) "date" (JStr iso))] |}).
Proof.
  unfold main, bind.
  destruct (load args fs) as [o|[[iso intake] data]] eqn:Hload.
  { left. cbn. repeat split; auto. now apply (load_stop args fs). }
  destruct (merge trim Number args (iso, intake, data)) as [o|[[iso' data'] report]] eqn:Hm.
  { left. cbn. repeat split; auto. now apply (merge_stop args (iso, intake, data)). }
  apply merge_inv in Hm as (-> & Hlist & Hany & ->).
  apply load_inv in Hload as (d & rec & pool & Ht & Hd & Hr & Hp & -> & ->).
  unfold finish. fold (mergedRecord args rec pool).
  destruct (length (entries (mergedRecord args rec pool) SOLDIERS) =? 0)%nat eqn:E.
  { left. cbn. repeat split; auto; discriminate. }
  destruct (hasFlag args "--dry-run") eqn:Hdry.
  { left. cbn. repeat split; auto; discriminate. }
  unfold writeData. rewrite Hd. right. exists iso, d, rec, pool, report.
  repeat split; auto. intros Hnil. rewrite Hnil in E. discriminate.
Qed.

Lemma normalize_other (o : obj) (k : string) :
  ~ In k KEYS -> obj_get (normalize o) k = obj_get o k.
Proof.
  intros Hk. unfold normalize, KEYS, CAPS in *; cbn [fmap list_fmap fst fold_left] in *.
  rewrite !ensureArray_get_ne; auto; intros <-; apply Hk; cbn; auto 6.
Qed.

Lemma promoteIf_other key indices overwrite st k :
  key <> k -> obj_get (dataOf (promoteIf key indices overwrite st)) k = obj_get (dataOf st) k.
Proof.
  intros Hne. destruct st as [[data intake] report]. unfold promoteIf, dataOf.
  destruct (length indices =? 0)%nat; cbn [fst]; auto.
  now apply applyPromotion_get_ne.
Qed.

(** The merge leaves every property outside the four categories as the
    stored record has it. *)
Lemma mergedRecord_other args rec pool k :
  ~ In k KEYS -> obj_get (mergedRecord args rec pool) k = obj_get rec k.
Proof.
  intros Hk. unfold PromoteSpec.mergedRecord, promoteAll.
  rewrite !promoteIf_other
    by (intros <-; apply Hk; unfold KEYS, CAPS; cbn; auto 6).
  unfold dataOf; cbn [fst]. now apply normalize_other.
Qed.

(** X13.  A run of the promotion touches nothing but the record of its date.
    The candidate pools are never written; a run with [--dry-run] or
    [--list] writes nothing; a run that writes nothing leaves the file
    system as it was and does not end by returning; and a run that writes
    writes once, to the existing data file of its date, which has the
    shape YYYY-MM-DD: it creates no file, leaves every other file of
    [data/] as it was, and the record written carries the date, holds an
    array under each of the four categories, has a primary entry, and keeps
    every other property of the stored record. *)
Theorem promote_touches_only_its_record (args : list string) (fs : FS) :
  intakeDir (fs_after (main trim Number args fs)) = intakeDir fs /\
  (hasFlag args "--dry-run" = true \/ hasFlag args "--list" = true ->
   fs_after (main trim Number args fs) = fs /\ writes (main trim Number args fs) = []) /\
  (writes (main trim Number args fs) = [] ->
   fs_after (main trim Number args fs) = fs /\
   ending_of (outcome_of (main trim Number args fs)) <> Returned) /\
  (forall name out, In (name, out) (writes (main trim Number args fs)) ->
     exists iso d rec,
       writes (main trim Number args fs) = [(name, out)] /\
       ending_of (outcome_of (main trim Number args fs)) = Returned /\
       name = dataPath iso /\ isIsoDate iso = true /\
       dataDir fs = Some d /\ d !! name = Some (Doc rec) /\
       dataDir (fs_after (main trim Number args fs)) = Some (<[name := Doc out]> d) /\
       (forall other, other <> name ->
          <[name := Doc out]> d !! other = d !! other) /\
       obj_get out "date" = Some (JStr iso) /\
       (forall k, In k KEYS -> isArray (obj_get out k) = true) /\
       entries out SOLDIERS <> [] /\
       (forall k, k <> "date" -> ~ In k KEYS -> obj_get out k = obj_get rec k)).
Proof.
  destruct (main_cases args fs) as [(Hfs & Hw & He)|
    (iso & d & rec & pool & report & Ht & Hd & Hr & Hp & Hlist & Hdry & Hne & Hmain)].
  - rewrite Hfs, Hw. repeat split; auto. intros name out [].
  - rewrite Hmain. cbn [fs_after writes outcome_of intakeDir dataDir ending_of].
    split; [reflexivity|]. split; [intros [H|H]; congruence|].
    split; [discriminate|].
    intros name out [[= <- <-]|[]].
    assert (Hkeys : forall k, In k KEYS -> "date" <> k).
    { intros k Hk. unfold KEYS, CAPS in Hk; cbn in Hk.
      destruct Hk as [<-|[<-|[<-|[<-|[]]]]]; discriminate. }
    exists iso, d, rec. repeat split; auto.
    + now apply (target_shaped args fs).
    + intros other Ho. now apply lookup_insert_ne.
    + apply obj_get_set_eq.
    + intros k Hk. rewrite obj_get_set_ne by auto.
      now rewrite mergedRecord_arrays.
    + now rewrite entries_set_ne by discriminate.
    + intros k Hk Hnk. rewrite obj_get_set_ne by auto. now apply mergedRecord_other.
Qed.

(** X14.  With [--next-missing], a run that writes moves the backlog on.  It
    works on the earliest date that awaits curation, and after its write
    that date awaits curation no more: the next search returns a date that
    awaited curation before and whose file name comes strictly later, or
    none when the date written was the only one.  The other dates of the
    backlog are as they were. *)
Theorem next_missing_moves_on (args : list string) (fs : FS) :
  hasFlag args "--next-missing" = true ->
  writes (main trim Number args fs) <> [] ->
  exists iso d out,
    dataDir fs = Some d /\
    findNextMissing fs = Some (Some iso) /\
    writes (main trim Number args fs) = [(dataPath iso, out)] /\
    (forall iso', awaiting (<[dataPath iso := Doc out]> d) (intakeDir fs) iso' <->
                  awaiting d (intakeDir fs) iso' /\ iso' <> iso) /\
    match findNextMissing (fs_after (main trim Number args fs)) with
    | Some (Some next) =>
        awaiting d (intakeDir fs) next /\
        str_le (dataPath iso) (dataPath next) /\ dataPath next <> dataPath iso
    | Some None => forall iso', awaiting d (intakeDir fs) iso' -> iso' = iso
    | None => False
    end.
Proof.
  intros Hnext Hw.
  destruct (main_cases args fs) as [(_ & Hw' & _)|
    (iso & d & rec & pool & report & Ht & Hd & Hr & Hp & Hlist & Hdry & Hne & Hmain)];
    [contradiction|].
  set (out := obj_set (mergedRecord args rec pool) "date" (JStr iso)) in *.
  assert (Hfind : findNextMissing fs = Some (Some iso)).
  { unfold target, bind, guard in Ht. destruct args as [|arg0 rest]; [discriminate|].
    rewrite Hnext in Ht.
    destruct (findNextMissing fs) as [[next|]|]; try discriminate.
    destruct (String.eqb next ""); [discriminate|].
    destruct (isIsoDate next); [|discriminate]. now injection Ht as ->. }
  assert (Hout : entries out SOLDIERS <> [])
    by (unfold out; now rewrite entries_set_ne by discriminate).
  assert (Haw : forall iso', awaiting (<[dataPath iso := Doc out]> d) (intakeDir fs) iso' <->
                             awaiting d (intakeDir fs) iso' /\ iso' <> iso).
  { intros iso'. unfold awaiting. destruct (String.eqb_spec iso' iso) as [->|Hneq].
    - rewrite lookup_insert_eq. split.
      + intros [_ (data & [= <-] & He)]. contradiction.
      + intros [_ H]. congruence.
    - rewrite lookup_insert_ne by (intros H; apply dataPath_inj in H; congruence).
      tauto. }
  exists iso, d, out. rewrite Hmain. cbn [writes fs_after].
  split; [exact Hd|]. split; [exact Hfind|]. split; [reflexivity|]. split; [exact Haw|].
  assert (Hleast : forall iso', awaiting d (intakeDir fs) iso' ->
                                str_le (dataPath iso) (dataPath iso')).
  { pose proof (search_spec d (intakeDir fs)) as H.
    unfold findNextMissing in Hfind. rewrite Hd in Hfind. injection Hfind as Hfind.
    rewrite Hfind in H. tauto. }
  pose proof (search_spec (<[dataPath iso := Doc out]> d) (intakeDir fs)) as H.
  unfold findNextMissing. cbn [dataDir intakeDir].
  destruct (firstSome _ (jsonFiles (<[dataPath iso := Doc out]> d))) as [next|].
  - destruct H as [Hn _]. apply Haw in Hn as [Hn Hneq].
    split; [exact Hn|]. split; [now apply Hleast|].
    intros Heq. apply dataPath_inj in Heq. contradiction.
  - intros iso' Hi. destruct (String.eqb_spec iso' iso) as [->|Hneq]; auto.
    destruct (H iso'). apply Haw. auto.
Qed.

Lemma hasFlag_insert (pre post : list string) (x f : string) :
  f <> x -> hasFlag (pre ++ x :: post) f = hasFlag (pre ++ post) f.
Proof.
  intros Hne. unfold hasFlag. rewrite !existsb_app. cbn [existsb].
  destruct (String.eqb_spec f x); [contradiction|reflexivity].
Qed.

Lemma getFlagValue_insert (pre post : list string) (x f : string) :
  x <> f -> last pre <> Some f ->
  getFlagValue (pre ++ x :: post) f = getFlagValue (pre ++ post) f.
Proof.
  intros Hx. induction pre as [|a pre IH]; intros Hlast; cbn [app getFlagValue].
  - destruct (String.eqb_spec x f); [contradiction|reflexivity].
  - destruct (String.eqb_spec a f) as [->|Hne].
    + destruct pre as [|b pre]; [now destruct Hlast|reflexivity].
    + apply IH. destruct pre as [|b pre]; [discriminate|exact Hlast].
Qed.

Lemma parseSelections_insert (pre post : list string) (x : string) :
  ~ In x valueFlags -> (forall f, In f valueFlags -> last pre <> Some f) ->
  parseSelections trim Number (pre ++ x :: post) = parseSelections trim Number (pre ++ post).
Proof.
  intros Hx Hlast. unfold parseSelections.
  rewrite !getFlagValue_insert; auto;
    try (apply Hlast; unfold valueFlags; cbn; auto 6);
    intros ->; apply Hx; unfold valueFlags; cbn; auto 6.
Qed.

Lemma target_insert (pre post : list string) (x : string) (fs : FS) :
  pre <> [] -> x <> "--next-missing" ->
  target (pre ++ x :: post) fs = target (pre ++ post) fs.
Proof.
  intros Hpre Hx. destruct pre as [|arg0 pre]; [contradiction|].
  pose proof (hasFlag_insert (arg0 :: pre) post x "--next-missing" ltac:(auto)) as H.
  unfold target. cbn [app] in *. now rewrite H.
Qed.

(** X15.  A dry run rehearses the run.  Put [--dry-run] anywhere after the
    first argument of an invocation that has none, but not into the place
    of a value (right after [--soldiers], [--command], [--congress] or
    [--voices]): the dry run writes nothing, leaves the file system as it
    is, ends with the exit code of the run itself, and reports what the
    run reports; where the run writes, with the plan [p], the dry run
    prints the same plan. *)
Theorem dry_run_rehearses_the_run (pre post : list string) (fs : FS) :
  pre <> [] ->
  (forall f, In f valueFlags -> last pre <> Some f) ->
  hasFlag (pre ++ post) "--dry-run" = false ->
  outcome_of (main trim Number (pre ++ "--dry-run" :: post) fs)
  = rehearsed (outcome_of (main trim Number (pre ++ post) fs)) /\
  fs_after (main trim Number (pre ++ "--dry-run" :: post) fs) = fs /\
  writes (main trim Number (pre ++ "--dry-run" :: post) fs) = [] /\
  exitCode (main trim Number (pre ++ "--dry-run" :: post) fs)
  = exitCode (main trim Number (pre ++ post) fs).
Proof.
  intros Hpre Hlast Hdry.
  assert (Hload : load (pre ++ "--dry-run" :: post) fs = load (pre ++ post) fs).
  { unfold load. now rewrite target_insert by (auto; discriminate). }
  assert (Hmerge : forall st, merge trim Number (pre ++ "--dry-run" :: post) st
                              = merge trim Number (pre ++ post) st).
  { intros [[iso intake] data]. unfold merge.
    rewrite parseSelections_insert; auto.
    - now rewrite !(hasFlag_insert pre post "--dry-run") by discriminate.
    - unfold valueFlags. cbn. intros [H|[H|[H|[H|[]]]]]; discriminate. }
  assert (Hnow : hasFlag (pre ++ "--dry-run" :: post) "--dry-run" = true).
  { unfold hasFlag. rewrite existsb_app. cbn. apply orb_true_r. }
  unfold exitCode, main, bind. rewrite Hload.
  destruct (load (pre ++ post) fs) as [o|[[iso0 intake0] data0]] eqn:El.
  { cbn. now rewrite (rehearsed_stop o (load_stop _ _ _ El)). }
  apply load_inv in El as (d & _ & _ & _ & Hd & _).
  rewrite Hmerge.
  destruct (merge trim Number (pre ++ post) (iso0, intake0, data0))
    as [o|[[iso data] report]] eqn:Em.
  { cbn. now rewrite (rehearsed_stop o (merge_stop _ _ _ Em)). }
  unfold finish. rewrite Hnow, Hdry.
  destruct (length (entries data SOLDIERS) =? 0)%nat; [auto|].
  unfold writeData. rewrite Hd. cbn. auto.
Qed.

End Runs.

Lemma fractional_pick (candidates : list json) (q : Q) :
  fractional q ->
  (1 <= q)%Q -> (q < inject_Z (Z.of_nat (length candidates)) + 1)%Q ->
  pickLoop candidates [Finite q] [] = [JNull].
Proof.
  unfold fractional. intros Hfrac Hlo Hhi.
  destruct q as [n p]. cbn [Qnum Qden] in Hfrac.
  unfold Qle, Qlt, Qplus, inject_Z in Hlo, Hhi. cbn [Qnum Qden] in Hlo, Hhi.
  cbn [pickLoop minus1].
  assert (Hlt : ltZ (Finite ((n # p) - 1)%Q) 0 = false).
  { unfold ltZ. apply negb_false_iff, Qle_bool_iff.
    unfold Qle, Qminus, Qplus, Qopp, inject_Z. cbn [Qnum Qden]. lia. }
  assert (Hge : geZ (Finite ((n # p) - 1)%Q) (Z.of_nat (length candidates)) = false).
  { unfold geZ. destruct (Qle_bool _ _) eqn:E; [|reflexivity].
    apply Qle_bool_iff in E.
    unfold Qle, Qminus, Qplus, Qopp, inject_Z in E. cbn [Qnum Qden] in E. lia. }
  rewrite Hlt, Hge. cbn [orb app]. unfold element.
  assert (Hmod : (Qnum ((n # p) - 1)%Q mod Zpos (Qden ((n # p) - 1)%Q) =? 0) = false).
  { apply Z.eqb_neq. unfold Qminus, Qplus, Qopp. cbn [Qnum Qden].
    rewrite Pos.mul_1_r, Z.mul_1_r.
    now rewrite Z_mod_plus_full. }
  now rewrite Hmod.
Qed.

(** X16.  A position that is no whole number is not skipped.  A single
    position [q] with a fraction, from 1 up to below the number of
    candidates plus 1, reads [candidates[q - 1]], which is [undefined]; the
    entry is pushed all the same, so the category gets a [null] entry at
    its end (cut at the cap), and the plan counts one entry picked. *)
Theorem fractional_position_promotes_null (data intake : obj) (key : string) (cap : nat)
    (q : Q) (overwrite : bool) :
  lookupCap CAPS key = Some cap ->
  fractional q ->
  (1 <= q)%Q -> (q < inject_Z (Z.of_nat (length (entries intake key))) + 1)%Q ->
  entries (data_after (applyPromotion data intake key [Finite q] overwrite)) key
  = firstn cap ((if overwrite then [] else entries data key) ++ [JNull])%list /\
  pickedCount (applyPromotion data intake key [Finite q] overwrite) = 1%nat.
Proof.
  intros Hcap Hfrac Hlo Hhi.
  unfold applyPromotion. cbn [data_after pickedCount].
  rewrite !ensureArray_entries.
  rewrite (fractional_pick _ q Hfrac Hlo Hhi).
  unfold entries at 1. rewrite obj_get_set_eq, Hcap. cbn [arrayOr slice0 length].
  split; reflexivity.
Qed.

(** The position 3/2 on a record without entries, two candidates. *)
Lemma fractional_position_promotes_null_witness :
  entries (data_after (applyPromotion Samples.blank Samples.pool SOLDIERS
                         [Finite (3 # 2)] false)) SOLDIERS
  = [JNull].
Proof.
  refine (proj1 (fractional_position_promotes_null Samples.blank Samples.pool SOLDIERS 3
                   (3 # 2) false _ _ _ _)).
  - reflexivity.
  - vm_compute. discriminate.
  - vm_compute. discriminate.
  - vm_compute. reflexivity.
Defined.

(** A dry run of the promotion of the first candidate. *)
Lemma dry_run_rehearses_the_run_witness :
  outcome_of (main Samples.trim Samples.Number
                [Samples.day; "--soldiers"; "1"; "--dry-run"]
                (Samples.world Samples.blank))
  = rehearsed (outcome_of (main Samples.trim Samples.Number
                             [Samples.day; "--soldiers"; "1"]
                             (Samples.world Samples.blank))).
Proof.
  refine (proj1 (dry_run_rehearses_the_run Samples.trim Samples.Number
                   [Samples.day; "--soldiers"; "1"] [] (Samples.world Samples.blank) _ _ _)).
  - discriminate.
  - intros f [<-|[<-|[<-|[<-|[]]]]]; discriminate.
  - reflexivity.
Defined.

(** The one date of the sample world, curated through [--next-missing]. *)
Lemma next_missing_moves_on_witness :
  exists iso d out,
    dataDir (Samples.world Samples.blank) = Some d /\
    findNextMissing (Samples.world Samples.blank) = Some (Some iso) /\
    writes (main Samples.trim Samples.Number ["--next-missing"; "--soldiers"; "1"]
              (Samples.world Samples.blank)) = [(dataPath iso, out)].
Proof.
  destruct (next_missing_moves_on Samples.trim Samples.Number
              ["--next-missing"; "--soldiers"; "1"] (Samples.world Samples.blank))
    as (iso & d & out & Hd & Hf & Hw & _).
  - reflexivity.
  - vm_compute. discriminate.
  - exists iso, d, out. auto.
Defined.

End BacklogFacts.

(** ** IntakeSeeder *)

Module SeedFacts.
Import Js Json Store Seed SeedSpec BacklogSpec.
Import JsonFacts StoreFacts ScaffoldFacts BacklogFacts.

Lemma earliestAt_unsoldiered (d : dir) (f iso : string) :
  isJsonName f = true ->
  earliestAt d f = Some iso <-> f = dataPath iso /\ unsoldiered d iso.
Proof.
  intros Hf. unfold earliestAt, unsoldiered, readJson, entries.
  pose proof (dataPath_basename f Hf) as Hb. split.
  - destruct (d !! f) as [[raw|data]|] eqn:Ed; try discriminate.
    destruct (length (arrayOr (obj_get data "soldiers_day")) =? 0)%nat eqn:El; [|discriminate].
    intros [= <-]. apply PromoteFacts.length_zero_iff_nil in El. rewrite Hb. eauto.
  - intros [-> (data & Hd & He)]. rewrite basename_dataPath, Hd, He. reflexivity.
Qed.

(** What the search of the seeder comes back with. *)
Lemma earliest_spec (d : dir) :
  match Promote.firstSome (earliestAt d) (jsonFiles d) with
  | Some iso => unsoldiered d iso /\
                forall iso', unsoldiered d iso' -> str_le (dataPath iso) (dataPath iso')
  | None => forall iso, ~ unsoldiered d iso
  end.
Proof.
  apply listing_search.
  - intros f iso Hf. now apply earliestAt_unsoldiered.
  - intros iso (data & Hd & _). eauto.
Qed.

Lemma checked_shaped (iso iso' : string) :
  checked iso = inr iso' -> iso' = iso /\ Promote.isIsoDate iso = true.
Proof. unfold checked. destruct (Promote.isIsoDate iso); [intros [= <-]; auto|discriminate]. Qed.

Lemma seed_target_shaped m d args fs iso :
  target m d args fs = inr iso -> Promote.isIsoDate iso = true.
Proof.
  unfold target. destruct args as [|arg0 rest]; [discriminate|].
  destruct (Promote.hasFlag (arg0 :: rest) "--publish").
  { intros [-> H]%checked_shaped. exact H. }
  destruct (Promote.hasFlag (arg0 :: rest) "--backfill").
  { destruct (findEarliestMissingSoldiers fs) as [next|]; [|discriminate].
    destruct (String.eqb next ""); [discriminate|].
    intros [-> H]%checked_shaped. exact H. }
  destruct (Promote.isIsoDate arg0); [|discriminate].
  intros [-> H]%checked_shaped. exact H.
Qed.

Lemma target_stop m d args fs o : target m d args fs = inl o -> ending_of o <> Returned.
Proof.
  unfold target, checked. destruct args as [|arg0 rest]; [intros [= <-]; discriminate|].
  destruct (Promote.hasFlag (arg0 :: rest) "--publish").
  { destruct (Promote.isIsoDate _); [discriminate|intros [= <-]; discriminate]. }
  destruct (Promote.hasFlag (arg0 :: rest) "--backfill").
  { destruct (findEarliestMissingSoldiers fs) as [next|]; [|intros [= <-]; discriminate].
    destruct (String.eqb next ""); [intros [= <-]; discriminate|].
    destruct (Promote.isIsoDate _); [discriminate|intros [= <-]; discriminate]. }
  destruct (Promote.isIsoDate arg0); intros [= <-]; discriminate.
Qed.

Lemma initial_stop args fs iso o : initial args fs iso = inl o -> ending_of o <> Returned.
Proof.
  unfold initial. destruct (Promote.hasFlag args "--from-data"); [|discriminate].
  destruct (existsData fs (dataPath iso)); cbn [negb]; [|intros [= <-]; discriminate].
  destruct (readJson _ _); [discriminate|intros [= <-]; discriminate].
Qed.

Lemma In_KEYS_not_date (k : string) : In k KEYS -> "date" <> k.
Proof. unfold KEYS. cbn. intros [<-|[<-|[<-|[<-|[]]]]]; discriminate. Qed.

(** The last normalisation: the date is set, the four keys hold arrays and
    keep the entries they had. *)
Lemma finished_payload (payload : obj) (iso : string) :
  let out := fold_left ensureArray KEYS (obj_set payload "date" (JStr iso)) in
  obj_get out "date" = Some (JStr iso) /\
  (forall k, In k KEYS -> isArray (obj_get out k) = true /\ entries out k = entries payload k).
Proof.
  cbn zeta. unfold KEYS. cbn [fold_left]. split.
  - rewrite !ensureArray_get_ne by discriminate. apply obj_get_set_eq.
  - intros k Hk. split.
    + cbn in Hk. destruct Hk as [<-|[<-|[<-|[<-|[]]]]];
        rewrite ?ensureArray_get_ne by discriminate;
        rewrite ensureArray_get_eq; reflexivity.
    + rewrite !ensureArray_entries. apply PromoteFacts.entries_set_ne.
      now apply In_KEYS_not_date.
Qed.

Lemma copied_payload (data payload : obj) :
  forall k, In k KEYS ->
            entries (fold_left (copyKey data) KEYS payload) k = entries data k.
Proof.
  assert (Hcopy : forall p k, entries (copyKey data p k) k = entries data k).
  { intros p k. unfold copyKey. rewrite ensureArray_entries.
    unfold entries. rewrite obj_get_set_eq. reflexivity. }
  assert (Hkeep : forall p k k', k <> k' -> entries (copyKey data p k) k' = entries p k').
  { intros p k k' Hne. unfold copyKey. rewrite ensureArray_entries.
    now apply PromoteFacts.entries_set_ne. }
  intros k Hk. unfold KEYS in *. cbn [fold_left]. cbn in Hk.
  destruct Hk as [<-|[<-|[<-|[<-|[]]]]];
    rewrite ?Hkeep by discriminate; apply Hcopy.
Qed.

(** The two ways a run ends: without a write, or with the pool of its date. *)
Lemma seed_cases m d args fs :
  (fs_after (main m d args fs) = fs /\ writes (main m d args fs) = [] /\
   ending_of (outcome_of (main m d args fs)) <> Returned /\
   forall path, opened (main m d args fs) = Some path ->
     Promote.hasFlag args "--open" = true /\
     exists iso, path = intakePath iso /\ target m d args fs = inr iso /\
                 outcome_of (main m d args fs) = AlreadyThere iso /\
                 existsIn (intakeDir fs) path = true) \/
  (exists iso payload,
      target m d args fs = inr iso /\
      initial args fs iso = inr payload /\
      (existsIn (intakeDir fs) (intakePath iso) = true ->
       Promote.hasFlag args "--overwrite" = true) /\
      main m d args fs
      = {| outcome_of := Seeded iso;
           fs_after := {| dataDir := dataDir fs;
                          intakeDir :=
                            <[intakePath iso :=
                                Doc (fold_left ensureArray KEYS
                                       (obj_set payload "date" (JStr iso)))]> (intakeDir fs) |};
           writes := [(intakePath iso,
                       fold_left ensureArray KEYS (obj_set payload "date" (JStr iso)))];
           opened := if Promote.hasFlag args "--open" then Some (intakePath iso) else None |}).
Proof.
  unfold main. destruct (target m d args fs) as [o|iso] eqn:Ht.
  { left. unfold stop. cbn [fs_after writes outcome_of opened].
    split; [reflexivity|]. split; [reflexivity|].
    split; [now apply (target_stop m d args fs)|]. discriminate. }
  destruct (existsIn (intakeDir fs) (intakePath iso)) eqn:Ei;
    destruct (Promote.hasFlag args "--overwrite") eqn:Ho; cbn [andb negb].
  2:{ left. cbn [fs_after writes outcome_of opened ending_of].
      split; [reflexivity|]. split; [reflexivity|]. split; [discriminate|].
      intros path Hp.
      destruct (Promote.hasFlag args "--print"); [discriminate|].
      destruct (Promote.hasFlag args "--open"); [|discriminate].
      injection Hp as <-. split; [reflexivity|]. exists iso. auto. }
  all: destruct (initial args fs iso) as [o|payload] eqn:Einit.
  all: try (left; unfold stop; cbn [fs_after writes outcome_of opened];
            split; [reflexivity|]; split; [reflexivity|];
            split; [now apply (initial_stop args fs iso)|discriminate]).
  all: right; exists iso, payload;
    split; [reflexivity|]; split; [exact Einit|]; split; [intros H; congruence|reflexivity].
Qed.

Lemma already_there m d args fs iso :
  outcome_of (main m d args fs) = AlreadyThere iso ->
  target m d args fs = inr iso /\
  existsIn (intakeDir fs) (intakePath iso) = true /\
  fs_after (main m d args fs) = fs.
Proof.
  unfold main. destruct (target m d args fs) as [o|iso'] eqn:Ht.
  { cbn. intros ->. exfalso. unfold target, checked in Ht.
    destruct args as [|a r]; [discriminate|].
    repeat match type of Ht with
           | (if ?b then _ else _) = _ => destruct b
           | match ?x with _ => _ end = _ => destruct x
           end; discriminate. }
  destruct (existsIn (intakeDir fs) (intakePath iso') && negb _) eqn:Eb.
  - cbn. intros [= ->]. apply andb_true_iff in Eb as [Eb _]. auto.
  - destruct (initial args fs iso') as [o|p] eqn:Ei; cbn; [|discriminate].
    intros ->. exfalso. unfold initial in Ei.
    repeat match type of Ei with
           | (if ?b then _ else _) = _ => destruct b
           | match ?x with _ => _ end = _ => destruct x
           end; discriminate.
Qed.

(** X17.  A run of the seeder touches nothing but the candidate pool of its
    date.  [data/] is never written.  A run that writes nothing leaves the
    file system as it was; a run that writes writes once, the pool
    [intake/{date}.rag.json] of a date of the shape YYYY-MM-DD, leaves
    every other pool as it was, and replaces an existing pool only under
    [--overwrite].  The pool written carries the date and an array under
    each of the four categories: the empty pool without [--from-data], and
    with [--from-data] the entries the data file of the date holds under
    each category.  The editor is only ever handed the pool of the date,
    which then exists. *)
Theorem seed_touches_only_its_pool (m d : Z) (args : list string) (fs : FS) :
  dataDir (fs_after (main m d args fs)) = dataDir fs /\
  (writes (main m d args fs) = [] ->
   fs_after (main m d args fs) = fs /\
   ending_of (outcome_of (main m d args fs)) <> Returned) /\
  (forall name pool, In (name, pool) (writes (main m d args fs)) ->
     exists iso,
       writes (main m d args fs) = [(name, pool)] /\
       outcome_of (main m d args fs) = Seeded iso /\
       name = intakePath iso /\ Promote.isIsoDate iso = true /\
       (existsIn (intakeDir fs) name = true -> Promote.hasFlag args "--overwrite" = true) /\
       intakeDir (fs_after (main m d args fs)) = <[name := Doc pool]> (intakeDir fs) /\
       (forall other, other <> name ->
          <[name := Doc pool]> (intakeDir fs) !! other = intakeDir fs !! other) /\
       obj_get pool "date" = Some (JStr iso) /\
       (forall k, In k KEYS -> isArray (obj_get pool k) = true) /\
       (Promote.hasFlag args "--from-data" = false -> pool = emptyIntake iso) /\
       (Promote.hasFlag args "--from-data" = true ->
        exists dd data,
          dataDir fs = Some dd /\ dd !! dataPath iso = Some (Doc data) /\
          forall k, In k KEYS -> entries pool k = entries data k)) /\
  (forall path, opened (main m d args fs) = Some path ->
     Promote.hasFlag args "--open" = true /\
     exists iso, path = intakePath iso /\
                 existsIn (intakeDir (fs_after (main m d args fs))) path = true).
Proof.
  destruct (seed_cases m d args fs) as [(Hfs & Hw & He & Ho)|
    (iso & payload & Ht & Hinit & Hover & Hmain)].
  - rewrite Hfs, Hw. split; [reflexivity|]. split; [auto|]. split; [intros name pool []|].
    intros path Hp. destruct (Ho path Hp) as (Hopen & iso & -> & _ & _ & Hex). eauto.
  - rewrite Hmain. cbn [fs_after writes outcome_of dataDir intakeDir opened ending_of].
    destruct (finished_payload payload iso) as [Hdate Hkeys].
    split; [reflexivity|]. split; [discriminate|]. split.
    + intros name pool [[= <- <-]|[]]. exists iso.
      repeat split; auto.
      * now apply (seed_target_shaped m d args fs).
      * intros other Hne. now apply lookup_insert_ne.
      * intros k Hk. now apply Hkeys.
      * intros Hfrom. unfold initial in Hinit. rewrite Hfrom in Hinit.
        injection Hinit as <-. reflexivity.
      * intros Hfrom. unfold initial in Hinit. rewrite Hfrom in Hinit.
        unfold existsData, existsIn, readJson in Hinit.
        destruct (dataDir fs) as [dd|]; cbn [default from_option id negb] in Hinit;
          [|discriminate].
        destruct (dd !! dataPath iso) as [[raw|data]|] eqn:Ed; try discriminate.
        assert (Hp : payload = fold_left (copyKey data) KEYS
                                 (obj_set (emptyIntake iso) "date" (JStr iso)))
          by (cbn [negb] in Hinit; congruence).
        exists dd, data. repeat split; auto.
        intros k Hk. etransitivity; [exact (proj2 (Hkeys k Hk))|].
        rewrite Hp. now apply copied_payload.
    + intros path Hp. destruct (Promote.hasFlag args "--open"); [|discriminate].
      injection Hp as <-. split; [reflexivity|]. exists iso. split; [reflexivity|].
      unfold existsIn. now rewrite lookup_insert_eq.
Qed.

(** X18.  Seeding the backlog sets up the promotion of the same date.  A run
    with [--backfill] (and without [--publish]) that finds or writes a
    pool works on the earliest date whose data file parses to a record
    without a primary entry; and once it has ended, [--next-missing] of
    the promotion finds exactly that date. *)
Theorem backfill_seed_sets_up_next_missing (m d : Z) (args : list string) (fs : FS)
    (iso : string) :
  Promote.hasFlag args "--publish" = false ->
  Promote.hasFlag args "--backfill" = true ->
  outcome_of (main m d args fs) = Seeded iso \/
  outcome_of (main m d args fs) = AlreadyThere iso ->
  (exists dd, dataDir fs = Some dd /\ unsoldiered dd iso /\
              forall iso', unsoldiered dd iso' -> str_le (dataPath iso) (dataPath iso')) /\
  findEarliestMissingSoldiers fs = Some iso /\
  Promote.findNextMissing (fs_after (main m d args fs)) = Some (Some iso).
Proof.
  intros Hpub Hback Hout.
  assert (Ht : target m d args fs = inr iso /\
               existsIn (intakeDir (fs_after (main m d args fs))) (intakePath iso) = true /\
               dataDir (fs_after (main m d args fs)) = dataDir fs).
  { destruct Hout as [Ho|Ho].
    - destruct (seed_cases m d args fs) as [(_ & _ & He & _)|
        (iso' & payload & Ht & _ & _ & Hmain)]; [rewrite Ho in He; now destruct He|].
      rewrite Hmain in *. cbn [outcome_of fs_after intakeDir dataDir] in *.
      injection Ho as ->. repeat split; auto.
      unfold existsIn. now rewrite lookup_insert_eq.
    - destruct (already_there m d args fs iso Ho) as (Ht & Hex & ->). auto. }
  destruct Ht as (Ht & Hpool & Hdata).
  assert (Hfind : findEarliestMissingSoldiers fs = Some iso).
  { unfold target in Ht. destruct args as [|a r]; [discriminate|].
    rewrite Hpub, Hback in Ht.
    destruct (findEarliestMissingSoldiers fs) as [next|]; [|discriminate].
    destruct (String.eqb next ""); [discriminate|].
    apply checked_shaped in Ht as [-> _]. reflexivity. }
  unfold findEarliestMissingSoldiers in Hfind.
  destruct (dataDir fs) as [dd|] eqn:Hd; [|discriminate].
  pose proof (earliest_spec dd) as Hspec. rewrite Hfind in Hspec.
  destruct Hspec as [Hun Hleast].
  split; [exists dd; auto|]. split.
  { unfold findEarliestMissingSoldiers. now rewrite Hd. }
  unfold Promote.findNextMissing. rewrite Hdata.
  pose proof (search_spec dd (intakeDir (fs_after (main m d args fs)))) as Hs.
  assert (Haw : awaiting dd (intakeDir (fs_after (main m d args fs))) iso).
  { split; [exact Hpool|]. exact Hun. }
  destruct (Promote.firstSome (Promote.nextMissingAt dd _) (jsonFiles dd)) as [next|].
  - destruct Hs as [Hn Hn']. do 2 f_equal. apply dataPath_inj.
    apply str_le_antisym; [now apply Hn'|]. apply Hleast. exact (proj2 Hn).
  - now destruct (Hs iso).
Qed.

(** Backfill over a store with one record that has no primary entry. *)
Lemma backfill_seed_sets_up_next_missing_witness :
  Promote.findNextMissing
    (fs_after (main 7 4 ["--backfill"]
                 {| dataDir := Some {[ dataPath Samples.day := Doc Samples.blank ]};
                    intakeDir := ∅ |}))
  = Some (Some Samples.day).
Proof.
  refine (proj2 (proj2 (backfill_seed_sets_up_next_missing 7 4 ["--backfill"]
                          {| dataDir := Some {[ dataPath Samples.day := Doc Samples.blank ]};
                             intakeDir := ∅ |} Samples.day _ _ _))).
  - reflexivity.
  - reflexivity.
  - left. vm_compute. reflexivity.
Defined.

End SeedFacts.

(** ** From the scaffold to the audit *)

Module PipelineFacts.
Import Js Json Store PipelineSpec MigrateSpec AuditSpec ScaffoldSpec PagesSpec.
Import JsonFacts StoreFacts MigrateFacts AuditFacts ScaffoldFacts BacklogFacts PagesFacts.

Lemma count_ext (p q : string -> bool) (names : list string) :
  (forall f, In f names -> p f = q f) -> count p names = count q names.
Proof.
  unfold count. induction names as [|f names IH]; intros H; cbn [List.filter]; auto.
  rewrite (H f) by now left. destruct (q f); cbn [length]; rewrite IH; auto;
    intros g Hg; apply H; now right.
Qed.

Lemma filter_ext_in (p q : string -> bool) (names : list string) :
  (forall f, In f names -> p f = q f) -> List.filter p names = List.filter q names.
Proof.
  induction names as [|f names IH]; intros H; cbn [List.filter]; auto.
  rewrite (H f) by now left. rewrite IH by (intros g Hg; apply H; now right). reflexivity.
Qed.

Lemma count_Permutation (p : string -> bool) (l l' : list string) :
  l ≡ₚ l' -> count p l = count p l'.
Proof.
  unfold count. induction 1 as [|x l l' _ IH|x y l|l l' l'' _ IH1 _ IH2]; cbn [List.filter].
  - reflexivity.
  - destruct (p x); cbn [length]; now rewrite IH.
  - destruct (p x), (p y); reflexivity.
  - congruence.
Qed.

Lemma sum_list_count (g : string -> nat) (p : string -> bool) (l : list string) :
  (forall f, In f l -> g f = if p f then 1%nat else 0%nat) ->
  sum_list (g <$> l) = count p l.
Proof.
  unfold count. induction l as [|f l IH]; intros H;
    cbn [fmap list_fmap List.filter]; [reflexivity|].
  change (sum_list (g f :: (g <$> l))) with (g f + sum_list (g <$> l))%nat.
  rewrite IH by (intros x Hx; apply H; now right).
  rewrite (H f) by now left. destruct (p f); reflexivity.
Qed.

Lemma count_split (d : dir) (names : list string) :
  (forall f, In f names -> is_Some (d !! f)) ->
  (count (parses d) names + count (corrupt d) names = length names)%nat.
Proof.
  unfold count, parses, corrupt. induction names as [|f names IH]; intros H;
    cbn [List.filter length]; [reflexivity|].
  specialize (IH (fun g Hg => H g (or_intror Hg))).
  destruct (H f) as [[raw|doc] ->]; [now left| |]; cbn [length]; lia.
Qed.

(** The tally and the writes of the loop of the migration. *)
Lemma loop_counts (names : list string) :
  NoDup names ->
  forall st : Migrate.state,
    (forall f, f ∈ names -> is_Some (Migrate.files st !! f)) ->
    exists st',
      Migrate.loop names st = Some st' /\
      Migrate.ok (Migrate.counts st')
      = (Migrate.ok (Migrate.counts st) + count (parses (Migrate.files st)) names)%nat /\
      Migrate.changed (Migrate.counts st')
      = (Migrate.changed (Migrate.counts st) + count (reshaped (Migrate.files st)) names)%nat /\
      Migrate.bad (Migrate.counts st')
      = (Migrate.bad (Migrate.counts st) + count (corrupt (Migrate.files st)) names)%nat /\
      (Migrate.written st').*1
      = ((Migrate.written st).*1 ++ List.filter (parses (Migrate.files st)) names)%list.
Proof.
  induction 1 as [|f rest Hnotin Hnd IH]; intros st Hall.
  - exists st. unfold count. cbn. rewrite app_nil_r. repeat split; auto; lia.
  - destruct (Hall f) as [x Hx]; [left|].
    assert (Hsame : forall st1, Migrate.files st1 = <[f := migrateFile f x]> (Migrate.files st) ->
              (forall g, g ∈ rest -> is_Some (Migrate.files st1 !! g)) /\
              (forall g, In g rest -> Migrate.files st1 !! g = Migrate.files st !! g)).
    { intros st1 Hf1. split.
      - intros g Hg. rewrite Hf1. destruct (decide (f = g)) as [->|Hne].
        + rewrite lookup_insert_eq. eauto.
        + rewrite lookup_insert_ne by auto. apply Hall. now right.
      - intros g Hg. rewrite Hf1. apply lookup_insert_ne. intros ->.
        apply Hnotin. now apply list_elem_of_In. }
    destruct (visit_files st f x Hx) as (st1 & Hv & Hf1).
    destruct (Hsame st1 Hf1) as [Hall1 Hlook].
    destruct (IH st1 Hall1) as (st' & Hl & Hok & Hch & Hbad & Hw).
    exists st'. split; [cbn [Migrate.loop]; now rewrite Hv|].
    rewrite Hok, Hch, Hbad, Hw.
    rewrite (count_ext (parses (Migrate.files st1)) (parses (Migrate.files st)) rest)
      by (intros g Hg; unfold parses; now rewrite Hlook).
    rewrite (count_ext (reshaped (Migrate.files st1)) (reshaped (Migrate.files st)) rest)
      by (intros g Hg; unfold reshaped; now rewrite Hlook).
    rewrite (count_ext (corrupt (Migrate.files st1)) (corrupt (Migrate.files st)) rest)
      by (intros g Hg; unfold corrupt; now rewrite Hlook).
    rewrite (filter_ext_in (parses (Migrate.files st1)) (parses (Migrate.files st)) rest)
      by (intros g Hg; unfold parses; now rewrite Hlook).
    assert (Hp : parses (Migrate.files st) f = match x with Doc _ => true | _ => false end)
      by (unfold parses; now rewrite Hx).
    assert (Hc : corrupt (Migrate.files st) f = match x with Corrupt _ => true | _ => false end)
      by (unfold corrupt; now rewrite Hx).
    assert (Hr : reshaped (Migrate.files st) f
                 = match x with
                   | Doc doc => (Migrate.migrateObject (basenameOfPath f ".json") doc).2
                   | _ => false
                   end)
      by (unfold reshaped; now rewrite Hx).
    unfold count. cbn [List.filter]. rewrite Hp, Hc, Hr.
    unfold Migrate.visit, Migrate.migrateOne in Hv. rewrite Hx in Hv.
    destruct x as [raw|doc].
    + injection Hv as <-.
      cbn [Migrate.counts Migrate.ok Migrate.changed Migrate.bad Migrate.written length].
      rewrite app_nil_r. repeat split; auto; lia.
    + destruct (Migrate.migrateObject (basenameOfPath f ".json") doc) as [doc' c] eqn:E.
      injection Hv as <-.
      cbn [Migrate.counts Migrate.ok Migrate.changed Migrate.bad Migrate.written snd length].
      rewrite fmap_app. cbn [fmap list_fmap fst].
      rewrite <- app_assoc. cbn [app].
      repeat split; auto; try lia. destruct c; cbn [length]; lia.
Qed.

Lemma listing_migrateDir (d : dir) : listing (migrateDir d) ≡ₚ listing d.
Proof.
  apply NoDup_Permutation; try apply listing_NoDup.
  intros f. unfold listing. rewrite !elem_of_listing, migrateDir_lookup.
  destruct (isJsonName f); [|tauto].
  destruct (d !! f); cbn; split; intros [? [? ?]]; split; eauto; discriminate.
Qed.

Lemma jsonFiles_listing (d : dir) : jsonFiles d ≡ₚ listing d.
Proof. unfold jsonFiles, sort, listing. apply merge_sort_Permutation. Qed.

Lemma In_listing (d : dir) (f : string) :
  In f (listing d) -> isJsonName f = true /\ is_Some (d !! f).
Proof. intros H. apply list_elem_of_In in H. now apply elem_of_listing. Qed.

Lemma migrateDir_status (d : dir) (f : string) :
  isJsonName f = true ->
  parses (migrateDir d) f = parses d f /\
  corrupt (migrateDir d) f = corrupt d f /\
  reshaped (migrateDir d) f = false.
Proof.
  intros Hf. unfold parses, corrupt, reshaped. rewrite migrateDir_lookup, Hf.
  destruct (d !! f) as [[raw|doc]|]; cbn [fmap option_fmap option_map migrateFile]; auto.
  now rewrite migrateObject_idempotent.
Qed.

(** The summary of a run, and its writes. *)
Lemma main_summary (fs : FS) (d : dir) :
  dataDir fs = Some d ->
  Migrate.summary (Migrate.main fs)
  = Some {| Migrate.ok := count (parses d) (listing d);
            Migrate.changed := count (reshaped d) (listing d);
            Migrate.bad := count (corrupt d) (listing d) |} /\
  Migrate.ending_of (Migrate.main fs)
  = (if (0 <? count (corrupt d) (listing d))%nat then Exited 2 else Returned) /\
  (Migrate.writes (Migrate.main fs)).*1 = List.filter (parses d) (listing d).
Proof.
  intros Hd. unfold Migrate.main. rewrite Hd.
  destruct (loop_counts _ (listing_NoDup d)
              {| Migrate.files := d;
                 Migrate.counts := {| Migrate.ok := 0; Migrate.changed := 0; Migrate.bad := 0 |};
                 Migrate.written := [] |})
    as (st & Hl & Hok & Hch & Hbad & Hw).
  { intros f Hf. now apply elem_of_listing in Hf as [_ Hf]. }
  rewrite Hl. cbn [Migrate.summary Migrate.ending_of Migrate.writes].
  fold (listing d) in *.
  cbn [Migrate.files Migrate.counts Migrate.ok Migrate.changed Migrate.bad Migrate.written
       fmap list_fmap app Nat.add] in *.
  rewrite Hbad, Hw. repeat split; auto.
  destruct (Migrate.counts st) as [o c b]. cbn in *. now subst.
Qed.



Lemma migrated_keys (d : dir) (f : string) :
  isJsonName f = true -> missingKeysAt (migrateDir d) f = 0%nat.
Proof.
  intros Hf. unfold missingKeysAt, readJson. rewrite migrateDir_lookup, Hf.
  destruct (d !! f) as [[raw|doc]|]; cbn [fmap option_fmap option_map migrateFile]; auto.
  apply filter_length_zero. intros k Hk. apply badKey_false.
  eexists. apply migrateObject_new.
  cbn in Hk. unfold Migrate.NEW_KEYS. cbn. tauto.
Qed.

Lemma migrated_failures (d : dir) (f : string) :
  isJsonName f = true -> is_Some (d !! f) ->
  parseFailuresAt (migrateDir d) f = if corrupt d f then 1%nat else 0%nat.
Proof.
  intros Hf [x Hx]. unfold parseFailuresAt, readJson, corrupt.
  rewrite migrateDir_lookup, Hf, Hx. now destruct x.
Qed.



Lemma migrate_emptyDay (iso : string) :
  Migrate.migrateObject iso (Scaffold.emptyDay iso) = (blankDay iso, true).
Proof.
  destruct (String.eqb_spec iso "") as [->|Hne]; [vm_compute; reflexivity|].
  apply String.eqb_neq in Hne.
  unfold Migrate.migrateObject, Migrate.ensureDate, Scaffold.emptyDay.
  cbn [obj_get String.eqb Ascii.eqb Bool.eqb truthy isString negb orb].
  rewrite Hne. vm_compute. reflexivity.
Qed.

(** X21.  The migration turns the day the scaffold writes into the blank
    record of the current schema.  The scaffold's day carries the three
    legacy categories; migrated under its own file name it is the record
    with the date and the four current categories, all empty, and the
    migration reports it as changed.  So for a project date without a
    file, after the scaffold and then the migration have run the file of
    the date holds that record, on which the audit finds every key, no
    category over its cap, and the primary category empty. *)
Theorem scaffolded_day_migrates_to_the_blank_record :
  (forall iso, Migrate.migrateObject iso (Scaffold.emptyDay iso) = (blankDay iso, true)) /\
  (forall fs dt,
     firstDay <= dt <= lastDay ->
     default ∅ (dataDir fs) !! dataPath (Scaffold.toIso dt) = None ->
     exists r d',
       Scaffold.run 400 fs = Some r /\
       dataDir (Migrate.fs_after (Migrate.main (Scaffold.fs_after r))) = Some d' /\
       d' !! dataPath (Scaffold.toIso dt) = Some (Doc (blankDay (Scaffold.toIso dt))) /\
       missingKeysAt d' (dataPath (Scaffold.toIso dt)) = 0%nat /\
       overCapsAt d' (dataPath (Scaffold.toIso dt)) = 0%nat /\
       missingSoldiersAt d' (dataPath (Scaffold.toIso dt)) = 1%nat).
Proof.
  split; [exact migrate_emptyDay|].
  intros fs dt Hdt Hnone.
  destruct (run_total fs) as (r & Hrun & _ & Hfs & _).
  exists r. eexists. split; [exact Hrun|].
  destruct (main_files (Scaffold.fs_after r)) as [_ Hm]. rewrite Hm, Hfs.
  cbn [dataDir fmap option_fmap option_map]. split; [reflexivity|].
  assert (Hlook : migrateDir (scaffoldDir projectAddresses (default ∅ (dataDir fs)))
                    !! dataPath (Scaffold.toIso dt)
                  = Some (Doc (blankDay (Scaffold.toIso dt)))).
  { rewrite migrateDir_lookup, isJsonName_dataPath.
    rewrite (scaffoldDir_creates _ _ _ (In_projectAddresses dt Hdt) Hnone).
    cbn [fmap option_fmap option_map migrateFile].
    rewrite basenameOfPath_dataPath, migrate_emptyDay; [reflexivity|].
    intros E. apply (f_equal String.length) in E. unfold Scaffold.toIso in E.
    rewrite !string_length_app in E. cbn in E. lia. }
  split; [exact Hlook|].
  unfold missingKeysAt, overCapsAt, missingSoldiersAt, readJson. rewrite Hlook.
  repeat split; vm_compute; reflexivity.
Qed.

End PipelineFacts.

(** ** What the pages render *)

Module RenderFacts.
Import Js Json Store Pages Render PipelineSpec AuditSpec BacklogSpec.
Import JsonFacts PromoteFacts MigrateFacts PagesFacts BacklogFacts PipelineFacts.

(** X22.  The warning of the day page and the audit.  [DayPage] shows its
    "Curation required" warning only where the audit counts a missing
    primary entry for the file; and for a record whose [soldiers_day] is an
    array, is [null] or is missing (every record the scaffold, the
    migration, the seeder or the promotion writes), the page warns exactly
    when the audit counts.  Without a file there is no warning. *)
Theorem page_warning_agrees_with_the_audit (d : dir) (f : string) (o : obj) :
  d !! f = Some (Doc o) ->
  (soldiersMissing (Some o) = true -> missingSoldiersAt d f = 1%nat) /\
  (isArray (obj_get o "soldiers_day") = true \/
   obj_get o "soldiers_day" = None \/ obj_get o "soldiers_day" = Some JNull ->
   (soldiersMissing (Some o) = true <-> missingSoldiersAt d f = 1%nat)) /\
  soldiersMissing None = false.
Proof.
  intros Hf. unfold soldiersMissing, fieldOrEmpty, missingSoldiersAt, readJson, entries.
  rewrite Hf. change primaryCategory with "soldiers_day".
  split; [|split; [|reflexivity]].
  - destruct (obj_get o "soldiers_day") as [[| | | |items|]|]; cbn; try discriminate; auto.
    now intros ->.
  - intros [H|[->| ->]]; [|cbn; tauto|cbn; tauto].
    destruct (obj_get o "soldiers_day") as [[| | | |items|]|]; try discriminate.
    cbn. destruct items; cbn; split; auto; discriminate.
Qed.

(** A record with one primary entry: no warning, and the audit counts none. *)
Lemma page_warning_agrees_with_the_audit_witness :
  soldiersMissing (Some Samples.curated) = true <->
  missingSoldiersAt {[ "1775-07-04.json" := Doc Samples.curated ]} "1775-07-04.json" = 1%nat.
Proof.
  refine (proj1 (proj2 (page_warning_agrees_with_the_audit
                          {[ "1775-07-04.json" := Doc Samples.curated ]}
                          "1775-07-04.json" Samples.curated _)) _).
  - reflexivity.
  - left. reflexivity.
Defined.

Section Builtins.

Variable trim : string -> string.

(** X23.  A position with a fraction breaks the page of its date.  Where the
    promotion of a single fractional position leaves room under the cap,
    the [null] it writes is among the entries the day page shows for the
    category, and [EntryBlock] throws on it: reading [entry.quote] of
    [null] is a [TypeError]. *)
Theorem fractional_position_breaks_the_page (data intake : obj) (key : string) (cap : nat)
    (q : Q) (overwrite : bool) :
  Promote.lookupCap Promote.CAPS key = Some cap ->
  fractional q ->
  (1 <= q)%Q -> (q < inject_Z (Z.of_nat (length (entries intake key))) + 1)%Q ->
  (length (if overwrite then [] else entries data key) < cap)%nat ->
  exists entry,
    In entry (shown (Some (Promote.data_after
                             (Promote.applyPromotion data intake key
                                [Promote.Finite q] overwrite))) key cap) /\
    headline trim entry = None.
Proof.
  intros Hcap Hfrac Hlo Hhi Hroom. exists JNull. split; [|reflexivity].
  rewrite shown_firstn, applyPromotion_entries, String.eqb_refl.
  unfold PromoteSpec.promotedEntries. rewrite (fractional_pick _ q Hfrac Hlo Hhi), Hcap.
  cbn [Promote.slice0]. rewrite firstn_firstn, Nat.min_id.
  rewrite firstn_all2 by (rewrite length_app; cbn [length]; lia).
  apply in_or_app. right. now left.
Qed.

End Builtins.

(** The position 3/2 on a record without entries. *)
Lemma fractional_position_breaks_the_page_witness :
  exists entry,
    In entry (shown (Some (Promote.data_after
                             (Promote.applyPromotion Samples.blank Samples.pool
                                Promote.SOLDIERS [Promote.Finite (3 # 2)] false)))
                Promote.SOLDIERS 3) /\
    headline Samples.trim entry = None.
Proof.
  apply (fractional_position_breaks_the_page Samples.trim Samples.blank Samples.pool
           Promote.SOLDIERS 3 (3 # 2) false).
  - reflexivity.
  - vm_compute. discriminate.
  - vm_compute. discriminate.
  - vm_compute. reflexivity.
  - vm_compute. lia.
Defined.

(** X24.  The legacy day page needs the legacy shape.  On the day the
    scaffold writes it renders three empty sections, where the current
    page shows no entry and its warning; on a record the migration has
    written it throws, because the three legacy categories are gone and
    [items.map] is called on [undefined]. *)
Theorem legacy_page_needs_the_legacy_shape (fs : FS) (year month day : string) :
  (forall base doc,
     loadDayData fs (year ++ "-" ++ month ++ "-" ++ day)
     = Loaded (Migrate.migrateObject base doc).1 ->
     legacyDayPage fs year month day = LegacyError) /\
  (forall iso,
     loadDayData fs (year ++ "-" ++ month ++ "-" ++ day) = Loaded (Scaffold.emptyDay iso) ->
     legacyDayPage fs year month day = LegacyDay [] [] [] /\
     soldiersMissing (Some (Scaffold.emptyDay iso)) = true /\
     forall key cap, shown (Some (Scaffold.emptyDay iso)) key cap = []).
Proof.
  split.
  - intros base doc Hload. unfold legacyDayPage. rewrite Hload.
    rewrite (migrateObject_old base doc "continental_congress") by (cbn; auto).
    reflexivity.
  - intros iso Hload. unfold legacyDayPage. rewrite Hload. split; [reflexivity|].
    split; [reflexivity|]. intros key cap. rewrite shown_firstn.
    unfold entries, Scaffold.emptyDay. cbn [obj_get].
    repeat match goal with |- context [if ?b then _ else _] => destruct b end;
      cbn [arrayOr]; now destruct cap.
Qed.

End RenderFacts.
